(** * objaverse-rendering: a shallow embedding of the pipeline scripts

    The repository is a set of one-shot Python scripts:

    - [scripts/Discarded/simple_filter.py]   the catalogue filter,
    - [scripts/download_objaverse.py]        the URL resolver / batcher and the
                                             render-completion scanner,
    - [scripts/blender_script.py]            the multi-view camera pipeline,
    - [scripts/subset_lists.py]              the train/test splitter.

    Each script is embedded as Rocq functions that follow the Python text
    statement by statement.  Python exceptions are values of [exn] and a
    computation that may raise has type [result A]; the file system a script
    reads and writes is a finite map from paths to file contents; what a
    script prints is a list of log events.  The first part of the file holds
    the embedding, the second part the properties. *)

From Stdlib Require Import ZArith Lia Ascii String List.
From Stdlib Require Import Decimal DecimalString DecimalNat DecimalPos DecimalZ.
From Stdlib Require Import Floats Uint63 Reals Lra Factorial.
From stdpp Require Import gmap strings list.

#[local] Set Warnings "-register-all,-inexact-float,-clear-no-such-hyp".

Local Open Scope Z_scope.

(* ===================================================================== *)
(** * Part I: the embedding                                               *)
(* ===================================================================== *)

(** ** Python values shared by the scripts *)
Module Py.

(** The exceptions the scripts can see.  [HostError] stands for whatever an
    external library (bpy, urllib, os) raises on its own. *)
Inductive exn : Type :=
  | ValueError (msg : string)
  | RuntimeError (msg : string)
  | IndexError
  | FileNotFoundError (path : string)
  | NotADirectoryError (path : string)
  | HostError (msg : string).

(** A computation that returns [A] or raises. *)
Inductive result (A : Type) : Type :=
  | Ok (a : A)
  | Raise (e : exn).
Arguments Ok {A} a.
Arguments Raise {A} e.

Definition bind {A B} (m : result A) (k : A -> result B) : result B :=
  match m with
  | Ok a => k a
  | Raise e => Raise e
  end.

Definition is_ok {A} (m : result A) : bool :=
  match m with Ok _ => true | Raise _ => false end.

(** *** Strings *)

(** [len(s)] *)
Definition len (s : string) : nat := String.length s.

(** [s.startswith(p)] *)
Fixpoint startswith (s p : string) {struct p} : bool :=
  match p, s with
  | EmptyString, _ => true
  | String c p', String d s' => if Ascii.eqb c d then startswith s' p' else false
  | String _ _, EmptyString => false
  end.

(** [s[n:]] for [n >= 0] *)
Fixpoint drop_chars (n : nat) (s : string) : string :=
  match n, s with
  | O, _ => s
  | S n', String _ s' => drop_chars n' s'
  | S _, EmptyString => EmptyString
  end.

(** [s.endswith(suf)]: the last [len(suf)] characters of [s] are [suf]. *)
Definition endswith (s suf : string) : bool :=
  (len suf <=? len s)%nat && String.eqb (drop_chars (len s - len suf) s) suf.

(** [sub in s] for strings: [sub] occurs as a contiguous run of [s]. *)
Fixpoint contains (s sub : string) : bool :=
  startswith s sub ||
  match s with
  | EmptyString => false
  | String _ s' => contains s' sub
  end.

(** [c.lower()] on one character.  Catalogue paths are byte strings here;
    the letters [A]..[Z] are the only characters below code point 256 whose
    lower-case form is an ASCII letter, so for the containment of ASCII
    terms nothing is lost by leaving the other characters alone. *)
Definition lower_char (c : ascii) : ascii :=
  let n := nat_of_ascii c in
  if (65 <=? n)%nat && (n <=? 90)%nat then ascii_of_nat (n + 32) else c.

(** [s.lower()] *)
Fixpoint lower (s : string) : string :=
  match s with
  | EmptyString => EmptyString
  | String c s' => String (lower_char c) (lower s')
  end.

(** [s.split(sep)[0]] for a one-character separator: the text before the
    first [sep], the whole string when there is none. *)
Fixpoint split_first (sep : ascii) (s : string) : string :=
  match s with
  | EmptyString => EmptyString
  | String c s' => if Ascii.eqb c sep then EmptyString else String c (split_first sep s')
  end.

(** [s.split(sep)[-1]] for a one-character separator: the text after the
    last [sep], the whole string when there is none. *)
Fixpoint split_last (sep : ascii) (s : string) : string :=
  match s with
  | EmptyString => EmptyString
  | String c s' =>
      if existsb (Ascii.eqb sep) (list_ascii_of_string s') then split_last sep s'
      else if Ascii.eqb c sep then s' else s
  end.

(** [str(n)] for an integer. *)
Definition str_of_Z (z : Z) : string := NilZero.string_of_int (Z.to_int z).

(** [str(n)] for a natural number. *)
Definition str_of_nat (n : nat) : string := NilZero.string_of_uint (Nat.to_uint n).

(** [f"{i:03d}"] for [i >= 0]: decimal, padded with zeros on the left to
    three characters. *)
Definition fmt_03d (i : nat) : string :=
  let s := str_of_nat i in
  match len s with
  | 0%nat => "000" +:+ s
  | 1%nat => "00" +:+ s
  | 2%nat => "0" +:+ s
  | _ => s
  end.

(** *** [posixpath] *)

(** [os.path.join(a, b)] *)
Definition path_join (a b : string) : string :=
  if startswith b "/" then b
  else if String.eqb a "" || endswith a "/" then a +:+ b
  else a +:+ "/" +:+ b.

(** [os.path.basename(p)]: what follows the last slash. *)
Definition basename (p : string) : string := split_last "/" p.

(** *** [range] *)

(** The number of elements of [range(lo, hi, step)], as CPython computes it
    ([compute_range_length]). *)
Definition range_len (lo hi step : Z) : Z :=
  if 0 <? step then (if lo <? hi then (hi - lo - 1) / step + 1 else 0)
  else (if hi <? lo then (lo - hi - 1) / (- step) + 1 else 0).

(** [range(lo, hi, step)]; a zero step raises [ValueError]. *)
Definition range (lo hi step : Z) : result (list Z) :=
  if step =? 0 then Raise (ValueError "range() arg 3 must not be zero")
  else Ok (map (fun k => lo + Z.of_nat k * step) (seq 0 (Z.to_nat (range_len lo hi step)))).

(** [l[i:j]] for [0 <= i] and [0 <= j]: indices past the end are clamped. *)
Definition slice {A} (l : list A) (i j : Z) : list A :=
  drop (Z.to_nat i) (take (Z.to_nat j) l).

(** *** Directories *)

(** A directory tree as [os.listdir], [os.path.isdir] and [os.path.exists]
    see it: a path names a file or a directory with named entries. *)
Inductive node : Type :=
  | File
  | Dir (entries : gmap string node).

(** [os.path.isdir] *)
Definition isdir (n : node) : bool :=
  match n with File => false | Dir _ => true end.

(** [os.listdir(path)], in the order the operating system gives. *)
Definition listdir (path : string) (n : option node) : result (list string) :=
  match n with
  | None => Raise (FileNotFoundError path)
  | Some File => Raise (NotADirectoryError path)
  | Some (Dir entries) => Ok (elements (dom entries))
  end.

(** [os.path.isdir(os.path.join(path, d))] for the directory [n] at [path] *)
Definition isdir_in (n : option node) (d : string) : bool :=
  match n with
  | Some (Dir entries) =>
      match entries !! d with Some c => isdir c | None => false end
  | _ => false
  end.

End Py.

Import Py.

#[global] Instance result_ret : MRet result := fun A a => Ok a.
#[global] Instance result_bind : MBind result := fun A B k m => Py.bind m k.

(** ** [scripts/download_objaverse.py] *)
Module Batcher.

(** The files of this script are JSON arrays of strings. *)
Abbreviation files := (gmap string (list string)).

(** What the script prints. *)
Inductive event : Type :=
  | LoadedUids (n : nat)
  | MappedUrls (n : nat)
  | MissingObjects (n : nat)
  | CreatedBatch (index : Z) (size : nat)
  | CreatedBatchFiles (count : Z)
  | FoundRendered (n : nat)
  | FilteredRemaining (n : nat) (path : string).

Definition base_url : string :=
  "https://huggingface.co/datasets/allenai/objaverse/resolve/main/".

(** The loop over [filtered_uids]: the URLs in order, and [missing_count]. *)
Fixpoint resolve_urls (object_paths : gmap string string) (uids : list string)
  : list string * nat :=
  match uids with
  | [] => ([], 0%nat)
  | uid :: rest =>
      let '(urls, missing) := resolve_urls object_paths rest in
      match object_paths !! uid with
      | Some p => ((base_url +:+ p) :: urls, missing)
      | None => (urls, S missing)
      end
  end.

(** [f"download_batches/{output_file}_batch_{k}.json"] *)
Definition batch_file (output_file : string) (k : Z) : string :=
  "download_batches/" +:+ output_file +:+ "_batch_" +:+ str_of_Z k +:+ ".json".

(** [f"download_batches/{output_file}_all.json"] *)
Definition all_file (output_file : string) : string :=
  "download_batches/" +:+ output_file +:+ "_all.json".

(** One turn of the batching loop, at loop index [i]: the name and the
    content of the file it writes ([batch] and [batch_file]). *)
Definition batch_write (download_urls : list string) (output_file : string)
    (batch_size i : Z) : string * list string :=
  (batch_file output_file (i / batch_size),
   slice download_urls i (i + batch_size)).

(** The files the batching loop writes, in the order it writes them. *)
Definition batch_writes (download_urls : list string) (output_file : string)
    (batch_size : Z) : result (list (string * list string)) :=
  idxs ← range 0 (Z.of_nat (length download_urls)) batch_size;
  Ok (map (batch_write download_urls output_file batch_size) idxs).

(** What the batching loop prints, one line per turn. *)
Definition batch_events (download_urls : list string) (batch_size : Z)
  : result (list event) :=
  idxs ← range 0 (Z.of_nat (length download_urls)) batch_size;
  Ok (map (fun i => CreatedBatch (i / batch_size)
                      (length (slice download_urls i (i + batch_size)))) idxs).

(** Writing a sequence of files, later writes over earlier ones. *)
Definition write_all (ws : list (string * list string)) (fs : files) : files :=
  foldl (fun acc w => <[w.1 := w.2]> acc) fs ws.

(** The figure of the closing summary line:
    [len(download_urls)//batch_size + 1]. *)
Definition printed_batch_count (download_urls : list string) (batch_size : Z) : Z :=
  Z.of_nat (length download_urls) / batch_size + 1.

(** [create_download_list(filtered_uids_file, output_file, batch_size)]:
    the file system afterwards, what was printed, and the returned URLs.
    [object_paths] is the catalogue's path table
    ([objaverse._load_object_paths()]). *)
Definition create_download_list (object_paths : gmap string string)
    (filtered_uids_file output_file : string) (batch_size : Z) (fs : files)
  : result (files * list event * list string) :=
  match fs !! filtered_uids_file with
  | None => Raise (FileNotFoundError filtered_uids_file)
  | Some filtered_uids =>
      let '(download_urls, missing_count) := resolve_urls object_paths filtered_uids in
      ws ← batch_writes download_urls output_file batch_size;
      evs ← batch_events download_urls batch_size;
      let fs1 := write_all ws fs in
      let fs2 := <[all_file output_file := download_urls]> fs1 in
      Ok (fs2,
          [LoadedUids (length filtered_uids);
           MappedUrls (length download_urls);
           MissingObjects missing_count]
          ++ evs
          ++ [CreatedBatchFiles (printed_batch_count download_urls batch_size)],
          download_urls)
  end.

(** The number of batches of [n] URLs: [n / B] rounded up. *)
Definition batch_count (n : nat) (B : Z) : nat := Z.to_nat ((Z.of_nat n + B - 1) / B).

(** The batches of a URL list, as the properties speak of them: the
    consecutive slices of width [B]. *)
Definition batches_of (urls : list string) (B : Z) : list (list string) :=
  map (fun k => slice urls (Z.of_nat k * B) (Z.of_nat k * B + B))
      (seq 0 (batch_count (length urls) B)).

(** A small catalogue and a list of four UIDs, one of them unknown. *)
Definition demo_paths : gmap string string :=
  {["a" := "glbs/000-001/a.glb"; "b" := "glbs/000-001/b.glb"; "c" := "glbs/000-002/c.glb"]}.
Definition demo_files : gmap string (list string) :=
  {["uids.json" := ["a"; "b"; "zz"; "c"]]}.

(** *** The render-completion scanner *)

(** [[f for f in os.listdir(item_path) if f.endswith('.png')]] *)
Definition png_files (entries : gmap string node) : list string :=
  filter (fun f => endswith f ".png" = true) (elements (dom entries)).

(** The test of the scan on one entry of [output_dir]: a directory with
    at least 16 [.png] entries in which [cameras.json] exists. *)
Definition is_complete (item : node) : bool :=
  match item with
  | File => false
  | Dir entries =>
      (16 <=? length (png_files entries))%nat
      && bool_decide (is_Some (entries !! "cameras.json"))
  end.

(** The loop of [check_existing_renders] over the names [os.listdir] gave
    for [output_dir], whose entries are [items]. *)
Definition scan (items : gmap string node) (names : list string) : gset string :=
  foldl (fun completed_uids item =>
           match items !! item with
           | Some n => if is_complete n then completed_uids ∪ {[item]} else completed_uids
           | None => completed_uids
           end) ∅ names.

(** [check_existing_renders(output_dir)]; [root] is what [output_dir] names,
    [None] when nothing exists there.  [os.listdir] of a path that is not a
    directory raises. *)
Definition check_existing_renders (output_dir : string) (root : option node)
  : result (gset string * list event) :=
  match root with
  | None => Ok (∅, [FoundRendered 0])
  | Some File => Raise (NotADirectoryError output_dir)
  | Some (Dir items) =>
      let completed_uids := scan items (elements (dom items)) in
      Ok (completed_uids, [FoundRendered (size completed_uids)])
  end.

End Batcher.

(** ** [scripts/subset_lists.py] *)
Module Splitter.

Inductive event : Type :=
  | FoundObjects (n : nat)
  | TrainTest (train test : nat)
  | CreatedSubsetLists.

(** [int(x)] for a float: truncation towards zero. *)
Definition int_of_float (x : float) : result Z :=
  match Prim2SF x with
  | S754_zero _ => Ok 0
  | S754_finite s m e =>
      let v := if 0 <=? e then Z.pos m * 2 ^ e else Z.pos m / 2 ^ (- e) in
      Ok (if s then - v else v)
  | S754_infinity _ => Raise (ValueError "cannot convert float infinity to integer")
  | S754_nan => Raise (ValueError "cannot convert float NaN to integer")
  end.

(** [int(n * 0.9)] for the length [n] of a list; the product is a binary64
    product, [n] converted to binary64 first. *)
Definition split_idx (n : nat) : result Z :=
  int_of_float (PrimFloat.of_uint63 (Uint63.of_Z (Z.of_nat n)) * 0.9)%float.

Section Shuffle.
Context {A G : Type}.

(** [random.Random._randbelow(n)]: a number and the generator's next state. *)
Variable randbelow : G -> nat -> nat * G.

(** [x[i], x[j] = x[j], x[i]] *)
Definition swap (x : list A) (i j : nat) : result (list A) :=
  match x !! j, x !! i with
  | Some xj, Some xi => Ok (<[j := xi]> (<[i := xj]> x))
  | _, _ => Raise IndexError
  end.

(** The loop of [random.shuffle], from index [i] down to 1. *)
Fixpoint shuffle_from (i : nat) (g : G) (x : list A) : result (list A * G) :=
  match i with
  | O => Ok (x, g)
  | S i' =>
      let '(j, g') := randbelow g (i + 1) in
      x' ← swap x i j;
      shuffle_from i' g' x'
  end.

(** [random.shuffle(x)] *)
Definition shuffle (g : G) (x : list A) : result (list A * G) :=
  shuffle_from (length x - 1) g x.

End Shuffle.

Section Script.
Context {G : Type}.
(** [random.seed(a)]: the state of the generator after seeding. *)
Variable seed : Z -> G.
Variable randbelow : G -> nat -> nat * G.

Definition RENDERS_DIR : string :=
  "/home/jayesh/objaverse-rendering/scripts/objaverse/renders/15k".
Definition OUTPUT_DIR : string :=
  "/home/jayesh/objaverse-rendering/scripts/objaverse/renders/subset_list".

(** [[d for d in os.listdir(RENDERS_DIR) if os.path.isdir(...)]] *)
Definition all_uids (renders : option node) : result (list string) :=
  names ← listdir RENDERS_DIR renders;
  Ok (filter (fun d => isdir_in renders d = true) names).

Record split_lists := {
  train_uids : list string;
  test_uids : list string;
  printed : list event;
  written : gmap string (list string)
}.

(** The script: list, shuffle with seed 42, split, write the two lists. *)
Definition split_script (renders : option node) : result split_lists :=
  uids ← all_uids renders;
  '(shuffled, _) ← shuffle randbelow (seed 42) uids;
  idx ← split_idx (length shuffled);
  let train := slice shuffled 0 idx in
  let test := drop (Z.to_nat idx) shuffled in
  Ok {| train_uids := train;
        test_uids := test;
        printed := [FoundObjects (length uids);
                    TrainTest (length train) (length test);
                    CreatedSubsetLists];
        written := <[OUTPUT_DIR +:+ "/15k_test.json" := test]>
                   (<[OUTPUT_DIR +:+ "/15k_train.json" := train]> ∅) |}.

End Script.

(** A generator with which the script can be run: a linear congruential
    sequence, reduced modulo the bound. *)
Definition lcg_seed (a : Z) : Z := Z.abs a.
Definition lcg_randbelow (g : Z) (n : nat) : nat * Z :=
  (Z.to_nat (g mod Z.of_nat n), (1103515245 * g + 12345) mod 2147483648).

(** Ten rendered objects and a stray file. *)
Definition demo_renders : gmap string node :=
  list_to_map (("notes.txt", File)
               :: map (fun uid => (uid, Dir ∅))
                      ["u0"; "u1"; "u2"; "u3"; "u4"; "u5"; "u6"; "u7"; "u8"; "u9"]).

End Splitter.

(** ** [scripts/Discarded/simple_filter.py] *)
Module Filter.

Definition exclusion_terms : list string :=
  ["test"; "temp"; "placeholder"; "broken"; "wip";
   "untextured"; "lowpoly"; "simple"; "cube"; "sphere";
   "plane"; "default"; "example"].

(** The body of the filtering loop for one path: [true] when no [continue]
    is taken, so that the UID is appended. *)
Definition passes (path : string) : bool :=
  if String.eqb path "" then false                                   (* not path *)
  else if negb (endswith path ".glb") then false
  else if existsb (fun bad_term => contains (lower path) bad_term) exclusion_terms
       then false
  else if (len path <? 10)%nat then false
  else true.

(** The filtering loop over [sampled_uids]. *)
Fixpoint filter_paths (object_paths : gmap string string) (sampled_uids : list string)
  : list string :=
  match sampled_uids with
  | [] => []
  | uid :: rest =>
      let path := default "" (object_paths !! uid) in
      if passes path then uid :: filter_paths object_paths rest
      else filter_paths object_paths rest
  end.

Section Sample.
(** [random.sample(population, k)] after [random.seed(42)]. *)
Variable sample : list string -> Z -> result (list string).

(** [simple_quality_filter(sample_size)]; [uids] and [object_paths] are what
    the catalogue returns. *)
Definition simple_quality_filter (uids : list string)
    (object_paths : gmap string string) (sample_size : Z) : result (list string) :=
  sampled_uids ← sample uids (Z.min sample_size (Z.of_nat (length uids)));
  Ok (filter_paths object_paths sampled_uids).

End Sample.

(** [term] occurs in [path] when case is ignored: some run of [path] has
    the same lower-case form as [term]. *)
Definition occurs_ignoring_case (term path : string) : Prop :=
  exists pre mid post, path = pre +:+ mid +:+ post /\ lower mid = lower term.

(** The four tests of the loop body, read as properties of the path. *)
Definition acceptable (path : string) : Prop :=
  path <> ""%string
  /\ (exists stem, path = stem +:+ ".glb")
  /\ (forall term, term ∈ exclusion_terms -> ~ occurs_ignoring_case term path)
  /\ (10 <= len path)%nat.

(** A stand-in for [random.sample]: the first [k] of the population. *)
Definition first_k (population : list string) (k : Z) : result (list string) :=
  if k <? 0 then Raise (ValueError "Sample larger than population or is negative")
  else Ok (take (Z.to_nat k) population).

Definition demo_catalogue : gmap string string :=
  {["a" := "glbs/000-001/a.glb"; "b" := "glbs/000-001/Test_b.glb";
    "c" := "c.glb"; "d" := "glbs/000-002/d.fbx"]}.

End Filter.

(** ** [scripts/blender_script.py] *)
Module Blender.

(** *** Numbers

    The script computes with Python floats and the [math] module.  Its
    arithmetic is written once, over an interface [Num], and read at two
    instances: [binary64] (IEEE 754 double precision, Python's [float]) and
    [reals] (the real numbers, the reading under which the formulas of the
    format are stated).  [math.cos] and [math.sin] are a parameter of type
    [Math]. *)
Class Num (F : Type) := {
  of_int : Z -> F;
  add : F -> F -> F;
  sub : F -> F -> F;
  mul : F -> F -> F;
  div : F -> F -> F
}.

Record Math (F : Type) := {
  math_cos : F -> F;
  math_sin : F -> F
}.
Arguments math_cos {F} _ _.
Arguments math_sin {F} _ _.

Declare Scope num_scope.
Delimit Scope num_scope with num.
Infix "+" := add : num_scope.
Infix "-" := sub : num_scope.
Infix "*" := mul : num_scope.
Infix "/" := div : num_scope.

(** [float(z)] for an integer [z] of magnitude below 2^63. *)
Definition float_of_Z (z : Z) : float :=
  match z with
  | Z0 => 0%float
  | Zpos _ => PrimFloat.of_uint63 (Uint63.of_Z z)
  | Zneg p => (- PrimFloat.of_uint63 (Uint63.of_Z (Zpos p)))%float
  end.

#[export] Instance binary64 : Num float := {|
  of_int := float_of_Z;
  add := PrimFloat.add;
  sub := PrimFloat.sub;
  mul := PrimFloat.mul;
  div := PrimFloat.div
|}.

#[export] Instance reals : Num R := {|
  of_int := IZR;
  add := Rplus;
  sub := Rminus;
  mul := Rmult;
  div := Rdiv
|}.

(** The real cosine and sine. *)
Definition real_math : Math R := {| math_cos := Rtrigo_def.cos; math_sin := Rtrigo_def.sin |}.

(** A number of the form [m / 2^k]: the exact value of a binary64 literal. *)
Definition dyadic {F} `{Num F} (m : Z) (k : Z) : F :=
  (of_int m / of_int (2 ^ k))%num.

(** *** The render settings and the camera tables *)

Definition resolution_x : Z := 256.
Definition resolution_y : Z := 256.

Section Tables.
Context {F : Type} `{Num F}.

(** [AZIMUTHS_16]; each entry is the binary64 value of the literal in the
    source, e.g. 0.7853981852531433 = 13176795 / 2^24. *)
Definition AZIMUTHS_16 : list F := [
  dyadic 0 0;        dyadic 13176795 24; dyadic 13176795 23; dyadic 2470649 20;
  dyadic 13176795 22; dyadic 16470993 22; dyadic 2470649 19;  dyadic 11529695 21;
  dyadic 13176795 25; dyadic 2470649 21;  dyadic 8235497 22;  dyadic 11529695 22;
  dyadic 7411947 21;  dyadic 4529523 20;  dyadic 5353073 20;  dyadic 12353245 21
].

(** [ELEVATIONS_16]: sixteen times 0.5235987901687622 = 4392265 / 2^23. *)
Definition ELEVATIONS_16 : list F := replicate 16 (dyadic 4392265 23).

End Tables.

(** *** The host *)

Definition vec (F : Type) : Type := F * F * F.

(** What a call into the host returns: the new scene, or the message of the
    exception the host raised. *)
Inductive outcome (Scene : Type) : Type :=
  | Done (s : Scene)
  | Failed (msg : string).
Arguments Done {Scene} s.
Arguments Failed {Scene} msg.

(** What the script asks of Blender's Python API, on an abstract scene.
    A step that can raise returns an [outcome]. *)
Record Bpy (F Scene : Type) := {
  (** the four removal loops of [reset_scene] *)
  remove_objects : Scene -> Scene;
  remove_materials : Scene -> Scene;
  remove_textures : Scene -> Scene;
  remove_images : Scene -> Scene;
  (** [bpy.ops.import_scene.gltf] and [.fbx] *)
  import_gltf : string -> Scene -> outcome Scene;
  import_fbx : string -> Scene -> outcome Scene;
  (** the number of objects [scene_meshes()] yields *)
  mesh_count : Scene -> nat;
  (** the scaling and recentring of [normalize_scene], once a bounding box
      exists *)
  rescale_recentre : Scene -> outcome Scene;
  (** [add_lighting] *)
  relight : Scene -> outcome Scene;
  (** the scene side of [setup_camera]: lens, sensor, track-to constraint *)
  rig_camera : Z -> Z -> Scene -> outcome Scene;
  (** the empty object the camera tracks *)
  track_empty : Scene -> outcome Scene;
  (** [setup_compositor_for_depth_and_mask(views_dir)] *)
  wire_compositor : string -> Scene -> outcome Scene;
  (** [cam.location = cam_pos] *)
  set_location : vec F -> Scene -> Scene;
  (** [bpy.ops.render.render(write_still=True)], the scene side *)
  render : Scene -> outcome Scene;
  (** [scene.frame_current] *)
  frame_current : Scene -> nat;
  (** [bpy.context.view_layer.update()] *)
  view_layer_update : Scene -> Scene;
  (** [cam.matrix_world @ Vector(v)] and [cam.matrix_world.translation] *)
  matrix_apply : Scene -> vec F -> vec F;
  matrix_translation : Scene -> vec F;
  (** [mathutils.Vector] addition and subtraction *)
  vadd : vec F -> vec F -> vec F;
  vsub : vec F -> vec F -> vec F
}.
Arguments remove_objects {F Scene} _ _.
Arguments remove_materials {F Scene} _ _.
Arguments remove_textures {F Scene} _ _.
Arguments remove_images {F Scene} _ _.
Arguments import_gltf {F Scene} _ _ _.
Arguments import_fbx {F Scene} _ _ _.
Arguments mesh_count {F Scene} _ _.
Arguments rescale_recentre {F Scene} _ _.
Arguments relight {F Scene} _ _.
Arguments rig_camera {F Scene} _ _ _ _.
Arguments track_empty {F Scene} _ _.
Arguments wire_compositor {F Scene} _ _ _.
Arguments set_location {F Scene} _ _ _.
Arguments render {F Scene} _ _.
Arguments frame_current {F Scene} _ _.
Arguments view_layer_update {F Scene} _ _.
Arguments matrix_apply {F Scene} _ _ _.
Arguments matrix_translation {F Scene} _ _.
Arguments vadd {F Scene} _ _ _.
Arguments vsub {F Scene} _ _ _.

(** A host on which every step succeeds and nothing is recorded: a stand-in
    for Blender with which the script can be run. *)
Definition null_host (F : Type) (origin : vec F) : Bpy F unit := {|
  remove_objects := fun s => s;
  remove_materials := fun s => s;
  remove_textures := fun s => s;
  remove_images := fun s => s;
  import_gltf := fun _ s => Done s;
  import_fbx := fun _ s => Done s;
  mesh_count := fun _ => 1%nat;
  rescale_recentre := fun s => Done s;
  relight := fun s => Done s;
  rig_camera := fun _ _ s => Done s;
  track_empty := fun s => Done s;
  wire_compositor := fun _ s => Done s;
  set_location := fun _ s => s;
  render := fun s => Done s;
  frame_current := fun _ => 1%nat;
  view_layer_update := fun s => s;
  matrix_apply := fun _ v => v;
  matrix_translation := fun _ => origin;
  vadd := fun u _ => u;
  vsub := fun u _ => u
|}.

(** What [urllib.request.urlretrieve(url, filename)] can do: fetch the whole
    body, or fail, having written nothing or a part of the body. *)
Inductive fetch : Type :=
  | Fetched (body : string)
  | Broken (partial : option string).

(** *** Data *)

(** One entry of [camera_params]. *)
Record view_record (F : Type) := {
  view_id : nat;
  azimuth : F;
  elevation : F;
  camera_distance : F;
  position : list F;
  target : list F;
  up : list F;
  focal_length : list F;
  principal_point : list F;
  image_size : list Z;
  sensor_size : list F
}.
Arguments view_id {F} _.
Arguments azimuth {F} _.
Arguments elevation {F} _.
Arguments camera_distance {F} _.
Arguments position {F} _.
Arguments target {F} _.
Arguments up {F} _.
Arguments focal_length {F} _.
Arguments principal_point {F} _.
Arguments image_size {F} _.
Arguments sensor_size {F} _.

Inductive image_kind : Type := Rgb | Depth | Mask.

(** What a file holds. *)
Inductive content (F : Type) : Type :=
  | Image (k : image_kind)
  | CamerasJson (camera_params : list (view_record F))
  | Asset (body : string).
Arguments Image {F} k.
Arguments CamerasJson {F} camera_params.
Arguments Asset {F} body.

(** [cam.data] as [setup_camera] leaves it. *)
Record camera (F : Type) := {
  lens : F;
  sensor_width : F
}.
Arguments lens {F} _.
Arguments sensor_width {F} _.

(** The command line. *)
Record args (F : Type) := {
  object_path : string;
  output_dir : string;
  num_images : Z;
  camera_dist : F
}.
Arguments object_path {F} _.
Arguments output_dir {F} _.
Arguments num_images {F} _.
Arguments camera_dist {F} _.

Inductive event : Type :=
  | RenderedView (i : nat) (num_views : Z)
  | SavedCameraParameters (num_views : Z)
  | Completed (object_uid : string) (num_views : Z)
  | Finished (local_path : string)
  | FailedToRender (object_path : string)
  | PrintedException (e : exn)
  | Traceback (e : exn).

(** The state the script runs in: the scene, the files (by absolute path),
    the working directory and what was printed. *)
Record world (F Scene : Type) := {
  scene : Scene;
  fs : gmap string (content F);
  cwd : string;
  log : list event
}.
Arguments scene {F Scene} _.
Arguments fs {F Scene} _.
Arguments cwd {F Scene} _.
Arguments log {F Scene} _.

(** *** The script's monad: state and exceptions

    A statement takes the world to a result and a world; after a [raise]
    the world is the one reached so far, as files written before a Python
    exception stay on disk. *)
Definition M (F Scene A : Type) : Type := world F Scene -> result A * world F Scene.

Section Pipeline.
Context {F : Type} `{Num F} {Scene : Type}.
Variable math : Math F.
Variable bpy : Bpy F Scene.
(** The network, as [urlretrieve] meets it for each URL. *)
Variable net : string -> fetch.

#[local] Abbreviation M := (M F Scene).
#[local] Abbreviation world := (world F Scene).

Definition ret {A} (a : A) : M A := fun w => (Ok a, w).
Definition raise {A} (e : exn) : M A := fun w => (Raise e, w).
Definition seq_bind {A B} (m : M A) (k : A -> M B) : M B :=
  fun w => match m w with
           | (Ok a, w') => k a w'
           | (Raise e, w') => (Raise e, w')
           end.

#[global] Instance M_ret : MRet M := fun A => ret.
#[global] Instance M_bind : MBind M := fun A B k m => seq_bind m k.

Definition set_scene (s : Scene) (w : world) : world :=
  {| scene := s; fs := fs w; cwd := cwd w; log := log w |}.
Definition set_fs (f : gmap string (content F)) (w : world) : world :=
  {| scene := scene w; fs := f; cwd := cwd w; log := log w |}.

(** A host step that cannot raise. *)
Definition host (f : Scene -> Scene) : M unit :=
  fun w => (Ok tt, set_scene (f (scene w)) w).

(** A host step that can raise; the scene is left as it was when it does,
    and the host's exception is a [HostError]. *)
Definition host_try (f : Scene -> outcome Scene) : M unit :=
  fun w => match f (scene w) with
           | Done s => (Ok tt, set_scene s w)
           | Failed msg => (Raise (HostError msg), w)
           end.

(** Reading the host's scene. *)
Definition get_scene : M Scene := fun w => (Ok (scene w), w).

(** [print(...)] *)
Definition print (ev : event) : M unit :=
  fun w => (Ok tt, {| scene := scene w; fs := fs w; cwd := cwd w; log := log w ++ [ev] |}).

(** The absolute path the operating system resolves [p] to. *)
Definition resolve (w : world) (p : string) : string := path_join (cwd w) p.

(** [os.path.abspath(p)] (for a path without [.] and [..] components) *)
Definition abspath (p : string) : M string :=
  fun w => (Ok (resolve w p), w).

(** [os.path.exists(p)] *)
Definition exists_ (p : string) : M bool :=
  fun w => (Ok (bool_decide (is_Some (fs w !! resolve w p))), w).

(** Writing a file at [p]: created, or replaced. *)
Definition write (p : string) (c : content F) : M unit :=
  fun w => (Ok tt, set_fs (<[resolve w p := c]> (fs w)) w).

(** [os.rename(src, dst)]: [dst] is replaced in one step. *)
Definition rename (src dst : string) : M unit :=
  fun w => match fs w !! resolve w src with
           | Some c => (Ok tt, set_fs (<[resolve w dst := c]> (delete (resolve w src) (fs w))) w)
           | None => (Raise (FileNotFoundError src), w)
           end.

(** [os.remove(p)] *)
Definition remove (p : string) : M unit :=
  fun w => match fs w !! resolve w p with
           | Some _ => (Ok tt, set_fs (delete (resolve w p) (fs w)) w)
           | None => (Raise (FileNotFoundError p), w)
           end.

(** [table[i]] *)
Definition index {A} (table : list A) (i : nat) : M A :=
  match table !! i with
  | Some a => ret a
  | None => raise IndexError
  end.

(** [for i in idxs: body(i)] *)
Fixpoint for_each (idxs : list nat) (body : nat -> M unit) : M unit :=
  match idxs with
  | [] => ret tt
  | i :: rest => _ ← body i; for_each rest body
  end.

(** [range(n)] *)
Definition range_n (n : Z) : list nat := seq 0 (Z.to_nat n).

(** *** The functions of the script *)

(** [reset_scene()] *)
Definition reset_scene : M unit :=
  _ ← host (remove_objects bpy);
  _ ← host (remove_materials bpy);
  _ ← host (remove_textures bpy);
  host (remove_images bpy).

(** [load_object(object_path)] *)
Definition load_object (object_path : string) : M unit :=
  if endswith object_path ".glb" then host_try (import_gltf bpy object_path)
  else if endswith object_path ".fbx" then host_try (import_fbx bpy object_path)
  else raise (ValueError ("Unsupported file type: " +:+ object_path)).

(** [normalize_scene()]: [scene_bbox()] raises when [scene_meshes()] yields
    nothing; the rest is arithmetic on the host's objects. *)
Definition normalize_scene : M unit :=
  fun w =>
    if Nat.eqb (mesh_count bpy (scene w)) 0
    then (Raise (RuntimeError "no objects in scene to compute bounding box for"), w)
    else host_try (rescale_recentre bpy) w.

(** [add_lighting()] *)
Definition add_lighting : M unit := host_try (relight bpy).

(** [setup_camera()]: returns the camera, with [lens = 35] and
    [sensor_width = 32]. *)
Definition setup_camera : M (camera F) :=
  _ ← host_try (rig_camera bpy 35 32);
  ret {| lens := of_int 35; sensor_width := of_int 32 |}.

(** [get_camera_position(azimuth, elevation, distance)] *)
Definition get_camera_position (azimuth elevation distance : F) : vec F :=
  let x := (distance * math_cos math azimuth * math_cos math elevation)%num in
  let y := (distance * math_sin math azimuth * math_cos math elevation)%num in
  let z := (distance * math_sin math elevation)%num in
  (x, y, z).

(** [f"{frame:04d}"], the suffix Blender's file-output node appends. *)
Definition fmt_04d (frame : nat) : string :=
  let s := str_of_nat frame in
  match len s with
  | 0%nat => "0000" +:+ s
  | 1%nat => "000" +:+ s
  | 2%nat => "00" +:+ s
  | 3%nat => "0" +:+ s
  | _ => s
  end.

(** [bpy.ops.render.render(write_still=True)] with the compositor of
    [setup_compositor_for_depth_and_mask]: one render writes the colour
    image at [scene.render.filepath] and, through the two file-output nodes
    with base path [views_dir], the depth and the mask image at the slot
    path followed by the frame number ("Blender adds frame numbers"). *)
Definition render_still (views_dir filepath depth_slot mask_slot : string) : M unit :=
  _ ← host_try (render bpy);
  s ← get_scene;
  let frame := fmt_04d (frame_current bpy s) in
  _ ← write filepath (Image Rgb);
  _ ← write (path_join views_dir (depth_slot +:+ frame +:+ ".png")) (Image Depth);
  write (path_join views_dir (mask_slot +:+ frame +:+ ".jpg")) (Image Mask).

(** The pixel-space intrinsics of [save_camera_parameters_mvd]:
    [(sensor_height, f_x, f_y, c_x, c_y)]. *)
Definition intrinsics (cam : camera F) : F * F * F * F * F :=
  let focal_length := lens cam in
  let sensor_width := sensor_width cam in
  let sensor_height := (sensor_width * (of_int resolution_y / of_int resolution_x))%num in
  let f_x := ((focal_length * of_int resolution_x) / sensor_width)%num in
  let f_y := ((focal_length * of_int resolution_y) / sensor_height)%num in
  let c_x := (of_int resolution_x / of_int 2)%num in
  let c_y := (of_int resolution_y / of_int 2)%num in
  (sensor_height, f_x, f_y, c_x, c_y).

Definition vec_list (v : vec F) : list F := let '(x, y, z) := v in [x; y; z].

(** One turn of the loop of [save_camera_parameters_mvd]: the record of
    view [i]. *)
Definition camera_record (camera_dist : F) (cam : camera F) (i : nat)
  : M (view_record F) :=
  azimuth ← index AZIMUTHS_16 i;
  elevation ← index ELEVATIONS_16 i;
  let cam_pos := get_camera_position azimuth elevation camera_dist in
  _ ← host (set_location bpy cam_pos);
  _ ← host (view_layer_update bpy);
  s ← get_scene;
  let translation := matrix_translation bpy s in
  let look_dir :=
    vsub bpy (matrix_apply bpy s (of_int 0, of_int 0, of_int (-1))) translation in
  let look_target := vadd bpy translation look_dir in
  let up_dir :=
    vsub bpy (matrix_apply bpy s (of_int 0, of_int 1, of_int 0)) translation in
  let '(sensor_height, f_x, f_y, c_x, c_y) := intrinsics cam in
  ret {| view_id := i;
         azimuth := azimuth;
         elevation := elevation;
         camera_distance := camera_dist;
         position := vec_list cam_pos;
         target := vec_list look_target;
         up := vec_list up_dir;
         focal_length := [f_x; f_y];
         principal_point := [c_x; c_y];
         image_size := [resolution_x; resolution_y];
         sensor_size := [sensor_width cam; sensor_height] |}.

(** The loop of [save_camera_parameters_mvd]: [camera_params], in order. *)
Fixpoint camera_records (camera_dist : F) (cam : camera F) (idxs : list nat)
  : M (list (view_record F)) :=
  match idxs with
  | [] => ret []
  | i :: rest =>
      r ← camera_record camera_dist cam i;
      rs ← camera_records camera_dist cam rest;
      ret (r :: rs)
  end.

(** [save_camera_parameters_mvd(views_dir, num_views, camera_dist, cam)] *)
Definition save_camera_parameters_mvd (views_dir : string) (num_views : Z)
    (camera_dist : F) (cam : camera F) : M unit :=
  camera_params ← camera_records camera_dist cam (range_n num_views);
  let camera_file := path_join views_dir "cameras.json" in
  _ ← write camera_file (CamerasJson camera_params);
  print (SavedCameraParameters num_views).

(** One turn of the rendering loop of [save_images], for view [i]. *)
Definition render_view (a : args F) (views_dir : string) (num_views : Z) (i : nat)
  : M unit :=
  azimuth ← index AZIMUTHS_16 i;
  elevation ← index ELEVATIONS_16 i;
  let cam_pos := get_camera_position azimuth elevation (camera_dist a) in
  _ ← host (set_location bpy cam_pos);
  let rgb_path := path_join views_dir (fmt_03d i +:+ "_rgb.jpg") in
  _ ← render_still views_dir rgb_path (fmt_03d i +:+ "_depth") (fmt_03d i +:+ "_mask");
  let depth_temp := path_join views_dir (fmt_03d i +:+ "_depth0001.png") in
  let depth_final := path_join views_dir (fmt_03d i +:+ "_depth.png") in
  let mask_temp := path_join views_dir (fmt_03d i +:+ "_mask0001.jpg") in
  let mask_final := path_join views_dir (fmt_03d i +:+ "_mask.jpg") in
  depth_there ← exists_ depth_temp;
  _ ← (if depth_there : bool then rename depth_temp depth_final else ret tt);
  mask_there ← exists_ mask_temp;
  _ ← (if mask_there : bool then rename mask_temp mask_final else ret tt);
  print (RenderedView i num_views).

(** [os.path.join(args.output_dir, object_uid, "views")] *)
Definition views_dir_of (output_dir object_uid : string) : string :=
  path_join (path_join output_dir object_uid) "views".

(** [save_images(object_file)].  The two [os.makedirs(..., exist_ok=True)]
    calls only create directories, which the map of files does not record. *)
Definition save_images (a : args F) (object_file : string) : M unit :=
  _ ← reset_scene;
  _ ← load_object object_file;
  let object_uid := split_first "." (basename object_file) in
  _ ← normalize_scene;
  _ ← add_lighting;
  cam ← setup_camera;
  _ ← host_try (track_empty bpy);
  let views_dir := views_dir_of (output_dir a) object_uid in
  _ ← host_try (wire_compositor bpy views_dir);
  let num_views := Z.min (num_images a) 16 in
  _ ← for_each (range_n num_views) (render_view a views_dir num_views);
  _ ← save_camera_parameters_mvd views_dir num_views (camera_dist a) cam;
  print (Completed object_uid num_views).

(** [urllib.request.urlretrieve(url, filename)] *)
Definition urlretrieve (url filename : string) : M unit :=
  match net url with
  | Fetched body => write filename (Asset body)
  | Broken (Some part) =>
      _ ← write filename (Asset part);
      raise (HostError "urlretrieve")
  | Broken None => raise (HostError "urlretrieve")
  end.

(** [download_object(object_url)] *)
Definition download_object (object_url : string) : M string :=
  let uid := split_first "." (split_last "/" object_url) in
  let tmp_local_path := path_join "tmp-objects" (uid +:+ ".glb.tmp") in
  let local_path := path_join "tmp-objects" (uid +:+ ".glb") in
  _ ← urlretrieve object_url tmp_local_path;
  _ ← rename tmp_local_path local_path;
  abspath local_path.

(** The body of the [try] of [__main__]. *)
Definition main_body (a : args F) : M unit :=
  local_path ← (if startswith (object_path a) "http"
                then download_object (object_path a)
                else ret (object_path a));
  _ ← save_images a local_path;
  _ ← print (Finished local_path);
  if startswith (object_path a) "http" then remove local_path else ret tt.

(** [try: body except Exception as e: handler(e)] *)
Definition try_except {A} (body : M A) (handler : exn -> M A) : M A :=
  fun w => match body w with
           | (Ok a, w') => (Ok a, w')
           | (Raise e, w') => handler e w'
           end.

(** [__main__] *)
Definition main (a : args F) : M unit :=
  try_except (main_body a)
    (fun e =>
       _ ← print (FailedToRender (object_path a));
       _ ← print (PrintedException e);
       print (Traceback e)).

End Pipeline.

(** *** The vocabulary of the properties *)

(** The absolute path of the file [name] of the views directory. *)
Definition view_key (cwd o u name : string) : string :=
  path_join cwd (views_dir_of o u) +:+ "/" +:+ name.

(** The suffix of each kind of image, in its final name. *)
Definition final_suffix (k : image_kind) : string :=
  match k with
  | Rgb => "_rgb.jpg"
  | Depth => "_depth.png"
  | Mask => "_mask.jpg"
  end.

(** The suffixes under which the file-output nodes first write. *)
Definition temp_suffixes : list string := ["_depth0001.png"; "_mask0001.jpg"].

Definition view_suffixes : list string :=
  ["_rgb.jpg"; "_depth.png"; "_mask.jpg"; "_depth0001.png"; "_mask0001.jpg"].

(** What one turn of the rendering loop does to the files: the three
    images are written, the depth and mask images under their temporary
    names, and these two are renamed. *)
Definition after_view {F} (key : string -> string) (i : nat)
    (f : gmap string (content F)) : gmap string (content F) :=
  let f1 := <[key (fmt_03d i +:+ "_rgb.jpg") := Image Rgb]> f in
  let f2 := <[key (fmt_03d i +:+ "_depth0001.png") := Image Depth]> f1 in
  let f3 := <[key (fmt_03d i +:+ "_mask0001.jpg") := Image Mask]> f2 in
  let f4 := <[key (fmt_03d i +:+ "_depth.png") := Image Depth]>
              (delete (key (fmt_03d i +:+ "_depth0001.png")) f3) in
  <[key (fmt_03d i +:+ "_mask.jpg") := Image Mask]>
    (delete (key (fmt_03d i +:+ "_mask0001.jpg")) f4).

(** The files after the rendering loop has run over [idxs]. *)
Definition after_views {F} (key : string -> string) (idxs : list nat)
    (f : gmap string (content F)) : gmap string (content F) :=
  foldl (fun f i => after_view key i f) f idxs.

(** The final names of the images of kind [k] of views [0..n-1]. *)
Definition image_files (key : string -> string) (n : nat) (k : image_kind) : list string :=
  map (fun i => key (fmt_03d i +:+ final_suffix k)) (seq 0 n).

(** Everything a run over [n] views leaves in the views directory. *)
Definition outputs (key : string -> string) (n : nat) : list string :=
  image_files key n Rgb ++ image_files key n Depth ++ image_files key n Mask
  ++ [key "cameras.json"].

(** The temporary names the file-output nodes write for views [0..n-1]. *)
Definition temp_files (key : string -> string) (n : nat) : list string :=
  map (fun i => key (fmt_03d i +:+ "_depth0001.png")) (seq 0 n)
  ++ map (fun i => key (fmt_03d i +:+ "_mask0001.jpg")) (seq 0 n).

(** The camera [setup_camera] returns. *)
Definition rig {F} `{Num F} : camera F := {| lens := of_int 35; sensor_width := of_int 32 |}.

(** The number of views a run renders: [min(args.num_images, 16)], none
    when that is negative. *)
Definition views_of {F} (a : args F) : nat := Z.to_nat (Z.min (num_images a) 16).

(** What every record of [camera_params] carries. *)
Definition record_ok {F} `{Num F} (math : Math F) (d : F) (cam : camera F)
    (r : view_record F) : Prop :=
  let '(sensor_height, f_x, f_y, c_x, c_y) := intrinsics cam in
  focal_length r = [f_x; f_y]
  /\ principal_point r = [c_x; c_y]
  /\ sensor_size r = [sensor_width cam; sensor_height]
  /\ image_size r = [resolution_x; resolution_y]
  /\ camera_distance r = d
  /\ exists az el,
       AZIMUTHS_16 !! view_id r = Some az
       /\ ELEVATIONS_16 !! view_id r = Some el
       /\ azimuth r = az /\ elevation r = el
       /\ position r = vec_list (get_camera_position math az el d).

(** A statement that leaves the working directory alone, whether it
    returns or raises ... *)
Definition steady {F Scene A} (m : M F Scene A) : Prop :=
  forall w r w1, m w = (r, w1) -> cwd w1 = cwd w.

(** ... and one that leaves the files alone as well. *)
Definition quiet {F Scene A} (m : M F Scene A) : Prop :=
  forall w r w1, m w = (r, w1) -> fs w1 = fs w /\ cwd w1 = cwd w.

(** A host none of whose steps raises, and whose scene has a mesh after
    every import. *)
Record reliable {F Scene} (bpy : Bpy F Scene) : Prop := {
  gltf_done : forall p s, exists s', import_gltf bpy p s = Done s';
  fbx_done : forall p s, exists s', import_fbx bpy p s = Done s';
  has_mesh : forall s, mesh_count bpy s <> 0%nat;
  rescale_done : forall s, exists s', rescale_recentre bpy s = Done s';
  relight_done : forall s, exists s', relight bpy s = Done s';
  rig_done : forall l sw s, exists s', rig_camera bpy l sw s = Done s';
  track_done : forall s, exists s', track_empty bpy s = Done s';
  wire_done : forall p s, exists s', wire_compositor bpy p s = Done s';
  render_done : forall s, exists s', render bpy s = Done s'
}.

(** A stand-in for [math] on binary64 with which the script can be run:
    the first terms of the power series. *)
Definition series_math : Math float := {|
  math_cos := fun x => (1 - x * x / 2 + x * x * x * x / 24)%float;
  math_sin := fun x => (x - x * x * x / 6 + x * x * x * x * x / 120)%float
|}.

(** A run of the script in an empty directory [/work], on the asset
    [cube.glb], asking for [n] images at the default distance 1.5. *)
Definition demo_args {F} `{Num F} (n : Z) : args F :=
  {| object_path := "cube.glb"; output_dir := "./views"; num_images := n;
     camera_dist := dyadic 3 1 |}.

Definition demo_world (F : Type) : world F unit :=
  {| scene := tt; fs := ∅; cwd := "/work"; log := [] |}.

Definition demo_host (F : Type) `{Num F} : Bpy F unit :=
  null_host F (of_int 0, of_int 0, of_int 0).

End Blender.

(** ** Further definitions

    The command lines of the two catalogue scripts, the bounding box of the
    scene, and the vocabulary of the further properties. *)

(** ** [scripts/download_objaverse.py]: the command line *)
Module BatcherMain.
Import Batcher.

(** [s.replace(old, new)] for a non-empty [old]: every occurrence of [old],
    found from the left and without overlap, becomes [new].  [skip] counts
    the characters of the occurrence just replaced that are still ahead. *)
Fixpoint replace_from (skip : nat) (s old new : string) : string :=
  match s with
  | EmptyString => EmptyString
  | String c s' =>
      match skip with
      | S k => replace_from k s' old new
      | O => if startswith s old then new +:+ replace_from (len old - 1) s' old new
             else String c (replace_from 0 s' old new)
      end
  end.

Definition replace (s old new : string) : string := replace_from 0 s old new.

(** The command line of the script. *)
Record args := {
  filtered_file : string;
  output_name : string;
  batch_size : Z;
  skip_completed : bool
}.

(** [main()]; [views] is what [./views] names, the default directory of
    [check_existing_renders]. *)
Definition main (object_paths : gmap string string) (views : option node)
    (a : args) (fs : files) : result (files * list event) :=
  '(fs1, printed1, filtered_file) ←
    (if skip_completed a then
       '(completed_uids, printed0) ← check_existing_renders "./views" views;
       match fs !! filtered_file a with
       | None => Raise (FileNotFoundError (filtered_file a))
       | Some filtered_uids =>
           let filtered_uids := filter (fun uid => uid ∉ completed_uids) filtered_uids in
           let updated_file := replace (filtered_file a) ".json" "_remaining.json" in
           Ok (<[updated_file := filtered_uids]> fs,
               printed0 ++ [FilteredRemaining (length filtered_uids) updated_file],
               updated_file)
       end
     else Ok (fs, [], filtered_file a));
  '(fs2, printed2, _) ←
    create_download_list object_paths filtered_file (output_name a) (batch_size a) fs1;
  Ok (fs2, printed1 ++ printed2).

(** Two rendered objects under [./views], one of them complete. *)
Definition demo_views : gmap string node :=
  let pngs := map (fun i => (fmt_03d i +:+ "_depth.png", File)) (seq 0 16) in
  {["a" := Dir (list_to_map (("cameras.json", File) :: pngs)); "b" := Dir (list_to_map pngs)]}.

Definition demo_args : args :=
  {| filtered_file := "uids.json"; output_name := "mvd"; batch_size := 2;
     skip_completed := true |}.

End BatcherMain.

(** ** [scripts/Discarded/simple_filter.py]: the command line *)
Module FilterMain.
Import Filter.

(** The line [main] prints; the progress lines of [simple_quality_filter]
    are not recorded. *)
Inductive event : Type :=
  | SavedFiltered (n : nat) (output_file : string).

Section Sample.
Variable sample : list string -> Z -> result (list string).

(** [main()]: the filter, then [json.dump] of its result to
    [args.output_file]. *)
Definition main (uids : list string) (object_paths : gmap string string)
    (sample_size : Z) (output_file : string) (fs : gmap string (list string))
  : result (gmap string (list string) * list event) :=
  filtered_uids ← simple_quality_filter sample uids object_paths sample_size;
  Ok (<[output_file := filtered_uids]> fs,
      [SavedFiltered (length filtered_uids) output_file]).

End Sample.

End FilterMain.

(** ** [scripts/blender_script.py]: the bounding box *)
Module SceneBox.
Import Blender.

(** What [scene_bbox] reads of an object of the scene.  The coordinates are
    the components of [mathutils] vectors as Python reads them, floats;
    [matrix_world] stands for [obj.matrix_world @ coord]. *)
Record object := {
  is_mesh : bool;
  bound_box : list (vec float);
  matrix_world : vec float -> vec float
}.

(** [min(x, y)] and [max(x, y)] on floats: the first argument unless the
    second is strictly smaller (larger). *)
Definition py_min (x y : float) : float := if (y <? x)%float then y else x.
Definition py_max (x y : float) : float := if (x <? y)%float then y else x.

(** [tuple(min(x, y) for x, y in zip(bbox_min, coord))], and the same for
    [max]. *)
Definition vmin (bbox_min coord : vec float) : vec float :=
  let '(x1, x2, x3) := bbox_min in
  let '(y1, y2, y3) := coord in
  (py_min x1 y1, py_min x2 y2, py_min x3 y3).

Definition vmax (bbox_max coord : vec float) : vec float :=
  let '(x1, x2, x3) := bbox_max in
  let '(y1, y2, y3) := coord in
  (py_max x1 y1, py_max x2 y2, py_max x3 y3).

(** The coordinates the inner loop sees for one object. *)
Definition corners (ignore_matrix : bool) (obj : object) : list (vec float) :=
  map (fun coord => if ignore_matrix then coord else matrix_world obj coord)
      (bound_box obj).

(** The inner loop, over the corners of one object. *)
Definition grow (box : vec float * vec float) (coords : list (vec float))
  : vec float * vec float :=
  foldl (fun '(bbox_min, bbox_max) coord => (vmin bbox_min coord, vmax bbox_max coord))
        box coords.

(** [scene_meshes()] *)
Definition scene_meshes (objects : list object) : list object :=
  filter (fun obj => is_mesh obj = true) objects.

(** [scene_bbox(single_obj, ignore_matrix)] on the objects of the scene:
    the two tuples that the function wraps in [Vector] and returns, or its
    [RuntimeError] when the loop found no object. *)
Definition scene_bbox (objects : list object) (single_obj : option object)
    (ignore_matrix : bool) : result (vec float * vec float) :=
  let bbox_min := (infinity, infinity, infinity) in
  let bbox_max := (neg_infinity, neg_infinity, neg_infinity) in
  let objs := match single_obj with
              | None => scene_meshes objects
              | Some obj => [obj]
              end in
  let '(box, found) :=
    foldl (fun '(box, _) obj => (grow box (corners ignore_matrix obj), true))
          ((bbox_min, bbox_max), false) objs in
  if found : bool then Ok box
  else Raise (RuntimeError "no objects in scene to compute bounding box for").

(** No coordinate of [coord] is below that of [bbox_min] or above that of
    [bbox_max], in the order of the floats. *)
Definition inside (coord bbox_min bbox_max : vec float) : Prop :=
  let '(c1, c2, c3) := coord in
  let '(l1, l2, l3) := bbox_min in
  let '(h1, h2, h3) := bbox_max in
  ((c1 <? l1) = false /\ (c2 <? l2) = false /\ (c3 <? l3) = false
   /\ (h1 <? c1) = false /\ (h2 <? c2) = false /\ (h3 <? c3) = false)%float.

(** The unit cube, moved by one along the first axis, and a camera. *)
Definition demo_cube : object :=
  {| is_mesh := true;
     bound_box := [(0, 0, 0); (0, 0, 1); (0, 1, 1); (0, 1, 0);
                   (1, 0, 0); (1, 0, 1); (1, 1, 1); (1, 1, 0)]%float;
     matrix_world := fun '(x, y, z) => (x + 1, y, z)%float |}.

Definition demo_camera : object :=
  {| is_mesh := false; bound_box := []; matrix_world := fun v => v |}.

End SceneBox.

(** ** [scripts/blender_script.py]: more vocabulary *)
Module BlenderMore.
Import Blender.

(** The names of the images [save_images] writes for a view, final or
    temporary: the three digits of a view below 16, then anything that ends
    in [.jpg] or [.png]. *)
Definition view_image (name : string) : Prop :=
  exists i rest, (i < 16)%nat /\ name = fmt_03d i +:+ rest
    /\ (endswith rest ".jpg" = true \/ endswith rest ".png" = true).

(** The names [save_images] gives to files of the views directory. *)
Definition view_output (name : string) : Prop :=
  name = "cameras.json"%string \/ view_image name.

(** The exceptions [save_images] can raise on [object_file]. *)
Definition save_images_error (object_file : string) (e : exn) : Prop :=
  e = ValueError ("Unsupported file type: " +:+ object_file)
  \/ e = RuntimeError "no objects in scene to compute bounding box for"
  \/ exists msg, e = HostError msg.

(** A statement that, run in the working directory [c], keeps to it and
    changes no file outside [P], whether it returns or raises. *)
Definition confined {F Scene A} (c : string) (P : string -> Prop) (m : M F Scene A) : Prop :=
  forall w r w1, cwd w = c -> m w = (r, w1) ->
    cwd w1 = c /\ forall p, ~ P p -> fs w1 !! p = fs w !! p.

(** A statement that changes neither the files, nor the working directory,
    nor what was printed. *)
Definition still {F Scene A} (m : M F Scene A) : Prop :=
  forall w r w1, m w = (r, w1) -> fs w1 = fs w /\ cwd w1 = cwd w /\ log w1 = log w.

(** The world after [if os.path.exists(src): os.rename(src, dst)]. *)
Definition guarded_rename {F Scene} (src dst : string) (w : world F Scene) : world F Scene :=
  match fs w !! resolve w src with
  | Some x => set_fs (<[resolve w dst := x]> (delete (resolve w src) (fs w))) w
  | None => w
  end.


(** A host on which every step succeeds but no import brings a mesh. *)
Definition hollow_host (F : Type) (origin : vec F) : Bpy F unit := {|
  remove_objects := fun s => s;
  remove_materials := fun s => s;
  remove_textures := fun s => s;
  remove_images := fun s => s;
  import_gltf := fun _ s => Done s;
  import_fbx := fun _ s => Done s;
  mesh_count := fun _ => 0%nat;
  rescale_recentre := fun s => Done s;
  relight := fun s => Done s;
  rig_camera := fun _ _ s => Done s;
  track_empty := fun s => Done s;
  wire_compositor := fun _ s => Done s;
  set_location := fun _ s => s;
  render := fun s => Done s;
  frame_current := fun _ => 1%nat;
  view_layer_update := fun s => s;
  matrix_apply := fun _ v => v;
  matrix_translation := fun _ => origin;
  vadd := fun u _ => u;
  vsub := fun u _ => u
|}.

(** A directory that holds the asset [cube.glb]. *)
Definition local_world (F : Type) : world F unit :=
  {| scene := tt; fs := {["/work/cube.glb" := Asset "glTF"]}; cwd := "/work"; log := [] |}.


(** A network on which every URL answers with the same body. *)
Definition demo_net : string -> fetch := fun _ => Fetched "glTF".

Definition demo_url : string :=
  "https://huggingface.co/datasets/allenai/objaverse/resolve/main/glbs/000-001/cube.glb".

(** The command line for rendering [demo_url]. *)
Definition http_args {F} `{Num F} : args F :=
  {| object_path := demo_url; output_dir := "./views"; num_images := 64;
     camera_dist := dyadic 3 1 |}.

End BlenderMore.

(* ===================================================================== *)
(** * Part II: the properties                                             *)
(* ===================================================================== *)

(** ** Strings and paths *)
Section PyFacts.

Lemma str_of_Z_inj (a b : Z) : str_of_Z a = str_of_Z b -> a = b.
Proof.
  unfold str_of_Z. intros E.
  apply DecimalZ.to_int_inj.
  assert (N : forall z, Z.to_int z <> Decimal.Pos Decimal.Nil /\ Z.to_int z <> Decimal.Neg Decimal.Nil).
  { intros [|p|p]; simpl; split; try discriminate; intros [= E'];
      apply (DecimalPos.Unsigned.to_uint_nonnil p); exact E'. }
  pose proof (NilZero.isi (Z.to_int a) (proj1 (N a)) (proj2 (N a))) as Ha.
  pose proof (NilZero.isi (Z.to_int b) (proj1 (N b)) (proj2 (N b))) as Hb.
  rewrite E in Ha. rewrite Ha in Hb. now injection Hb.
Qed.

Lemma append_cons (x : ascii) (a b : string) : String x a +:+ b = String x (a +:+ b).
Proof. reflexivity. Qed.

Lemma append_nil_l (b : string) : "" +:+ b = b.
Proof. reflexivity. Qed.

Lemma append_assoc (a b c : string) : (a +:+ b) +:+ c = a +:+ (b +:+ c).
Proof.
  induction a as [|x a IH]; [reflexivity|].
  rewrite !append_cons. f_equal. exact IH.
Qed.

Lemma len_append (a b : string) : len (a +:+ b) = (len a + len b)%nat.
Proof.
  unfold len. induction a as [|x a IH]; [reflexivity|].
  rewrite append_cons. simpl. f_equal. exact IH.
Qed.

(** Two strings with a common tail have equal heads. *)
Lemma append_inv_tail (a b c : string) : a +:+ c = b +:+ c -> a = b.
Proof.
  revert b. induction a as [|x a IH]; intros [|y b] E.
  - reflexivity.
  - exfalso. apply (f_equal len) in E.
    rewrite !len_append in E. unfold len in E. simpl in E. lia.
  - exfalso. apply (f_equal len) in E.
    rewrite !len_append in E. unfold len in E. simpl in E. lia.
  - rewrite !append_cons in E. injection E as -> E. f_equal. now apply IH.
Qed.

(** Heads of the same length split an equation between two appends. *)
Lemma append_eq_len (a b x y : string) :
  len a = len b -> a +:+ x = b +:+ y -> a = b /\ x = y.
Proof.
  revert b. induction a as [|c a IH]; intros [|d b] L E; try discriminate L.
  - auto.
  - rewrite !append_cons in E. injection E as -> E.
    destruct (IH b) as [-> ->]; [now injection L | exact E | auto].
Qed.

Lemma drop_chars_append (a b : string) : drop_chars (len a) (a +:+ b) = b.
Proof. induction a as [|x a IH]; [reflexivity | exact IH]. Qed.

(** [endswith] looks at the tail only. *)
Lemma endswith_append (a b suf : string) :
  (len suf <= len b)%nat -> endswith (a +:+ b) suf = endswith b suf.
Proof.
  intros L. unfold endswith. rewrite len_append.
  replace (len suf <=? len a + len b)%nat with true by (symmetry; apply Nat.leb_le; lia).
  replace (len suf <=? len b)%nat with true by (symmetry; apply Nat.leb_le; lia).
  simpl. f_equal.
  replace (len a + len b - len suf)%nat with (len a + (len b - len suf))%nat by lia.
  clear L. induction a as [|x a IH]; [reflexivity | exact IH].
Qed.

Lemma endswith_spec (s suf : string) :
  endswith s suf = true <-> exists pre, s = pre +:+ suf.
Proof.
  unfold endswith. rewrite andb_true_iff, Nat.leb_le, String.eqb_eq. split.
  - intros [L E].
    assert (G : forall n s, (n <= len s)%nat ->
                  exists pre, s = pre +:+ drop_chars n s /\ len pre = n).
    { clear. induction n as [|n IH]; intros s L.
      - exists ""%string. now split.
      - destruct s as [|c s]; [simpl in L; lia|].
        destruct (IH s) as [pre [E P]]; [unfold len in *; simpl in L; lia|].
        exists (String c pre). rewrite append_cons. simpl.
        split; [f_equal; exact E | unfold len in *; simpl; lia]. }
    destruct (G (len s - len suf)%nat s) as [pre [E' _]]; [lia|].
    exists pre. now rewrite E in E'.
  - intros [pre ->]. rewrite len_append. split; [lia|].
    replace (len pre + len suf - len suf)%nat with (len pre) by lia.
    apply drop_chars_append.
Qed.

Lemma startswith_append (a b : string) : startswith (a +:+ b) a = true.
Proof.
  induction a as [|x a IH]; [reflexivity|].
  rewrite append_cons. simpl. now rewrite Ascii.eqb_refl.
Qed.

Lemma startswith_spec (s p : string) :
  startswith s p = true <-> exists post, s = p +:+ post.
Proof.
  split.
  - revert s. induction p as [|c p IH]; intros s E.
    + now exists s.
    + destruct s as [|d s]; simpl in E; [discriminate|].
      destruct (Ascii.eqb_spec c d) as [->|]; [|discriminate].
      destruct (IH _ E) as [post ->]. now exists post.
  - intros [post ->]. apply startswith_append.
Qed.

(** [sub in s]: there is text before and after an occurrence of [sub]. *)
Lemma contains_spec (s sub : string) :
  contains s sub = true <-> exists pre post, s = pre +:+ sub +:+ post.
Proof.
  split.
  - induction s as [|c s IH]; simpl; rewrite orb_true_iff.
    + intros [E|E]; [|discriminate].
      apply startswith_spec in E as [post E]. now exists ""%string, post.
    + intros [E|E].
      * apply startswith_spec in E as [post E]. now exists ""%string, post.
      * destruct (IH E) as (pre & post & ->). now exists (String c pre), post.
  - intros (pre & post & ->). induction pre as [|c pre IH].
    + rewrite append_nil_l.
      assert (S : startswith (sub +:+ post) sub = true) by apply startswith_append.
      destruct (sub +:+ post); simpl; rewrite S; reflexivity.
    + rewrite append_cons. simpl. apply orb_true_iff. right. exact IH.
Qed.

Lemma startswith_append_nonempty (a x p : string) :
  a <> ""%string -> len p = 1%nat -> startswith (a +:+ x) p = startswith a p.
Proof.
  intros Ha Hp. destruct a as [|c a]; [now destruct Ha|].
  destruct p as [|d [|]]; try discriminate Hp.
  rewrite append_cons. simpl. reflexivity.
Qed.

(** Joining onto a longer relative path only lengthens the result. *)
Lemma path_join_prefix (c vd x : string) :
  vd <> ""%string -> path_join c (vd +:+ x) = path_join c vd +:+ x.
Proof.
  intros Hvd. unfold path_join.
  rewrite startswith_append_nonempty by (auto || reflexivity).
  destruct (startswith vd "/"); [reflexivity|].
  destruct (String.eqb c "" || endswith c "/"); now rewrite ?append_assoc.
Qed.

End PyFacts.

(** The string functions on the inputs the scripts meet. *)
Example string_examples :
  map fmt_03d [0; 7; 15]%nat = ["000"; "007"; "015"]
  /\ str_of_Z 12 = "12"%string
  /\ split_first "." (split_last "/" "https://host/glbs/000-001/abc.glb") = "abc"%string
  /\ split_first "." (basename "/data/cube.v2.glb") = "cube"%string
  /\ lower "Glbs/LowPoly_Cube.GLB" = "glbs/lowpoly_cube.glb"%string
  /\ contains "glbs/lowpoly_cube.glb" "cube" = true
  /\ endswith "model.GLB" ".glb" = false
  /\ path_join (path_join "./views" "abc") "views" = "./views/abc/views"%string
  /\ path_join "/work" "/tmp/x.glb" = "/tmp/x.glb"%string
  /\ path_join "out/" "x" = "out/x"%string.
Proof. repeat split; reflexivity. Qed.

(** [range] and slices. *)
Example range_examples :
  range 0 7 3 = Ok [0; 3; 6]
  /\ range 0 6 3 = Ok [0; 3]
  /\ range 0 0 3 = Ok []
  /\ range 0 5 (-1) = Ok []
  /\ is_ok (range 0 5 0) = false
  /\ slice [1; 2; 3; 4; 5] 3 6 = [4; 5].
Proof. repeat split; reflexivity. Qed.

(** ** The URL resolver / batcher *)
Section BatcherFacts.
Import Batcher.

(** [range(0, n, B)] for a positive step: the multiples of [B] below [n]. *)
Lemma range_len_pos (n B : Z) :
  0 <= n -> 0 < B -> range_len 0 n B = (n + B - 1) / B.
Proof.
  intros Hn HB. unfold range_len.
  destruct (Z.ltb_spec 0 B); [|lia].
  destruct (Z.ltb_spec 0 n).
  - replace (n + B - 1) with (n - 0 - 1 + 1 * B) by lia.
    rewrite Z.div_add by lia. lia.
  - assert (n = 0) as -> by lia. rewrite Z.div_small; lia.
Qed.

Lemma range_pos (n : nat) (B : Z) :
  0 < B ->
  range 0 (Z.of_nat n) B = Ok (map (fun k => Z.of_nat k * B) (seq 0 (batch_count n B))).
Proof.
  intros HB. unfold range.
  destruct (Z.eqb_spec B 0); [lia|].
  rewrite range_len_pos by lia. reflexivity.
Qed.

Lemma batch_count_spec (n : nat) (B : Z) :
  0 < B ->
  (Z.of_nat (batch_count n B) - 1) * B < Z.of_nat n <= Z.of_nat (batch_count n B) * B.
Proof.
  intros HB. unfold batch_count.
  assert (0 <= (Z.of_nat n + B - 1) / B) by (apply Z.div_pos; lia).
  rewrite Z2Nat.id by lia.
  pose proof (Z.div_mod (Z.of_nat n + B - 1) B ltac:(lia)).
  pose proof (Z.mod_pos_bound (Z.of_nat n + B - 1) B HB).
  nia.
Qed.

Lemma slice_nat {A} (l : list A) (k : nat) (B : Z) :
  0 < B ->
  slice l (Z.of_nat k * B) (Z.of_nat k * B + B)
  = drop (k * Z.to_nat B) (take (k * Z.to_nat B + Z.to_nat B) l).
Proof.
  intros HB. unfold slice. f_equal; [|f_equal]; nia.
Qed.

(** Consecutive slices of width [b] put back together give a prefix. *)
Lemma concat_slices {A} (l : list A) (b c : nat) :
  concat (map (fun k => drop (k * b) (take (k * b + b) l)) (seq 0 c)) = take (c * b) l.
Proof.
  induction c as [|c IH].
  - reflexivity.
  - rewrite seq_S, map_app, concat_app, IH. simpl. rewrite app_nil_r.
    replace (b + c * b)%nat with (c * b + b)%nat by lia.
    rewrite <- (take_drop (c * b) (take (c * b + b) l)) at 2.
    rewrite take_take. f_equal. f_equal. lia.
Qed.

Lemma batch_file_inj (o : string) (j k : Z) :
  batch_file o j = batch_file o k -> j = k.
Proof.
  unfold batch_file. intros E.
  do 3 apply String.app_inj in E.
  apply append_inv_tail in E. now apply str_of_Z_inj.
Qed.

Lemma all_file_not_batch (o : string) (k : Z) : all_file o <> batch_file o k.
Proof.
  unfold all_file, batch_file. intros E.
  do 2 apply String.app_inj in E. discriminate E.
Qed.

Lemma write_all_cons w ws (fs : files) :
  write_all (w :: ws) fs = write_all ws (<[w.1 := w.2]> fs).
Proof. reflexivity. Qed.

Lemma write_all_other ws (fs : files) (name : string) :
  name ∉ map fst ws -> write_all ws fs !! name = fs !! name.
Proof.
  revert fs. induction ws as [|w ws IH]; intros fs Hn; [reflexivity|].
  rewrite write_all_cons, IH by set_solver.
  apply lookup_insert_ne. set_solver.
Qed.

Lemma write_all_lookup ws (fs : files) (k : nat) name c :
  NoDup (map fst ws) -> ws !! k = Some (name, c) -> write_all ws fs !! name = Some c.
Proof.
  revert fs k. induction ws as [|w ws IH]; intros fs k Hnd Hk; [done|].
  rewrite write_all_cons. simpl in Hnd. apply NoDup_cons in Hnd as [Hw Hnd].
  destruct k as [|k]; simpl in Hk.
  - injection Hk as ->. rewrite write_all_other by exact Hw.
    apply lookup_insert_eq.
  - eapply IH; eauto.
Qed.

Lemma write_all_dom ws (fs : files) :
  dom (write_all ws fs) = dom fs ∪ list_to_set (map fst ws).
Proof.
  revert fs. induction ws as [|w ws IH]; intros fs.
  - simpl. set_solver.
  - rewrite write_all_cons, IH, dom_insert_L. simpl. set_solver.
Qed.

Lemma batch_writes_pos (urls : list string) (o : string) (B : Z) :
  0 < B ->
  batch_writes urls o B
  = Ok (imap (fun k b => (batch_file o (Z.of_nat k), b)) (batches_of urls B)).
Proof.
  intros HB. unfold batch_writes. rewrite range_pos by exact HB.
  change (Ok ?x ≫= ?f) with (f x). cbv beta. f_equal.
  unfold batches_of. rewrite map_map, imap_fmap.
  generalize (batch_count (length urls) B). intros c.
  assert (G : forall s, map (fun k => batch_write urls o B (Z.of_nat k * B)) (seq s c)
        = imap (fun n k => (batch_file o (Z.of_nat (s + n)),
                            slice urls (Z.of_nat k * B) (Z.of_nat k * B + B))) (seq s c)).
  { induction c as [|c IH]; intros s; [reflexivity|].
    simpl. f_equal.
    - unfold batch_write. f_equal. f_equal. rewrite Z.div_mul by lia. f_equal. lia.
    - rewrite IH. apply imap_ext. intros n k _. simpl. do 3 f_equal. lia. }
  rewrite G. apply imap_ext. intros n k Hk. simpl. reflexivity.
Qed.

Lemma batches_concat (urls : list string) (B : Z) :
  0 < B -> concat (batches_of urls B) = urls.
Proof.
  intros HB. unfold batches_of.
  rewrite (map_ext _ (fun k => drop (k * Z.to_nat B)
                                 (take (k * Z.to_nat B + Z.to_nat B) urls)))
    by (intros k; apply slice_nat, HB).
  rewrite concat_slices. apply take_ge.
  pose proof (batch_count_spec (length urls) B HB). nia.
Qed.

Lemma batches_length (urls : list string) (B : Z) (k : nat) (b : list string) :
  0 < B -> batches_of urls B !! k = Some b ->
  Z.of_nat (length b) = Z.min B (Z.of_nat (length urls) - Z.of_nat k * B)
  /\ 0 < Z.of_nat (length b).
Proof.
  intros HB Hk. unfold batches_of in Hk.
  apply list_lookup_fmap_Some in Hk as (j & Hb & Hj). subst b.
  apply lookup_seq in Hj as [-> Hlt]. simpl in Hlt.
  rewrite slice_nat by exact HB.
  rewrite length_drop, length_take.
  pose proof (batch_count_spec (length urls) B HB). nia.
Qed.

Lemma demo_files_uids : demo_files !! "uids.json" = Some ["a"; "b"; "zz"; "c"].
Proof. apply lookup_singleton_eq. Qed.

(** C2: for a positive batch size, [create_download_list] returns, the
    batch files hold consecutive slices of the resolved URL list (batch
    [k] the slice from [k*B] to [k*B + B]), their concatenation in batch
    order is the whole list, which is also the content of the [_all] file,
    no batch is longer than [B], and every batch but the last has exactly
    [B] URLs. *)
Theorem batch_partition (object_paths : gmap string string) (fs : files)
    (filtered_uids_file output_file : string) (B : Z) (filtered_uids : list string) :
  0 < B ->
  fs !! filtered_uids_file = Some filtered_uids ->
  exists fs' printed urls batches,
    create_download_list object_paths filtered_uids_file output_file B fs
      = Ok (fs', printed, urls)
    /\ urls = (resolve_urls object_paths filtered_uids).1
    /\ fs' !! all_file output_file = Some urls
    /\ (forall (k : nat) b, batches !! k = Some b ->
          fs' !! batch_file output_file (Z.of_nat k) = Some b
          /\ b = slice urls (Z.of_nat k * B) (Z.of_nat k * B + B))
    /\ concat batches = urls
    /\ (forall (k : nat) b, batches !! k = Some b -> Z.of_nat (length b) <= B)
    /\ (forall (k : nat) b, batches !! k = Some b -> (S k < length batches)%nat ->
          Z.of_nat (length b) = B).
Proof.
  intros HB Hf. unfold create_download_list. rewrite Hf.
  destruct (resolve_urls object_paths filtered_uids) as [urls missing] eqn:Hr.
  rewrite batch_writes_pos by exact HB.
  unfold batch_events. rewrite range_pos by exact HB.
  change (Ok ?x ≫= ?f) with (f x). cbv beta.
  change (Ok ?x ≫= ?f) with (f x). cbv beta.
  eexists _, _, urls, (batches_of urls B).
  split; [reflexivity|]. split; [reflexivity|].
  split; [apply lookup_insert_eq|].
  assert (Hnd : NoDup (map fst (imap (fun (k : nat) b => (batch_file output_file (Z.of_nat k), b))
                                      (batches_of urls B)))).
  { apply NoDup_alt. intros i j x Hi Hj.
    apply list_lookup_fmap_Some in Hi as ([n1 b1] & -> & Hi).
    apply list_lookup_fmap_Some in Hj as ([n2 b2] & Hx & Hj).
    apply list_lookup_imap_Some in Hi as (b1' & Hi & [= -> ->]).
    apply list_lookup_imap_Some in Hj as (b2' & Hj & [= -> ->]).
    simpl in Hx. apply batch_file_inj in Hx. lia. }
  split; [|split; [|split]].
  - intros k b Hk. split.
    + rewrite lookup_insert_ne by apply all_file_not_batch.
      eapply write_all_lookup with (k := k); [exact Hnd|].
      rewrite list_lookup_imap, Hk. reflexivity.
    + unfold batches_of in Hk.
      apply list_lookup_fmap_Some in Hk as (j & -> & Hj).
      apply lookup_seq in Hj as [-> _]. reflexivity.
  - apply batches_concat, HB.
  - intros k b Hk. destruct (batches_length urls B k b HB Hk). lia.
  - intros k b Hk Hlt. destruct (batches_length urls B k b HB Hk) as [E _].
    rewrite E. apply Z.min_l.
    unfold batches_of in Hlt. rewrite length_map, length_seq in Hlt.
    pose proof (batch_count_spec (length urls) B HB). nia.
Qed.


(** Witness of C2: three of four UIDs resolve, batch size 2. *)
Lemma batch_partition_witness :
  exists fs' printed urls batches,
    create_download_list demo_paths "uids.json" "mvd" 2 demo_files
    = Ok (fs', printed, urls)
    /\ length urls = 3%nat
    /\ concat batches = urls
    /\ (forall (k : nat) b, batches !! k = Some b -> Z.of_nat (length b) <= 2).
Proof.
  destruct (batch_partition demo_paths demo_files "uids.json" "mvd" 2
              ["a"; "b"; "zz"; "c"] ltac:(lia) demo_files_uids)
    as (fs' & printed & urls & batches & Hrun & Hurls & _ & _ & Hcat & Hle & _).
  exists fs', printed, urls, batches. split; [exact Hrun|].
  split; [rewrite Hurls; reflexivity|]. split; [exact Hcat | exact Hle].
Defined.

(** C10: for a positive batch size the batching loop writes exactly
    [ceil(n / B)] files (none for an empty URL list), the file written at
    loop index [i] is named with [i // B], these indices are [0, 1, ...] and
    the names are pairwise distinct; the figure of the summary line is
    [n // B + 1], one more than the number of files when [B] divides [n]. *)
Theorem batch_file_count (object_paths : gmap string string) (fs : files)
    (filtered_uids_file output_file : string) (B : Z) (filtered_uids : list string) :
  0 < B ->
  fs !! filtered_uids_file = Some filtered_uids ->
  exists fs' printed urls idxs ws,
    create_download_list object_paths filtered_uids_file output_file B fs
      = Ok (fs', printed, urls)
    /\ range 0 (Z.of_nat (length urls)) B = Ok idxs
    /\ batch_writes urls output_file B = Ok ws
    /\ Z.of_nat (length ws) = (Z.of_nat (length urls) + B - 1) / B
    /\ (length urls = 0%nat -> ws = [])
    /\ map fst ws = map (fun i => batch_file output_file (i / B)) idxs
    /\ map (fun i => i / B) idxs = map Z.of_nat (seq 0 (length ws))
    /\ NoDup (map fst ws)
    /\ dom fs' = (dom fs ∪ list_to_set (map fst ws)) ∪ {[all_file output_file]}
    /\ (all_file output_file ∉ map fst ws)
    /\ last printed = Some (CreatedBatchFiles (Z.of_nat (length urls) / B + 1))
    /\ (Z.of_nat (length urls) mod B = 0 ->
          Z.of_nat (length urls) / B + 1 = Z.of_nat (length ws) + 1).
Proof.
  intros HB Hf. unfold create_download_list. rewrite Hf.
  destruct (resolve_urls object_paths filtered_uids) as [urls missing] eqn:Hr.
  unfold batch_events, batch_writes. rewrite range_pos by exact HB.
  change (Ok ?x ≫= ?f) with (f x). cbv beta.
  change (Ok ?x ≫= ?f) with (f x). cbv beta.
  set (c := batch_count (length urls) B).
  set (idxs := map (fun k : nat => Z.of_nat k * B) (seq 0 c)).
  assert (Hc : Z.of_nat c = (Z.of_nat (length urls) + B - 1) / B).
  { unfold c, batch_count. apply Z2Nat.id, Z.div_pos; lia. }
  assert (Hq : map (fun i => i / B) idxs = map Z.of_nat (seq 0 c)).
  { unfold idxs. rewrite map_map. apply map_ext. intros k. apply Z.div_mul. lia. }
  assert (Hnames : map fst (map (batch_write urls output_file B) idxs)
                   = map (fun i => batch_file output_file (i / B)) idxs).
  { rewrite map_map. reflexivity. }
  assert (Hlen : length (map (batch_write urls output_file B) idxs) = c).
  { unfold idxs. now rewrite !length_map, length_seq. }
  eexists _, _, urls, idxs, (map (batch_write urls output_file B) idxs).
  split; [reflexivity|].
  split; [apply range_pos, HB|].
  split; [rewrite range_pos by exact HB; reflexivity|].
  split; [rewrite Hlen; exact Hc|].
  split.
  { intros Hz. assert (c = 0%nat) as Hc0.
    { rewrite Hz in Hc. simpl in Hc. rewrite Z.div_small in Hc by lia. lia. }
    unfold idxs. rewrite Hc0. reflexivity. }
  split; [exact Hnames|]. split; [rewrite Hlen; exact Hq|].
  split.
  { rewrite Hnames, <- (map_map (fun i => i / B) (batch_file output_file)), Hq.
    assert (Inj (=) (=) (batch_file output_file))
      by (intros j k E; exact (batch_file_inj _ _ _ E)).
    apply (NoDup_fmap_2 (batch_file output_file)).
    apply (NoDup_fmap_2 Z.of_nat), NoDup_seq. }
  split.
  { rewrite dom_insert_L, write_all_dom. apply (comm_L (∪)). }
  split.
  { rewrite Hnames. intros Hin. apply list_elem_of_fmap in Hin as (i & E & _).
    now apply all_file_not_batch in E. }
  split.
  { rewrite app_assoc. apply last_snoc. }
  intros Hm. rewrite Hlen, Hc.
  apply Z.div_exact in Hm; [|lia].
  f_equal. set (q := Z.of_nat (length urls) / B) in *.
  apply Z.div_unique with (r := B - 1); lia.
Qed.

(** Witness of C10: three URLs in batches of two make two files. *)
Lemma batch_file_count_witness :
  exists fs' printed urls ws,
    create_download_list demo_paths "uids.json" "mvd" 2 demo_files
    = Ok (fs', printed, urls)
    /\ batch_writes urls "mvd" 2 = Ok ws
    /\ length urls = 3%nat
    /\ length ws = 2%nat
    /\ map fst ws = ["download_batches/mvd_batch_0.json"; "download_batches/mvd_batch_1.json"].
Proof.
  destruct (batch_file_count demo_paths demo_files "uids.json" "mvd" 2
              ["a"; "b"; "zz"; "c"] ltac:(lia) demo_files_uids)
    as (fs' & printed & urls & idxs & ws & Hrun & Hidx & Hws & Hlen & _ & Hnames & Hq & _).
  exists fs', printed, urls, ws. split; [exact Hrun|]. split; [exact Hws|].
  assert (Hu : length urls = 3%nat).
  { unfold create_download_list in Hrun. rewrite demo_files_uids in Hrun.
    change (resolve_urls demo_paths ["a"; "b"; "zz"; "c"])
      with ([base_url +:+ "glbs/000-001/a.glb"; base_url +:+ "glbs/000-001/b.glb";
             base_url +:+ "glbs/000-002/c.glb"], 1%nat) in Hrun.
    cbv iota beta in Hrun.
    destruct (batch_writes _ "mvd" 2) as [ws'|]; [|discriminate Hrun].
    destruct (batch_events _ 2) as [evs|]; [|discriminate Hrun].
    injection Hrun as _ _ <-. reflexivity. }
  split; [exact Hu|].
  rewrite Hu in Hlen. change ((Z.of_nat 3 + 2 - 1) / 2) with 2 in Hlen.
  assert (Hl : length ws = 2%nat) by lia.
  split; [exact Hl|].
  rewrite Hl in Hq. rewrite Hnames, <- (map_map (fun i => i / 2) (batch_file "mvd")), Hq.
  reflexivity.
Defined.

End BatcherFacts.

(** ** The render-completion scanner *)
Section ScannerFacts.
Import Batcher.

Lemma png_files_spec (entries : gmap string node) (f : string) :
  f ∈ png_files entries <-> is_Some (entries !! f) /\ exists stem, f = stem +:+ ".png".
Proof.
  unfold png_files. rewrite list_elem_of_filter, elem_of_elements, elem_of_dom.
  rewrite endswith_spec. tauto.
Qed.

Lemma png_files_NoDup (entries : gmap string node) : NoDup (png_files entries).
Proof. apply NoDup_filter, NoDup_elements. Qed.

Lemma is_complete_spec (n : node) :
  is_complete n = true
  <-> exists entries, n = Dir entries
        /\ (16 <= length (png_files entries))%nat
        /\ is_Some (entries !! "cameras.json").
Proof.
  destruct n as [|entries]; unfold is_complete.
  - split; [discriminate | intros (? & ? & _); discriminate].
  - rewrite andb_true_iff, Nat.leb_le, bool_decide_eq_true. split.
    + intros [? ?]. eauto.
    + intros (? & [= <-] & ? & ?). eauto.
Qed.

Lemma scan_spec (items : gmap string node) (names : list string) (item : string) :
  item ∈ scan items names
  <-> item ∈ names /\ exists n, items !! item = Some n /\ is_complete n = true.
Proof.
  unfold scan.
  assert (G : forall acc : gset string,
    item ∈ foldl (fun completed_uids item =>
           match items !! item with
           | Some n => if is_complete n then completed_uids ∪ {[item]} else completed_uids
           | None => completed_uids
           end) acc names
    <-> item ∈ acc \/ (item ∈ names /\ exists n, items !! item = Some n /\ is_complete n = true)).
  { induction names as [|x names IH]; intros acc; simpl.
    - set_solver.
    - rewrite IH. destruct (items !! x) as [n|] eqn:Hx.
      + destruct (is_complete n) eqn:Hc.
        * rewrite elem_of_union, elem_of_singleton, elem_of_cons. split.
          -- intros [[?| ->]|[? ?]]; eauto 8.
          -- intros [?|[[->|?] ?]]; eauto.
        * rewrite elem_of_cons. split.
          -- intros [?|[? ?]]; eauto.
          -- intros [?|[[->|?] (n' & E & C)]]; eauto. congruence.
      + rewrite elem_of_cons. split.
        * intros [?|[? ?]]; eauto.
        * intros [?|[[->|?] (n' & E & C)]]; eauto. congruence. }
  rewrite G. set_solver.
Qed.

(** C5: the scanner reports an entry of the output directory complete
    exactly when it is a directory that lists at least 16 names ending in
    [.png] and in which [cameras.json] exists; so a directory with exactly
    16 such names and a [cameras.json] is complete, and one with fewer, or
    without [cameras.json], is not.  The [.png] names are counted without
    repetition. *)
Theorem completion_predicate (output_dir : string) (items : gmap string node) :
  exists completed printed,
    check_existing_renders output_dir (Some (Dir items)) = Ok (completed, printed)
    /\ (forall item : string,
          item ∈ completed
          <-> exists entries,
                items !! item = Some (Dir entries)
                /\ (16 <= length (png_files entries))%nat
                /\ is_Some (entries !! "cameras.json"))
    /\ (forall (item : string) entries,
          items !! item = Some (Dir entries) ->
          NoDup (png_files entries)
          /\ (forall f, f ∈ png_files entries
                <-> is_Some (entries !! f) /\ exists stem, f = stem +:+ ".png"))
    /\ (forall (item : string) entries,
          items !! item = Some (Dir entries) ->
          length (png_files entries) = 16%nat ->
          is_Some (entries !! "cameras.json") ->
          item ∈ completed)
    /\ (forall (item : string) entries,
          items !! item = Some (Dir entries) ->
          (length (png_files entries) < 16)%nat \/ entries !! "cameras.json" = None ->
          item ∉ completed).
Proof.
  eexists _, _. split; [reflexivity|].
  assert (Hiff : forall item : string,
          item ∈ scan items (elements (dom items))
          <-> exists entries,
                items !! item = Some (Dir entries)
                /\ (16 <= length (png_files entries))%nat
                /\ is_Some (entries !! "cameras.json")).
  { intros item. rewrite scan_spec, elem_of_elements, elem_of_dom. split.
    - intros (_ & n & Hn & Hc).
      apply is_complete_spec in Hc as (entries & -> & H16 & Hcam). eauto.
    - intros (entries & Hn & H16 & Hcam). split; [eauto|].
      exists (Dir entries). split; [exact Hn|]. apply is_complete_spec. eauto. }
  split; [exact Hiff|]. split; [|split].
  - intros item entries _. split; [apply png_files_NoDup | apply png_files_spec].
  - intros item entries Hn H16 Hcam. apply Hiff. exists entries.
    split; [exact Hn|]. split; [lia | exact Hcam].
  - intros item entries Hn Hbad Hin. apply Hiff in Hin as (entries' & Hn' & H16 & Hcam).
    rewrite Hn in Hn'. injection Hn' as <-.
    destruct Hbad as [Hlt|Hnone]; [lia|]. rewrite Hnone in Hcam. now destruct Hcam.
Qed.

(** A directory with sixteen depth images and [cameras.json] is complete;
    take one image away, or the metadata, and it is not. *)
Example completion_predicate_example :
  let pngs := map (fun i => (fmt_03d i +:+ "_depth.png", File)) (seq 0 16) in
  let full : gmap string node := list_to_map (("cameras.json", File) :: pngs) in
  let no_json : gmap string node := list_to_map pngs in
  let fifteen : gmap string node := list_to_map (("cameras.json", File) :: tail pngs) in
  check_existing_renders "./views"
    (Some (Dir {["a" := Dir full; "b" := Dir no_json; "c" := Dir fifteen; "d" := File]}))
  = Ok ({["a"]}, [FoundRendered 1]).
Proof. vm_compute. reflexivity. Qed.

End ScannerFacts.

(** ** The catalogue filter *)
Section FilterFacts.
Import Filter.

Lemma lower_append (a b : string) : lower (a +:+ b) = lower a +:+ lower b.
Proof.
  induction a as [|c a IH]; [reflexivity|].
  rewrite append_cons. simpl. rewrite append_cons. f_equal. exact IH.
Qed.

Lemma lower_split (s a b : string) :
  lower s = a +:+ b -> exists s1 s2, s = s1 +:+ s2 /\ lower s1 = a /\ lower s2 = b.
Proof.
  revert s. induction a as [|c a IH]; intros s E.
  - exists ""%string, s. auto.
  - destruct s as [|d s]; [discriminate|].
    rewrite append_cons in E. simpl in E. injection E as Hc E.
    destruct (IH _ E) as (s1 & s2 & -> & H1 & H2).
    exists (String d s1), s2. rewrite append_cons. simpl. rewrite Hc, H1. auto.
Qed.

Lemma contains_lower (path term : string) :
  lower term = term ->
  contains (lower path) term = true <-> occurs_ignoring_case term path.
Proof.
  intros Ht. rewrite contains_spec. unfold occurs_ignoring_case. split.
  - intros (pre & post & E).
    apply lower_split in E as (s1 & s23 & -> & H1 & E).
    apply lower_split in E as (s2 & s3 & -> & H2 & H3).
    exists s1, s2, s3. split; [reflexivity | congruence].
  - intros (pre & mid & post & -> & E).
    exists (lower pre), (lower post). rewrite !lower_append. congruence.
Qed.

Lemma exclusion_terms_lower (term : string) :
  term ∈ exclusion_terms -> lower term = term.
Proof.
  unfold exclusion_terms. rewrite !elem_of_cons, elem_of_nil.
  intros H. repeat (destruct H as [->|H]; [reflexivity|]). destruct H.
Qed.

Lemma passes_spec (path : string) : passes path = true <-> acceptable path.
Proof.
  unfold passes, acceptable.
  destruct (String.eqb_spec path "") as [->|Hne].
  { split; [discriminate | intros [H _]; now destruct H]. }
  destruct (endswith path ".glb") eqn:Hglb; cbn [negb].
  2:{ split; [discriminate|]. intros (_ & Hs & _).
      apply endswith_spec in Hs. congruence. }
  apply endswith_spec in Hglb.
  destruct (existsb (fun bad_term => contains (lower path) bad_term) exclusion_terms) eqn:Hex.
  { split; [discriminate|]. intros (_ & _ & Hno & _).
    apply existsb_exists in Hex as (term & Hin & Hc).
    apply list_elem_of_In in Hin.
    exfalso. apply (Hno term Hin).
    apply contains_lower; [now apply exclusion_terms_lower | exact Hc]. }
  destruct (Nat.ltb_spec (len path) 10).
  { split; [discriminate|]. intros (_ & _ & _ & ?). lia. }
  split; [intros _ | reflexivity].
  split; [exact Hne|]. split; [exact Hglb|]. split; [|lia].
  intros term Hin Hocc.
  apply contains_lower in Hocc; [|now apply exclusion_terms_lower].
  assert (existsb (fun bad_term => contains (lower path) bad_term) exclusion_terms = true).
  { apply existsb_exists. exists term. split; [now apply list_elem_of_In | exact Hocc]. }
  congruence.
Qed.

Lemma filter_paths_spec (object_paths : gmap string string) (sampled : list string) :
  filter_paths object_paths sampled
  = filter (fun uid => passes (default ""%string (object_paths !! uid)) = true) sampled.
Proof.
  induction sampled as [|uid rest IH]; [reflexivity|].
  simpl. rewrite filter_cons.
  destruct (passes (default ""%string (object_paths !! uid))) eqn:Hp.
  - rewrite decide_True by reflexivity. now rewrite IH.
  - rewrite decide_False by discriminate. exact IH.
Qed.

(** C4: when the sample is drawn, the filter returns; every UID of its
    output has a catalogue path that is not empty, in which no exclusion
    term occurs when case is ignored, that ends in [.glb] and has at least
    10 characters; and a sampled UID is kept exactly when its path passes
    these four tests, so that any other is skipped and nothing is raised.
    The output keeps the order of the sample. *)
Theorem filter_soundness (sample : list string -> Z -> result (list string))
    (uids : list string) (object_paths : gmap string string) (sample_size : Z)
    (sampled_uids : list string) :
  sample uids (Z.min sample_size (Z.of_nat (length uids))) = Ok sampled_uids ->
  exists filtered_uids,
    simple_quality_filter sample uids object_paths sample_size = Ok filtered_uids
    /\ filtered_uids `sublist_of` sampled_uids
    /\ (forall uid, uid ∈ filtered_uids ->
          exists path, object_paths !! uid = Some path
            /\ path <> ""%string
            /\ (forall term, term ∈ exclusion_terms -> ~ occurs_ignoring_case term path)
            /\ (exists stem, path = stem +:+ ".glb")
            /\ (10 <= len path)%nat)
    /\ (forall uid, uid ∈ sampled_uids ->
          uid ∈ filtered_uids <-> acceptable (default ""%string (object_paths !! uid))).
Proof.
  intros Hs. unfold simple_quality_filter. rewrite Hs.
  eexists. split; [reflexivity|]. rewrite filter_paths_spec.
  split; [apply sublist_filter|]. split.
  - intros uid Hin. apply list_elem_of_filter in Hin as [Hp _].
    apply passes_spec in Hp as (Hne & Hglb & Hno & Hlen).
    destruct (object_paths !! uid) as [path|]; simpl in *; [|now destruct Hne].
    exists path. auto.
  - intros uid Hin. rewrite list_elem_of_filter, passes_spec. tauto.
Qed.

(** Witness of C4: of five UIDs only ["a"] has an acceptable path. *)
Lemma filter_soundness_witness :
  exists filtered_uids,
    simple_quality_filter first_k ["a"; "b"; "c"; "d"; "e"] demo_catalogue 1000
    = Ok filtered_uids
    /\ filtered_uids = ["a"]
    /\ (forall uid, uid ∈ filtered_uids ->
          exists path, demo_catalogue !! uid = Some path
            /\ path <> ""%string
            /\ (forall term, term ∈ exclusion_terms -> ~ occurs_ignoring_case term path)
            /\ (exists stem, path = stem +:+ ".glb")
            /\ (10 <= len path)%nat).
Proof.
  destruct (filter_soundness first_k ["a"; "b"; "c"; "d"; "e"] demo_catalogue 1000
              ["a"; "b"; "c"; "d"; "e"] eq_refl)
    as (filtered & Hrun & _ & Hsound & _).
  exists filtered. split; [exact Hrun|]. split; [|exact Hsound].
  assert (E : simple_quality_filter first_k ["a"; "b"; "c"; "d"; "e"] demo_catalogue 1000
              = Ok filtered) by exact Hrun.
  vm_compute in E. now injection E as <-.
Defined.

End FilterFacts.

(** ** The train/test splitter *)

(** *** The split index in binary64

    [int(n * 0.9)] multiplies in binary64.  The lemmas below follow the
    rounding of [SpecFloat], the specification the primitive floats obey,
    far enough to bound the rounded product. *)
Section Binary64.
Import Splitter.


(** [digits2_pos p] is the number of binary digits of [p]. *)
Lemma digits2_log2 (p : positive) : Z.pos (digits2_pos p) = Z.log2 (Z.pos p) + 1.
Proof.
  induction p as [p IH|p IH|]; simpl; try reflexivity.
  - rewrite Pos2Z.inj_succ, IH. destruct p; simpl; lia.
  - rewrite Pos2Z.inj_succ, IH. destruct p; simpl; lia.
Qed.

Lemma digits2_bounds (p : positive) :
  2 ^ (Z.pos (digits2_pos p) - 1) <= Z.pos p < 2 ^ Z.pos (digits2_pos p).
Proof.
  rewrite digits2_log2. replace (Z.log2 (Z.pos p) + 1 - 1) with (Z.log2 (Z.pos p)) by lia.
  pose proof (Z.log2_spec (Z.pos p) ltac:(lia)). 
  replace (Z.log2 (Z.pos p) + 1) with (Z.succ (Z.log2 (Z.pos p))) by lia. lia.
Qed.

Lemma iter_pos_nat {A} (f : A -> A) (p : positive) (x : A) :
  SpecFloat.iter_pos f p x = Nat.iter (Pos.to_nat p) f x.
Proof.
  revert x. induction p as [p IH|p IH|]; intros x.
  - change (Nat.iter (Pos.to_nat p) f (Nat.iter (Pos.to_nat p) f (f x))
            = Nat.iter (Pos.to_nat p~1) f x) || cbn [SpecFloat.iter_pos].
    rewrite ?IH, Pos2Nat.inj_xI, Nat.iter_succ_r.
    replace (2 * Pos.to_nat p)%nat with (Pos.to_nat p + Pos.to_nat p)%nat by lia.
    now rewrite Nat.iter_add.
  - cbn [SpecFloat.iter_pos]. rewrite !IH, Pos2Nat.inj_xO.
    replace (2 * Pos.to_nat p)%nat with (Pos.to_nat p + Pos.to_nat p)%nat by lia.
    now rewrite Nat.iter_add.
  - reflexivity.
Qed.

Lemma shr_1_m (mrs : shr_record) :
  0 <= shr_m mrs -> shr_m (shr_1 mrs) = shr_m mrs / 2.
Proof.
  destruct mrs as [m r s]. simpl. intros Hm.
  destruct m as [|[p|p|]|p]; simpl; try lia; try reflexivity.
  - rewrite Pos2Z.inj_xI. apply Z.div_unique with (r := 1); lia.
  - rewrite Pos2Z.inj_xO. apply Z.div_unique with (r := 0); lia.
Qed.

Lemma shr_iter_m (k : nat) (mrs : shr_record) :
  0 <= shr_m mrs -> shr_m (Nat.iter k shr_1 mrs) = shr_m mrs / 2 ^ Z.of_nat k.
Proof.
  intros Hm. induction k as [|k IH].
  - simpl. now rewrite Z.div_1_r.
  - rewrite Nat2Z.inj_succ, Z.pow_succ_r by lia. simpl.
    rewrite shr_1_m; rewrite IH.
    + rewrite Z.div_div by lia. f_equal. lia.
    + apply Z.div_pos; lia.
Qed.

Lemma digits2_unique (p : positive) (d : Z) :
  2 ^ (d - 1) <= Z.pos p < 2 ^ d -> Z.pos (digits2_pos p) = d.
Proof.
  intros H. rewrite digits2_log2.
  assert (0 < d).
  { destruct (Z.ltb_spec 0 d); [assumption|].
    assert (2 ^ d <= 2 ^ 0) by (destruct (Z.eqb_spec d 0) as [->|];
      [lia | rewrite Z.pow_neg_r by lia; simpl; lia]).
    simpl in *. lia. }
  rewrite (Z.log2_unique (Z.pos p) (d - 1)); [lia | lia |].
  replace (Z.succ (d - 1)) with d by lia. exact H.
Qed.

Lemma shr_fexp_keep (m e : Z) (l : location) :
  0 < m -> -1074 <= Zdigits2 m + e - 53 -> Zdigits2 m <= 53 ->
  shr_fexp 53 1024 m e l = (shr_record_of_loc m l, e).
Proof.
  intros Hm Hmin Hd. unfold shr_fexp, fexp, emin.
  replace (Z.max (Zdigits2 m + e - 53) (3 - 1024 - 53) - e) with (Zdigits2 m - 53) by lia.
  unfold shr. destruct (Zdigits2 m - 53) eqn:E; try reflexivity. lia.
Qed.

Lemma shr_fexp_shift (m e : Z) (l : location) :
  0 < m -> -1074 <= Zdigits2 m + e - 53 -> 53 < Zdigits2 m ->
  exists mrs, shr_fexp 53 1024 m e l = (mrs, e + (Zdigits2 m - 53))
              /\ shr_m mrs = m / 2 ^ (Zdigits2 m - 53).
Proof.
  intros Hm Hmin Hd. unfold shr_fexp, fexp, emin.
  replace (Z.max (Zdigits2 m + e - 53) (3 - 1024 - 53) - e) with (Zdigits2 m - 53) by lia.
  unfold shr. destruct (Zdigits2 m - 53) as [|k|k] eqn:E; try lia.
  eexists. split; [reflexivity|].
  rewrite iter_pos_nat, shr_iter_m, positive_nat_Z.
  - f_equal. destruct l as [|[| |]]; reflexivity.
  - destruct l as [|[| |]]; simpl; lia.
Qed.

Lemma round_nearest_even_bounds (m : Z) (l : location) :
  m <= round_nearest_even m l <= m + 1.
Proof.
  unfold round_nearest_even. destruct l as [|[| |]]; try lia.
  destruct (Z.even m); lia.
Qed.

(** Rounding an exact mantissa that already has 53 digits changes nothing. *)
Lemma binary_round_aux_keep (P : positive) (e : Z) :
  Z.pos (digits2_pos P) = 53 -> -1074 <= e <= 971 ->
  binary_round_aux 53 1024 false (Z.pos P) e loc_Exact = S754_finite false P e.
Proof.
  intros HD He. unfold binary_round_aux.
  rewrite shr_fexp_keep by (simpl; lia). simpl shr_record_of_loc.
  cbn [shr_m loc_of_shr_record round_nearest_even].
  rewrite shr_fexp_keep by (simpl; lia). cbn [shr_record_of_loc shr_m].
  destruct (Z.leb_spec e (1024 - 53)); [reflexivity | lia].
Qed.

(** Rounding an exact mantissa of more than 53 digits: the result is the
    mantissa shifted right, or one more. *)
Lemma binary_round_aux_shift (P : positive) (e : Z) :
  let k := Z.pos (digits2_pos P) - 53 in
  0 < k -> -1074 <= e + k -> e + k + 1 <= 971 ->
  exists m2 e2,
    binary_round_aux 53 1024 false (Z.pos P) e loc_Exact = S754_finite false m2 e2
    /\ e + k <= e2 <= e + k + 1
    /\ Z.pos P / 2 ^ k <= Z.pos m2 * 2 ^ (e2 - (e + k)) <= Z.pos P / 2 ^ k + 1.
Proof.
  intros k Hk Hmin Hmax. unfold binary_round_aux.
  destruct (shr_fexp_shift (Z.pos P) e loc_Exact) as (mrs & -> & Hm);
    [lia | simpl; lia | simpl; lia |].
  change (Zdigits2 (Z.pos P) - 53) with k in *.
  pose proof (digits2_bounds P) as HP.
  set (m1 := Z.pos P / 2 ^ k) in *.
  assert (Hm1 : 2 ^ 52 <= m1 < 2 ^ 53).
  { replace (Z.pos (digits2_pos P)) with (k + 53) in HP by (unfold k; lia).
    replace (k + 53 - 1) with (52 + k) in HP by lia.
    rewrite (Z.add_comm k 53) in HP.
    rewrite !Z.pow_add_r in HP by lia.
    assert (0 < 2 ^ k) by (apply Z.pow_pos_nonneg; lia).
    unfold m1. split.
    - apply Z.div_le_lower_bound; lia.
    - apply Z.div_lt_upper_bound; lia. }
  pose proof (round_nearest_even_bounds (shr_m mrs) (loc_of_shr_record mrs)) as Hr.
  rewrite Hm in *.
  set (rn := round_nearest_even m1 (loc_of_shr_record mrs)) in *.
  destruct (Z.ltb_spec rn (2 ^ 53)) as [Hlt|Hge].
  - destruct rn as [|q|q] eqn:Eq; try lia.
    assert (HD : Z.pos (digits2_pos q) = 53) by (apply digits2_unique; lia).
    rewrite shr_fexp_keep by (simpl; lia). cbn [shr_record_of_loc shr_m].
    destruct (Z.leb_spec (e + k) (1024 - 53)); [|lia].
    exists q, (e + k). split; [reflexivity|]. split; [lia|].
    replace (e + k - (e + k)) with 0 by lia. simpl (2 ^ 0). lia.
  - assert (Ern : rn = 2 ^ 53) by lia.
    destruct rn as [|q|q] eqn:Eq; try lia.
    assert (HD : Z.pos (digits2_pos q) = 54) by (apply digits2_unique; lia).
    destruct (shr_fexp_shift (Z.pos q) (e + k) loc_Exact) as (mrs2 & -> & Hm2);
      [lia | simpl; lia | simpl; lia |].
    simpl Zdigits2 in *. rewrite HD in *. rewrite Hm2, Ern.
    change (2 ^ 53 / 2 ^ (54 - 53)) with (Z.pos (2 ^ 52)%positive).
    destruct (Z.leb_spec (e + k + (54 - 53)) (1024 - 53)); [|lia].
    exists (2 ^ 52)%positive, (e + k + (54 - 53)). split; [reflexivity|]. split; [lia|].
    replace (e + k + (54 - 53) - (e + k)) with 1 by lia.
    change (Z.pos (2 ^ 52) * 2 ^ 1) with (2 ^ 53). lia.
Qed.

Lemma pos_iter_xO (p j : positive) : Z.pos (Pos.iter xO p j) = Z.pos p * 2 ^ Z.pos j.
Proof.
  induction j as [|j IH] using Pos.peano_ind.
  - simpl. lia.
  - rewrite Pos.iter_succ, Pos2Z.inj_xO, IH, Pos2Z.inj_succ, Z.pow_succ_r by lia. lia.
Qed.

(** [float(n)] for a positive [n] below 2^53 is exact: the mantissa is [n]
    shifted to 53 digits. *)
Lemma binary_normalize_small (p : positive) :
  let d := Z.pos (digits2_pos p) in
  d < 53 ->
  exists mz, binary_normalize 53 1024 (Z.pos p) 0 false = S754_finite false mz (d - 53)
             /\ Z.pos mz = Z.pos p * 2 ^ (53 - d).
Proof.
  intros d Hd. unfold binary_normalize, binary_round, shl_align, fexp, emin.
  assert (0 < d) by (unfold d; lia).
  replace (Z.max (Z.pos (digits2_pos p) + 0 - 53) (3 - 1024 - 53) - 0) with (d - 53)
    by (unfold d; lia).
  replace (Z.max (Z.pos (digits2_pos p) + 0 - 53) (3 - 1024 - 53)) with (d - 53)
    by (unfold d; lia).
  destruct (d - 53) as [|j|j] eqn:Ej; try lia.
  pose proof (pos_iter_xO p j) as Hmz.
  assert (Hj : Z.pos j = 53 - d) by lia.
  rewrite Hj in Hmz.
  exists (Pos.iter xO p j). split; [|exact Hmz].
  apply binary_round_aux_keep; [|lia].
  apply digits2_unique. rewrite Hmz.
  pose proof (digits2_bounds p) as Hp. fold d in Hp.
  assert (E52 : 2 ^ (53 - 1) = 2 ^ (d - 1) * 2 ^ (53 - d))
    by (rewrite <- Z.pow_add_r by lia; f_equal; lia).
  assert (E53 : 2 ^ 53 = 2 ^ d * 2 ^ (53 - d))
    by (rewrite <- Z.pow_add_r by lia; f_equal; lia).
  rewrite E52, E53.
  assert (0 < 2 ^ (53 - d)) by (apply Z.pow_pos_nonneg; lia).
  split; [apply Z.mul_le_mono_nonneg_r | apply Z.mul_lt_mono_pos_r]; lia.
Qed.

Lemma Prim2SF_09 : Prim2SF 0.9%float = S754_finite false 8106479329266893 (-53).
Proof. reflexivity. Qed.

(** [int(n * 0.9)] in binary64 is [9n // 10] for every [n] below 2^49. *)
Lemma split_idx_exact (n : nat) :
  Z.of_nat n < 2 ^ 49 -> split_idx n = Ok (9 * Z.of_nat n / 10).
Proof.
  intros Hn. unfold split_idx, int_of_float.
  rewrite FloatAxioms.mul_spec, FloatAxioms.of_uint63_spec, Prim2SF_09, Uint63.of_Z_spec.
  rewrite Z.mod_small by (change wB with (2 ^ 63); lia).
  unfold SF64mul. change FloatOps.prec with 53. change FloatOps.emax with 1024.
  destruct (Z.of_nat n) as [|p|p] eqn:En; [reflexivity| |lia].
  pose proof (digits2_bounds p) as Hp.
  set (d := Z.pos (digits2_pos p)) in *.
  assert (Hd : 0 < d <= 49).
  { split; [unfold d; lia|].
    destruct (Z.leb_spec d 49); [assumption|].
    assert (2 ^ 49 <= 2 ^ (d - 1)) by (apply Z.pow_le_mono_r; lia). lia. }
  destruct (binary_normalize_small p) as (mz & -> & Hmz); [fold d; lia|]. fold d in Hmz |- *.
  unfold SFmul. cbn [xorb].
  set (a := 2 ^ (53 - d)) in *.
  assert (Ha : 16 <= a).
  { unfold a. change 16 with (2 ^ 4). apply Z.pow_le_mono_r; lia. }
  assert (HX : 2 ^ 52 <= Z.pos p * a < 2 ^ 53).
  { assert (E52 : 2 ^ 52 = 2 ^ (d - 1) * a)
      by (unfold a; rewrite <- Z.pow_add_r by lia; f_equal; lia).
    assert (E53 : 2 ^ 53 = 2 ^ d * a)
      by (unfold a; rewrite <- Z.pow_add_r by lia; f_equal; lia).
    rewrite E52, E53.
    split; [apply Z.mul_le_mono_nonneg_r | apply Z.mul_lt_mono_pos_r]; lia. }
  set (P := (mz * 8106479329266893)%positive).
  assert (HP : Z.pos P = Z.pos p * a * 8106479329266893) by (unfold P; lia).
  pose proof (digits2_bounds P) as HD.
  set (D := Z.pos (digits2_pos P)) in *.
  assert (HDr : 105 <= D <= 106).
  { split.
    - destruct (Z.leb_spec 105 D); [assumption|].
      assert (2 ^ D <= 2 ^ 104) by (apply Z.pow_le_mono_r; lia).
      assert (2 ^ 104 <= Z.pos P) by (rewrite HP; change (2 ^ 104) with (2 ^ 52 * 2 ^ 52); nia).
      lia.
    - destruct (Z.leb_spec D 106); [assumption|].
      assert (2 ^ 106 <= 2 ^ (D - 1)) by (apply Z.pow_le_mono_r; lia).
      assert (Z.pos P < 2 ^ 106) by (rewrite HP; change (2 ^ 106) with (2 ^ 53 * 2 ^ 53); nia).
      lia. }
  destruct (binary_round_aux_shift P (d - 53 + -53)) as (m2 & e2 & -> & He2 & Hm2);
    [fold D; lia | fold D; lia | fold D; lia |].
  fold D in He2, Hm2.
  set (k := D - 53) in *.
  destruct (Z.leb_spec 0 e2); [lia|].
  f_equal.
  set (w := - (d - 53 + -53 + k)).
  set (t := e2 - (d - 53 + -53 + k)) in *.
  assert (Hw : 0 < w) by (unfold w; lia).
  assert (Ht : 0 <= t <= 1) by (unfold t; lia).
  assert (E2 : - e2 = w - t) by (unfold w, t; lia).
  assert (Hpw : 2 ^ w = 2 ^ (- e2) * 2 ^ t).
  { rewrite <- Z.pow_add_r by lia. f_equal. lia. }
  assert (HT : 2 ^ 53 * a = 2 ^ w * 2 ^ k).
  { unfold a. rewrite <- !Z.pow_add_r by (unfold k; lia). f_equal. unfold w, k. lia. }
  assert (Hg : 0 < 2 ^ k <= 2 ^ 53).
  { split; [apply Z.pow_pos_nonneg; unfold k; lia | apply Z.pow_le_mono_r; unfold k; lia]. }
  assert (H2w : 0 < 2 ^ w) by (apply Z.pow_pos_nonneg; lia).
  assert (H2t : 0 < 2 ^ t) by (apply Z.pow_pos_nonneg; lia).
  assert (H2e : 0 < 2 ^ (- e2)) by (apply Z.pow_pos_nonneg; lia).
  rewrite <- (Z.div_mul_cancel_r (Z.pos m2) (2 ^ (- e2)) (2 ^ t)) by lia.
  rewrite <- Hpw.
  set (A := Z.pos m2 * 2 ^ t) in *.
  set (m1 := Z.pos P / 2 ^ k) in *.
  set (q := 9 * Z.pos p / 10).
  assert (Hq : 10 * q <= 9 * Z.pos p <= 10 * q + 9).
  { unfold q. pose proof (Z.div_mod (9 * Z.pos p) 10 ltac:(lia)).
    pose proof (Z.mod_pos_bound (9 * Z.pos p) 10 ltac:(lia)). lia. }
  assert (HY : 10 * (q * a) <= 9 * (Z.pos p * a) <= 10 * (q * a) + 9 * a) by nia.
  assert (Hq0 : 0 <= q) by (unfold q; apply Z.div_pos; lia).
  assert (Hlow : q * 2 ^ w <= m1).
  { unfold m1. apply Z.div_le_lower_bound; [lia|].
    replace (2 ^ k * (q * 2 ^ w)) with (q * (2 ^ w * 2 ^ k)) by ring.
    rewrite <- HT, HP. lia. }
  assert (Hupp : m1 + 1 < (q + 1) * 2 ^ w).
  { assert (m1 < (q + 1) * 2 ^ w - 1); [|lia].
    unfold m1. apply Z.div_lt_upper_bound; [lia|].
    replace (2 ^ k * ((q + 1) * 2 ^ w - 1)) with ((q + 1) * (2 ^ w * 2 ^ k) - 2 ^ k) by ring.
    rewrite <- HT, HP. change (2 ^ 53) with 9007199254740992 in *. lia. }
  symmetry. apply Z.div_unique with (r := A - q * 2 ^ w). 
  - lia.
  - ring.
Qed.

End Binary64.

Section SplitIndexExamples.
Import Splitter.

(** The split index as the primitive floats compute it. *)
Example split_idx_examples :
  map split_idx [0; 1; 7; 10; 15; 19; 20; 1500]%nat
  = map Ok [0; 0; 6; 9; 13; 17; 18; 1350].
Proof. vm_compute. reflexivity. Qed.

End SplitIndexExamples.

(** *** Shuffle and split *)
Section SplitterFacts.
Import Splitter.
Context {A G : Type}.
Variable randbelow : G -> nat -> nat * G.
Hypothesis randbelow_lt : forall g k, (0 < k)%nat -> ((randbelow g k).1 < k)%nat.

Lemma swap_perm (x : list A) (i j : nat) :
  (i < length x)%nat -> (j < length x)%nat ->
  exists x', swap x i j = Ok x' /\ x' ≡ₚ x.
Proof.
  intros Hi Hj. unfold swap.
  destruct (lookup_lt_is_Some_2 x i Hi) as [xi Exi].
  destruct (lookup_lt_is_Some_2 x j Hj) as [xj Exj].
  rewrite Exi, Exj. eexists. split; [reflexivity|].
  now apply Permutation_insert_swap.
Qed.

Lemma shuffle_from_perm (i : nat) (g : G) (x : list A) :
  (i < length x)%nat \/ i = 0%nat ->
  exists x' g', shuffle_from randbelow i g x = Ok (x', g') /\ x' ≡ₚ x.
Proof.
  revert g x. induction i as [|i IH]; intros g x Hi.
  - exists x, g. split; reflexivity.
  - destruct Hi as [Hi|Hi]; [|discriminate].
    simpl. pose proof (randbelow_lt g (S (i + 1)) ltac:(lia)) as Hj.
    destruct (randbelow g (S (i + 1))) as [j g1]. simpl in Hj.
    destruct (swap_perm x (S i) j) as (x1 & -> & Hp1); [lia | lia |].
    change (Ok x1 ≫= ?f) with (f x1). cbv beta.
    destruct (IH g1 x1) as (x' & g' & E & Hp).
    { left. rewrite (Permutation_length Hp1). lia. }
    exists x', g'. split; [exact E|]. now rewrite Hp.
Qed.

Lemma shuffle_perm (g : G) (x : list A) :
  exists x' g', shuffle randbelow g x = Ok (x', g') /\ x' ≡ₚ x.
Proof.
  unfold shuffle. apply shuffle_from_perm.
  destruct x; simpl; [right; reflexivity | left; lia].
Qed.

End SplitterFacts.

Section SplitterClaims.
Import Splitter.

(** C3: for a directory of fewer than 2^49 entries and any generator whose
    [_randbelow(k)] answers below [k], the script returns; the universe is
    the names of the immediate subdirectories; the shuffled list is a
    permutation of it, fixed by the seed; [train] and [test] are the parts
    of the shuffled list before and from index [floor(0.9 * count)], so
    [len(train) = floor(0.9 * count)] and [len(test)] is the rest; no UID
    is in both, and a UID is in one of them exactly when it is in the
    universe. *)
Theorem split_disjoint_cover {G : Type} (seed : Z -> G)
    (randbelow : G -> nat -> nat * G) (entries : gmap string node) :
  (forall g k, (0 < k)%nat -> ((randbelow g k).1 < k)%nat) ->
  Z.of_nat (size entries) < 2 ^ 49 ->
  exists universe shuffled g' r,
    all_uids (Some (Dir entries)) = Ok universe
    /\ (forall uid, uid ∈ universe <-> exists sub, entries !! uid = Some (Dir sub))
    /\ NoDup universe
    /\ shuffle randbelow (seed 42) universe = Ok (shuffled, g')
    /\ shuffled ≡ₚ universe
    /\ split_script seed randbelow (Some (Dir entries)) = Ok r
    /\ train_uids r ++ test_uids r = shuffled
    /\ Z.of_nat (length (train_uids r)) = 9 * Z.of_nat (length universe) / 10
    /\ Z.of_nat (length (test_uids r))
       = Z.of_nat (length universe) - 9 * Z.of_nat (length universe) / 10
    /\ (forall uid, ~ (uid ∈ train_uids r /\ uid ∈ test_uids r))
    /\ (forall uid, uid ∈ train_uids r \/ uid ∈ test_uids r <-> uid ∈ universe).
Proof.
  intros Hrb Hsize.
  set (universe := filter (fun d => isdir_in (Some (Dir entries)) d = true)
                          (elements (dom entries))).
  assert (Hall : all_uids (Some (Dir entries)) = Ok universe) by reflexivity.
  assert (Hnd : NoDup universe) by apply NoDup_filter, NoDup_elements.
  assert (Hlen : Z.of_nat (length universe) < 2 ^ 49).
  { assert (length universe <= size entries)%nat; [|lia].
    unfold universe. etrans; [apply length_filter|].
    rewrite <- size_dom. reflexivity. }
  destruct (shuffle_perm randbelow Hrb (seed 42) universe) as (shuffled & g' & Hsh & Hperm).
  assert (Hls : length shuffled = length universe) by now apply Permutation_length.
  set (idx := 9 * Z.of_nat (length universe) / 10).
  assert (Hidx : 0 <= idx <= Z.of_nat (length universe)).
  { unfold idx. split; [apply Z.div_pos; lia|].
    apply Z.div_le_upper_bound; lia. }
  exists universe, shuffled, g'.
  eexists. split; [exact Hall|]. split.
  { intros uid. unfold universe. rewrite list_elem_of_filter, elem_of_elements, elem_of_dom.
    simpl. destruct (entries !! uid) as [[|sub]|]; simpl; split.
    - intros [? _]. discriminate.
    - intros [sub ?]. discriminate.
    - eauto.
    - intros _. split; [reflexivity | eauto].
    - intros [? _]. discriminate.
    - intros [sub ?]. discriminate. }
  split; [exact Hnd|]. split; [exact Hsh|]. split; [exact Hperm|].
  split.
  { unfold split_script. rewrite Hall.
    change (Ok universe ≫= ?f) with (f universe). cbv beta. rewrite Hsh.
    change (Ok (shuffled, g') ≫= ?f) with (f (shuffled, g')). cbv beta iota.
    rewrite split_idx_exact by (rewrite Hls; exact Hlen). rewrite Hls. fold idx.
    change (Ok idx ≫= ?f) with (f idx). cbv beta. reflexivity. }
  cbn [train_uids test_uids]. unfold slice. rewrite drop_0.
  assert (Htl : length (take (Z.to_nat idx) shuffled) = Z.to_nat idx).
  { rewrite length_take. lia. }
  split; [apply take_drop|].
  split; [rewrite Htl; lia|].
  split; [rewrite length_drop; lia|].
  assert (Hnds : NoDup (take (Z.to_nat idx) shuffled ++ drop (Z.to_nat idx) shuffled)).
  { rewrite take_drop. now rewrite Hperm. }
  apply NoDup_app in Hnds as (_ & Hdisj & _).
  split.
  - intros uid [H1 H2]. exact (Hdisj uid H1 H2).
  - intros uid. rewrite <- elem_of_app, take_drop. now rewrite Hperm.
Qed.

Lemma lcg_randbelow_lt (g : Z) (k : nat) : (0 < k)%nat -> ((lcg_randbelow g k).1 < k)%nat.
Proof.
  intros Hk. simpl.
  pose proof (Z.mod_pos_bound g (Z.of_nat k) ltac:(lia)). lia.
Qed.

(** Witness of C3: ten rendered objects split nine to one. *)
Lemma split_disjoint_cover_witness :
  exists universe r,
    all_uids (Some (Dir demo_renders)) = Ok universe
    /\ split_script lcg_seed lcg_randbelow (Some (Dir demo_renders)) = Ok r
    /\ length universe = 10%nat
    /\ length (train_uids r) = 9%nat
    /\ length (test_uids r) = 1%nat
    /\ (forall uid, ~ (uid ∈ train_uids r /\ uid ∈ test_uids r))
    /\ (forall uid, uid ∈ train_uids r \/ uid ∈ test_uids r <-> uid ∈ universe).
Proof.
  assert (Hsize : Z.of_nat (size demo_renders) < 2 ^ 49) by (vm_compute; reflexivity).
  destruct (split_disjoint_cover lcg_seed lcg_randbelow demo_renders lcg_randbelow_lt Hsize)
    as (universe & shuffled & g' & r & Hall & _ & _ & _ & _ & Hrun & _ & Htr & Hte & Hdis & Hcov).
  exists universe, r. split; [exact Hall|]. split; [exact Hrun|].
  assert (Hlen : length universe = 10%nat).
  { assert (E : all_uids (Some (Dir demo_renders)) = Ok universe) by exact Hall.
    vm_compute in E. injection E as <-. reflexivity. }
  rewrite Hlen in Htr, Hte. change (9 * Z.of_nat 10 / 10) with 9 in *.
  split; [exact Hlen|]. split; [lia|]. split; [lia|]. split; [exact Hdis | exact Hcov].
Defined.

End SplitterClaims.

(** ** The multi-view camera pipeline *)

(** *** The monad *)
Section Monad.
Import Blender.
Context {F : Type} `{Num F} {Scene : Type}.
#[local] Abbreviation M := (M F Scene).
#[local] Abbreviation world := (world F Scene).

Lemma bind_ok {A B} (m : M A) (k : A -> M B) (w w' : world) (b : B) :
  (m ≫= k) w = (Ok b, w') ->
  exists a w1, m w = (Ok a, w1) /\ k a w1 = (Ok b, w').
Proof.
  unfold mbind, M_bind, seq_bind.
  destruct (m w) as [[a|e] w1]; [eauto | discriminate].
Qed.

Lemma bind_raise {A B} (m : M A) (k : A -> M B) (w w' : world) (e : exn) :
  (m ≫= k) w = (Raise e, w') ->
  m w = (Raise e, w')
  \/ exists a w1, m w = (Ok a, w1) /\ k a w1 = (Raise e, w').
Proof.
  unfold mbind, M_bind, seq_bind.
  destruct (m w) as [[a|e'] w1]; [eauto | intros [= -> ->]; auto].
Qed.

Lemma bind_run {A B} (m : M A) (k : A -> M B) (w w1 : world) (a : A) :
  m w = (Ok a, w1) -> (m ≫= k) w = k a w1.
Proof. unfold mbind, M_bind, seq_bind. now intros ->. Qed.

Lemma bind_run_raise {A B} (m : M A) (k : A -> M B) (w w1 : world) (e : exn) :
  m w = (Raise e, w1) -> (m ≫= k) w = (Raise e, w1).
Proof. unfold mbind, M_bind, seq_bind. now intros ->. Qed.

Lemma quiet_bind {A B} (m : M A) (k : A -> M B) :
  quiet m -> (forall a, quiet (k a)) -> quiet (m ≫= k).
Proof.
  intros Hm Hk w r w1. unfold mbind, M_bind, seq_bind.
  destruct (m w) as [[a|e] w2] eqn:E.
  - intros Hr. destruct (Hm _ _ _ E) as [E1 E2].
    destruct (Hk a _ _ _ Hr) as [E3 E4]. split; congruence.
  - intros [= <- <-]. exact (Hm _ _ _ E).
Qed.

Lemma quiet_ret {A} (a : A) : quiet (ret (F:=F) (Scene:=Scene) a).
Proof. intros w r w1 [= <- <-]. auto. Qed.

Lemma quiet_raise {A} (e : exn) : quiet (raise (F:=F) (Scene:=Scene) (A:=A) e).
Proof. intros w r w1 [= <- <-]. auto. Qed.

Lemma quiet_host (f : Scene -> Scene) : quiet (host (F:=F) f).
Proof. intros w r w1 [= <- <-]. auto. Qed.

Lemma quiet_host_try (f : Scene -> outcome Scene) : quiet (host_try (F:=F) f).
Proof.
  intros w r w1. unfold host_try. destruct (f (scene w)); intros [= <- <-]; auto.
Qed.

Lemma quiet_print (ev : event) : quiet (print (F:=F) (Scene:=Scene) ev).
Proof. intros w r w1 [= <- <-]. auto. Qed.

Lemma quiet_get_scene : quiet (get_scene (F:=F) (Scene:=Scene)).
Proof. intros w r w1 [= <- <-]. auto. Qed.

Lemma quiet_index {A} (table : list A) (i : nat) : quiet (index (F:=F) (Scene:=Scene) table i).
Proof. unfold index. destruct (table !! i); [apply quiet_ret | apply quiet_raise]. Qed.

Lemma quiet_steady {A} (m : M A) : quiet m -> steady m.
Proof. intros Hq w r w1 E. exact (proj2 (Hq _ _ _ E)). Qed.

Lemma steady_bind {A B} (m : M A) (k : A -> M B) :
  steady m -> (forall a, steady (k a)) -> steady (m ≫= k).
Proof.
  intros Hm Hk w r w1. unfold mbind, M_bind, seq_bind.
  destruct (m w) as [[a|e] w2] eqn:E.
  - intros Hr. rewrite (Hk a _ _ _ Hr). exact (Hm _ _ _ E).
  - intros [= <- <-]. exact (Hm _ _ _ E).
Qed.

Lemma steady_write (p : string) (c : content F) : steady (write (Scene:=Scene) p c).
Proof. intros w r w1 [= <- <-]. reflexivity. Qed.

Lemma steady_exists (p : string) : steady (exists_ (F:=F) (Scene:=Scene) p).
Proof. intros w r w1 [= <- <-]. reflexivity. Qed.

Lemma steady_rename (src dst : string) : steady (rename (F:=F) (Scene:=Scene) src dst).
Proof.
  intros w r w1. unfold rename.
  destruct (fs w !! resolve w src); intros [= <- <-]; reflexivity.
Qed.

Lemma steady_for_each (idxs : list nat) (body : nat -> M unit) :
  (forall i, steady (body i)) -> steady (for_each idxs body).
Proof.
  intros Hb. induction idxs as [|i idxs IH]; cbn [for_each].
  - apply quiet_steady, quiet_ret.
  - apply steady_bind; [apply Hb | intros _; exact IH].
Qed.

(** *** One step at a time *)

Lemma index_run {A} (table : list A) (i : nat) (a : A) (w : world) :
  table !! i = Some a -> index table i w = (Ok a, w).
Proof. unfold index. now intros ->. Qed.

Lemma host_bind {B} (f : Scene -> Scene) (k : unit -> M B) (w : world) :
  (host f ≫= k) w = k tt (set_scene (f (scene w)) w).
Proof. reflexivity. Qed.

Lemma write_bind {B} (p : string) (c : content F) (k : unit -> M B) (w : world) :
  (write p c ≫= k) w = k tt (set_fs (<[resolve w p := c]> (fs w)) w).
Proof. reflexivity. Qed.

Lemma host_try_bind {B} (f : Scene -> outcome Scene) (k : unit -> M B) (w : world) :
  (host_try f ≫= k) w
  = match f (scene w) with
    | Done s => k tt (set_scene s w)
    | Failed msg => (Raise (HostError msg), w)
    end.
Proof.
  unfold mbind, M_bind, seq_bind, host_try. now destruct (f (scene w)).
Qed.

Lemma host_try_not_value_error (f : Scene -> outcome Scene) (w w1 : world) (msg : string) :
  host_try f w <> (Raise (ValueError msg), w1).
Proof. unfold host_try. destruct (f (scene w)); discriminate. Qed.

(** The guarded rename of the rendering loop, when the file is there. *)
Lemma guarded_rename_bind {B} (src dst : string) (c : content F)
    (k : unit -> M B) (w : world) :
  fs w !! resolve w src = Some c ->
  (exists_ src ≫= fun there => (if there : bool then rename src dst else ret tt) ≫= k) w
  = k tt (set_fs (<[resolve w dst := c]> (delete (resolve w src) (fs w))) w).
Proof.
  intros Hc. unfold mbind, M_bind, seq_bind, exists_.
  rewrite Hc, bool_decide_eq_true_2 by eauto.
  unfold rename. now rewrite Hc.
Qed.

(** A [try] whose handler always returns lets no exception through. *)
Lemma try_except_total {A} (body : M A) (handler : exn -> M A) (w : world) :
  (forall e w1, exists a w2, handler e w1 = (Ok a, w2)) ->
  exists a w', try_except body handler w = (Ok a, w').
Proof.
  intros Hh. unfold try_except. destruct (body w) as [[a|e] w1]; [eauto | apply Hh].
Qed.

End Monad.

(** *** The names of the files *)
Section Paths.
Import Blender.

Lemma fmt_03d_len (i : nat) : (i < 16)%nat -> len (fmt_03d i) = 3%nat.
Proof.
  intros Hi. do 16 (destruct i as [|i]; [reflexivity|]). lia.
Qed.

Lemma fmt_03d_inj (i j : nat) : (i < 16)%nat -> (j < 16)%nat -> fmt_03d i = fmt_03d j -> i = j.
Proof.
  intros Hi Hj.
  assert (G : Forall (fun i => Forall (fun j => fmt_03d i = fmt_03d j -> i = j) (seq 0 16)) (seq 0 16)).
  { apply (bool_decide_unpack _). vm_compute. exact I. }
  rewrite Forall_forall in G. specialize (G i). rewrite Forall_forall in G.
  apply G; apply elem_of_seq; lia.
Qed.

(** Two view files have the same name only when the view and the suffix agree. *)
Lemma view_name_inj (i j : nat) (s t : string) :
  (i < 16)%nat -> (j < 16)%nat -> fmt_03d i +:+ s = fmt_03d j +:+ t -> i = j /\ s = t.
Proof.
  intros Hi Hj E.
  apply append_eq_len in E as [E ->]; [|now rewrite !fmt_03d_len].
  split; [now apply fmt_03d_inj | reflexivity].
Qed.

Lemma view_name_not_cameras (i : nat) (s : string) :
  (i < 16)%nat -> fmt_03d i +:+ s <> "cameras.json"%string.
Proof.
  intros Hi E. change "cameras.json"%string with ("cam" +:+ "eras.json") in E.
  apply append_eq_len in E as [E _]; [|now rewrite fmt_03d_len].
  revert E. do 16 (destruct i as [|i]; [discriminate|]). lia.
Qed.

Lemma view_name_relative (i : nat) (s : string) :
  (i < 16)%nat -> startswith (fmt_03d i +:+ s) "/" = false.
Proof.
  intros Hi. do 16 (destruct i as [|i]; [reflexivity|]). lia.
Qed.

Lemma views_dir_shape (o u : string) :
  exists y, views_dir_of o u = y +:+ "views".
Proof.
  unfold views_dir_of. set (a := path_join o u). unfold path_join.
  change (startswith "views" "/") with false. cbv iota.
  destruct (String.eqb a "" || endswith a "/").
  - now exists a.
  - exists (a +:+ "/"). now rewrite append_assoc.
Qed.

Lemma views_dir_nonempty (o u : string) : views_dir_of o u <> ""%string.
Proof.
  destruct (views_dir_shape o u) as [y ->]. intros E.
  apply (f_equal len) in E. rewrite len_append in E. simpl in E. unfold len in E. simpl in E. lia.
Qed.

Lemma path_join_views (o u name : string) :
  startswith name "/" = false ->
  path_join (views_dir_of o u) name = views_dir_of o u +:+ "/" +:+ name.
Proof.
  intros Hn. unfold path_join at 1. rewrite Hn.
  destruct (String.eqb_spec (views_dir_of o u) "") as [E|_].
  { now apply views_dir_nonempty in E. }
  destruct (views_dir_shape o u) as [y Ey]. rewrite Ey at 1.
  rewrite endswith_append by (simpl; lia). reflexivity.
Qed.

Section Resolve.
Context {F Scene : Type}.

Lemma resolve_view (w : world F Scene) (o u name : string) :
  startswith name "/" = false ->
  resolve w (path_join (views_dir_of o u) name) = view_key (cwd w) o u name.
Proof.
  intros Hn. unfold resolve, view_key. rewrite path_join_views by exact Hn.
  apply path_join_prefix, views_dir_nonempty.
Qed.

Lemma view_key_inj (c o u a b : string) : view_key c o u a = view_key c o u b -> a = b.
Proof. unfold view_key. intros E. now do 2 apply String.app_inj in E. Qed.

End Resolve.

Lemma same_view_key_ne (c o u : string) (i : nat) (s t : string) :
  s <> t -> view_key c o u (fmt_03d i +:+ s) <> view_key c o u (fmt_03d i +:+ t).
Proof. intros Hst E. apply view_key_inj, String.app_inj in E. contradiction. Qed.

End Paths.

(** *** The rendering loop and the metadata loop *)
Section Render.
Import Blender.
Context {F : Type} `{Num F} {Scene : Type}.
Variable math : Math F.
Variable bpy : Bpy F Scene.
#[local] Abbreviation M := (M F Scene).
#[local] Abbreviation world := (world F Scene).
Hypothesis frame_one : forall s, frame_current bpy s = 1%nat.

Lemma azimuth_some (i : nat) : (i < 16)%nat -> is_Some ((AZIMUTHS_16 (F:=F)) !! i).
Proof. intros Hi. apply lookup_lt_is_Some. simpl. lia. Qed.

Lemma elevation_some (i : nat) : (i < 16)%nat -> is_Some ((ELEVATIONS_16 (F:=F)) !! i).
Proof. intros Hi. apply lookup_lt_is_Some. simpl. lia. Qed.

Lemma render_still_bind {B} (vd fp ds ms : string) (k : unit -> M B) (w : world) :
  (render_still bpy vd fp ds ms ≫= k) w
  = match render bpy (scene w) with
    | Done s =>
        k tt (set_fs (<[resolve w (path_join vd (ms +:+ "0001" +:+ ".jpg")) := Image Mask]>
                     (<[resolve w (path_join vd (ds +:+ "0001" +:+ ".png")) := Image Depth]>
                      (<[resolve w fp := Image Rgb]> (fs w))))
                (set_scene s w))
    | Failed msg => (Raise (HostError msg), w)
    end.
Proof.
  unfold render_still. unfold mbind at 1. unfold M_bind at 1. unfold seq_bind at 1.
  rewrite host_try_bind.
  destruct (render bpy (scene w)) as [s|msg]; [|reflexivity].
  unfold mbind, M_bind, seq_bind, get_scene, write. cbn [scene set_scene fs cwd].
  rewrite frame_one. reflexivity.
Qed.

(** One turn of the rendering loop: it stops when the host fails the
    render, and otherwise leaves the three images under their final names. *)
Lemma render_view_run (a : args F) (o u : string) (nv : Z) (i : nat) (w : world) :
  (i < 16)%nat ->
  exists s1,
    render_view math bpy a (views_dir_of o u) nv i w
    = match render bpy s1 with
      | Done s =>
          (Ok tt, {| scene := s;
                     fs := after_view (view_key (cwd w) o u) i (fs w);
                     cwd := cwd w;
                     log := log w ++ [RenderedView i nv] |})
      | Failed msg => (Raise (HostError msg), set_scene s1 w)
      end.
Proof.
  intros Hi.
  destruct (azimuth_some i Hi) as [az Haz].
  destruct (elevation_some i Hi) as [el Hel].
  unfold render_view.
  rewrite (bind_run _ _ _ _ _ (index_run _ _ _ w Haz)).
  rewrite (bind_run _ _ _ _ _ (index_run _ _ _ w Hel)).
  rewrite host_bind, render_still_bind. cbn [scene set_scene].
  exists (set_location bpy (get_camera_position math az el (camera_dist a)) (scene w)).
  destruct (render bpy _) as [s|msg]; [|reflexivity].
  rewrite !append_assoc.
  change ("_depth" +:+ "0001" +:+ ".png") with "_depth0001.png"%string.
  change ("_mask" +:+ "0001" +:+ ".jpg") with "_mask0001.jpg"%string.
  unfold resolve at 1 2 3. cbn [cwd set_scene].
  change (path_join (cwd w) ?p) with (resolve w p).
  rewrite !resolve_view by (apply view_name_relative; exact Hi).
  assert (Hres : forall (f : gmap string (content F)) (sc : Scene) (name : string),
            startswith name "/" = false ->
            resolve (set_fs f (set_scene sc w)) (path_join (views_dir_of o u) name)
            = view_key (cwd w) o u name).
  { intros f sc name Hn. exact (resolve_view w o u name Hn). }
  cbn [set_scene fs].
  match goal with |- _ (set_fs ?f (set_scene ?a (set_scene ?b w))) = _ =>
    change (set_scene a (set_scene b w)) with (set_scene a w) end.
  rewrite (guarded_rename_bind _ _ (Image Depth)).
  2:{ cbn [fs set_fs]. rewrite Hres by (apply view_name_relative; exact Hi).
      rewrite lookup_insert_ne by (apply same_view_key_ne; discriminate).
      apply lookup_insert_eq. }
  rewrite !Hres by (apply view_name_relative; exact Hi). cbn [fs set_fs].
  match goal with |- _ (set_fs ?f (set_fs ?g ?x)) = _ =>
    change (set_fs f (set_fs g x)) with (set_fs f x) end.
  rewrite (guarded_rename_bind _ _ (Image Mask)).
  2:{ cbn [fs set_fs]. rewrite Hres by (apply view_name_relative; exact Hi).
      rewrite lookup_insert_ne by (apply same_view_key_ne; discriminate).
      rewrite lookup_delete_ne by (apply same_view_key_ne; discriminate).
      apply lookup_insert_eq. }
  rewrite !Hres by (apply view_name_relative; exact Hi). cbn [fs set_fs].
  reflexivity.
Qed.

Lemma steady_render_view (a : args F) (vd : string) (nv : Z) (i : nat) :
  steady (render_view math bpy a vd nv i).
Proof.
  unfold render_view.
  apply steady_bind; [apply quiet_steady, quiet_index | intros az].
  apply steady_bind; [apply quiet_steady, quiet_index | intros el].
  apply steady_bind; [apply quiet_steady, quiet_host | intros _].
  apply steady_bind.
  { unfold render_still.
    apply steady_bind; [apply quiet_steady, quiet_host_try | intros _].
    apply steady_bind; [apply quiet_steady, quiet_get_scene | intros s].
    repeat (apply steady_bind; [apply steady_write | intros _]).
    apply steady_write. }
  intros _.
  apply steady_bind; [apply steady_exists | intros [|]].
  - apply steady_bind; [apply steady_rename | intros _].
    apply steady_bind; [apply steady_exists | intros [|]];
      (apply steady_bind; [apply steady_rename || apply quiet_steady, quiet_ret | intros _]);
      apply quiet_steady, quiet_print.
  - apply steady_bind; [apply quiet_steady, quiet_ret | intros _].
    apply steady_bind; [apply steady_exists | intros [|]];
      (apply steady_bind; [apply steady_rename || apply quiet_steady, quiet_ret | intros _]);
      apply quiet_steady, quiet_print.
Qed.

(** The rendering loop: it returns having written the files of every view,
    or stops at the first render the host fails. *)
Lemma render_loop (a : args F) (o u : string) (nv : Z) (idxs : list nat)
    (w : world) (r : result unit) (w' : world) :
  Forall (fun i => (i < 16)%nat) idxs ->
  for_each idxs (render_view math bpy a (views_dir_of o u) nv) w = (r, w') ->
  cwd w' = cwd w
  /\ (r = Ok tt -> fs w' = after_views (view_key (cwd w) o u) idxs (fs w))
  /\ (forall e, r = Raise e -> exists msg, e = HostError msg).
Proof.
  intros Hidx. revert w. induction Hidx as [|i idxs Hi _ IH]; intros w.
  - intros [= <- <-]. split; [reflexivity|]. split; [reflexivity | discriminate].
  - cbn [for_each].
    destruct (render_view_run a o u nv i w Hi) as [s1 E].
    destruct (render bpy s1) as [s|msg].
    + rewrite (bind_run _ _ _ _ _ E). intros Hr.
      destruct (IH _ Hr) as (Hc & Hf & He). cbn [cwd fs] in *.
      split; [exact Hc|]. split; [|exact He].
      intros ->. now rewrite Hf.
    + rewrite (bind_run_raise _ _ _ _ _ E). intros [= <- <-].
      split; [reflexivity|]. split; [discriminate|]. intros e [= <-]. eauto.
Qed.

Lemma render_loop_total (a : args F) (o u : string) (nv : Z) (idxs : list nat) (w : world) :
  (forall s, exists s', render bpy s = Done s') ->
  Forall (fun i => (i < 16)%nat) idxs ->
  exists w', for_each idxs (render_view math bpy a (views_dir_of o u) nv) w = (Ok tt, w').
Proof.
  intros Hr Hidx. revert w. induction Hidx as [|i idxs Hi _ IH]; intros w.
  - eexists. reflexivity.
  - cbn [for_each].
    destruct (render_view_run a o u nv i w Hi) as [s1 E].
    destruct (Hr s1) as [s Es]. rewrite Es in E.
    rewrite (bind_run _ _ _ _ _ E). apply IH.
Qed.

Lemma camera_record_spec (d : F) (cam : camera F) (i : nat) (w : world)
    (r : result (view_record F)) (w' : world) :
  camera_record math bpy d cam i w = (r, w') ->
  fs w' = fs w /\ cwd w' = cwd w
  /\ (forall rec, r = Ok rec -> view_id rec = i /\ record_ok math d cam rec)
  /\ ((i < 16)%nat -> exists rec, r = Ok rec).
Proof.
  unfold camera_record, index.
  destruct (AZIMUTHS_16 !! i) as [az|] eqn:Haz.
  2:{ intros [= <- <-]. repeat split; try discriminate.
      intros Hi. destruct (azimuth_some i Hi) as [? ?]. congruence. }
  destruct (ELEVATIONS_16 !! i) as [el|] eqn:Hel.
  2:{ intros [= <- <-]. repeat split; try discriminate.
      intros Hi. destruct (elevation_some i Hi) as [? ?]. congruence. }
  intros [= <- <-]. cbn [fs cwd set_scene].
  split; [reflexivity|]. split; [reflexivity|]. split; [|eauto].
  intros rec [= <-]. split; [reflexivity|].
  unfold record_ok. cbn. repeat split. exists az, el. auto.
Qed.

Lemma camera_records_spec (d : F) (cam : camera F) (idxs : list nat) (w : world)
    (r : result (list (view_record F))) (w' : world) :
  camera_records math bpy d cam idxs w = (r, w') ->
  fs w' = fs w /\ cwd w' = cwd w
  /\ (forall rs, r = Ok rs -> map view_id rs = idxs /\ Forall (record_ok math d cam) rs)
  /\ (Forall (fun i => (i < 16)%nat) idxs -> exists rs, r = Ok rs).
Proof.
  revert w r w'. induction idxs as [|i idxs IH]; intros w r w'.
  - intros [= <- <-]. split; [reflexivity|]. split; [reflexivity|]. split; [|eauto].
    intros rs [= <-]. auto.
  - cbn [camera_records]. unfold mbind, M_bind, seq_bind.
    destruct (camera_record math bpy d cam i w) as [[rec|e] w1] eqn:E1.
    + destruct (camera_record_spec _ _ _ _ _ _ E1) as (Hf1 & Hc1 & Hrec & _).
      destruct (Hrec rec eq_refl) as [Hid Hok].
      destruct (camera_records math bpy d cam idxs w1) as [[rs|e] w2] eqn:E2.
      * destruct (IH _ _ _ E2) as (Hf2 & Hc2 & Hrs & _).
        destruct (Hrs rs eq_refl) as [Hids Hoks].
        intros [= <- <-]. split; [congruence|]. split; [congruence|]. split; [|eauto].
        intros rs' [= <-]. cbn. split; [congruence | now constructor].
      * destruct (IH _ _ _ E2) as (Hf2 & Hc2 & _ & Htot).
        intros [= <- <-]. split; [congruence|]. split; [congruence|].
        split; [discriminate|]. intros Hall. inversion Hall; subst.
        destruct Htot as [rs' ?]; [assumption | discriminate].
    + destruct (camera_record_spec _ _ _ _ _ _ E1) as (Hf1 & Hc1 & _ & Htot).
      intros [= <- <-]. split; [exact Hf1|]. split; [exact Hc1|].
      split; [discriminate|]. intros Hall. inversion Hall; subst.
      destruct Htot as [rec' ?]; [assumption | discriminate].
Qed.

End Render.

(** *** The files of the views directory *)
Section ViewsFiles.
Import Blender.
Context {F : Type}.
Variables c o u : string.
Let key := view_key c o u.

Ltac key_ne :=
  let E := fresh in
  intros E; apply view_key_inj in E;
  first [ apply String.app_inj in E; discriminate E
        | apply view_name_inj in E; [destruct E; try lia; try discriminate | lia | lia] ].

Lemma after_view_final (i : nat) (k : image_kind) (g : gmap string (content F)) :
  after_view key i g !! key (fmt_03d i +:+ final_suffix k) = Some (Image k).
Proof.
  unfold after_view. cbv zeta. destruct k; cbn [final_suffix].
  - rewrite lookup_insert_ne, lookup_delete_ne, lookup_insert_ne, lookup_delete_ne,
      !lookup_insert_ne by key_ne. apply lookup_insert_eq.
  - rewrite lookup_insert_ne, lookup_delete_ne by key_ne. apply lookup_insert_eq.
  - apply lookup_insert_eq.
Qed.

Lemma after_view_temp (i : nat) (s : string) (g : gmap string (content F)) :
  s ∈ temp_suffixes -> after_view key i g !! key (fmt_03d i +:+ s) = None.
Proof.
  unfold temp_suffixes. rewrite !elem_of_cons, elem_of_nil. intros [->|[->|[]]];
    unfold after_view; cbv zeta.
  - rewrite lookup_insert_ne, lookup_delete_ne, lookup_insert_ne by key_ne.
    apply lookup_delete_eq.
  - rewrite lookup_insert_ne by key_ne. apply lookup_delete_eq.
Qed.

Lemma after_view_other (i : nat) (p : string) (g : gmap string (content F)) :
  (forall s, s ∈ view_suffixes -> p <> key (fmt_03d i +:+ s)) ->
  after_view key i g !! p = g !! p.
Proof.
  intros Hp. unfold after_view. cbv zeta.
  assert (Hs : forall s, s ∈ view_suffixes -> key (fmt_03d i +:+ s) <> p).
  { intros s Hin E. now apply (Hp s Hin). }
  unfold view_suffixes in Hs.
  rewrite lookup_insert_ne, lookup_delete_ne, lookup_insert_ne, lookup_delete_ne,
    !lookup_insert_ne; try reflexivity; apply Hs; set_solver.
Qed.

Lemma after_views_snoc (n : nat) (g : gmap string (content F)) :
  after_views key (seq 0 (S n)) g = after_view key n (after_views key (seq 0 n) g).
Proof. unfold after_views. rewrite seq_S, foldl_snoc. reflexivity. Qed.

Lemma other_view_ne (i j : nat) (s t : string) :
  (i < 16)%nat -> (j < 16)%nat -> i <> j ->
  key (fmt_03d i +:+ s) <> key (fmt_03d j +:+ t).
Proof. intros Hi Hj Hne. key_ne. Qed.

(** After the loop over views [0..n-1], every final image is there ... *)
Lemma after_views_final (n i : nat) (k : image_kind) (g : gmap string (content F)) :
  (n <= 16)%nat -> (i < n)%nat ->
  after_views key (seq 0 n) g !! key (fmt_03d i +:+ final_suffix k) = Some (Image k).
Proof.
  induction n as [|n IH]; intros Hn Hi; [lia|].
  rewrite after_views_snoc. destruct (decide (i = n)) as [->|Hne].
  - apply after_view_final.
  - rewrite after_view_other; [apply IH; lia|].
    intros s _. apply other_view_ne; lia.
Qed.

(** ... no temporary name is left ... *)
Lemma after_views_temp (n i : nat) (s : string) (g : gmap string (content F)) :
  (n <= 16)%nat -> (i < n)%nat -> s ∈ temp_suffixes ->
  after_views key (seq 0 n) g !! key (fmt_03d i +:+ s) = None.
Proof.
  induction n as [|n IH]; intros Hn Hi Hs; [lia|].
  rewrite after_views_snoc. destruct (decide (i = n)) as [->|Hne].
  - now apply after_view_temp.
  - rewrite after_view_other; [apply IH; [lia | lia | exact Hs]|].
    intros t _. apply other_view_ne; lia.
Qed.

(** ... and every other path is as it was. *)
Lemma after_views_other (n : nat) (p : string) (g : gmap string (content F)) :
  (forall i s, (i < n)%nat -> s ∈ view_suffixes -> p <> key (fmt_03d i +:+ s)) ->
  after_views key (seq 0 n) g !! p = g !! p.
Proof.
  induction n as [|n IH]; intros Hp; [reflexivity|].
  rewrite after_views_snoc, after_view_other.
  - apply IH. intros i s Hi. apply Hp. lia.
  - intros s. apply Hp. lia.
Qed.

Lemma cameras_key_ne (i : nat) (s : string) :
  (i < 16)%nat -> key "cameras.json" <> key (fmt_03d i +:+ s).
Proof.
  intros Hi E. apply view_key_inj in E. symmetry in E.
  now apply view_name_not_cameras in E.
Qed.

End ViewsFiles.

(** *** [save_images] *)
Section SaveImages.
Import Blender.
Context {F : Type} `{Num F} {Scene : Type}.
Variable math : Math F.
Variable bpy : Bpy F Scene.
#[local] Abbreviation M := (M F Scene).
#[local] Abbreviation world := (world F Scene).

Lemma reset_scene_run (w : world) :
  exists s, reset_scene bpy w = (Ok tt, set_scene s w).
Proof. eexists. reflexivity. Qed.

Lemma quiet_reset_scene : quiet (reset_scene bpy).
Proof.
  unfold reset_scene. repeat (apply quiet_bind; [apply quiet_host | intros _]).
  apply quiet_host.
Qed.

Lemma quiet_load_object (p : string) : quiet (load_object bpy p).
Proof.
  unfold load_object. destruct (endswith p ".glb"); [apply quiet_host_try|].
  destruct (endswith p ".fbx"); [apply quiet_host_try | apply quiet_raise].
Qed.

Lemma quiet_normalize_scene : quiet (normalize_scene bpy).
Proof.
  intros w r w1. unfold normalize_scene.
  destruct (Nat.eqb _ 0); [intros [= <- <-]; auto | apply quiet_host_try].
Qed.

Lemma quiet_setup_camera : quiet (setup_camera bpy).
Proof.
  unfold setup_camera. apply quiet_bind; [apply quiet_host_try | intros _; apply quiet_ret].
Qed.

Lemma range_n_lt (n : Z) : Forall (fun i => (i < 16)%nat) (range_n (Z.min n 16)).
Proof. apply Forall_forall. intros i Hi. apply elem_of_seq in Hi. lia. Qed.

(** A run of [save_images] that returns has been through the rendering
    loop, started on the files it found, and has then written
    [cameras.json] with one record per view, in order. *)
Lemma save_images_cameras (a : args F) (object_file : string) (w w' : world) :
  save_images math bpy a object_file w = (Ok tt, w') ->
  let u := split_first "." (basename object_file) in
  exists rs w7 w8,
    fs w7 = fs w /\ cwd w7 = cwd w
    /\ for_each (range_n (Z.min (num_images a) 16))
         (render_view math bpy a (views_dir_of (output_dir a) u) (Z.min (num_images a) 16)) w7
       = (Ok tt, w8)
    /\ fs w' = <[view_key (cwd w) (output_dir a) u "cameras.json" := CamerasJson rs]> (fs w8)
    /\ cwd w' = cwd w
    /\ map view_id rs = seq 0 (views_of a)
    /\ Forall (record_ok math (camera_dist a) rig) rs.
Proof.
  intros Hrun u. unfold save_images in Hrun. fold u in Hrun.
  apply bind_ok in Hrun as ([] & w1 & H1 & Hrun).
  apply quiet_reset_scene in H1 as [Hf1 Hc1].
  apply bind_ok in Hrun as ([] & w2 & H2 & Hrun).
  apply quiet_load_object in H2 as [Hf2 Hc2].
  apply bind_ok in Hrun as ([] & w3 & H3 & Hrun).
  apply quiet_normalize_scene in H3 as [Hf3 Hc3].
  apply bind_ok in Hrun as ([] & w4 & H4 & Hrun).
  apply quiet_host_try in H4 as [Hf4 Hc4].
  apply bind_ok in Hrun as (cam & w5 & H5 & Hrun).
  assert (cam = rig) as ->.
  { unfold setup_camera in H5. apply bind_ok in H5 as ([] & w5' & _ & H5).
    now injection H5 as <- _. }
  apply quiet_setup_camera in H5 as [Hf5 Hc5].
  apply bind_ok in Hrun as ([] & w6 & H6 & Hrun).
  apply quiet_host_try in H6 as [Hf6 Hc6].
  apply bind_ok in Hrun as ([] & w7 & H7 & Hrun).
  apply quiet_host_try in H7 as [Hf7 Hc7].
  apply bind_ok in Hrun as ([] & w8 & H8 & Hrun).
  pose proof (steady_for_each _ _ (steady_render_view math bpy a _ _) _ _ _ H8) as Hc8.
  apply bind_ok in Hrun as ([] & w9 & H9 & Hrun).
  injection Hrun as <-.
  unfold save_camera_parameters_mvd in H9.
  apply bind_ok in H9 as (rs & w10 & H10 & H9).
  apply camera_records_spec in H10 as (Hf10 & Hc10 & Hrs & _).
  destruct (Hrs rs eq_refl) as [Hids Hoks].
  rewrite write_bind in H9. injection H9 as <-.
  cbn [fs cwd set_fs].
  assert (Hcw : cwd w10 = cwd w) by congruence.
  exists rs, w7, w8.
  split; [congruence|]. split; [congruence|]. split; [exact H8|].
  split; [|auto].
  rewrite resolve_view by reflexivity. now rewrite Hcw, Hf10.
Qed.

Section OneFrame.
Hypothesis frame_one : forall s, frame_current bpy s = 1%nat.

(** With the scene at frame 1, such a run has written the images of every
    view and [cameras.json], and nothing else. *)
Lemma save_images_spec (a : args F) (object_file : string) (w w' : world) :
  save_images math bpy a object_file w = (Ok tt, w') ->
  let key := view_key (cwd w) (output_dir a) (split_first "." (basename object_file)) in
  exists rs,
    fs w' = <[key "cameras.json" := CamerasJson rs]>
              (after_views key (seq 0 (views_of a)) (fs w))
    /\ cwd w' = cwd w
    /\ map view_id rs = seq 0 (views_of a)
    /\ Forall (record_ok math (camera_dist a) rig) rs.
Proof.
  intros Hrun key.
  destruct (save_images_cameras a object_file w w' Hrun)
    as (rs & w7 & w8 & Hf7 & Hc7 & Hloop & Hfs & Hcwd & Hids & Hoks).
  apply render_loop in Hloop as (_ & Hf8 & _); [|exact frame_one | apply range_n_lt].
  specialize (Hf8 eq_refl). rewrite Hc7, Hf7 in Hf8.
  exists rs. split; [|auto]. fold key in Hfs, Hf8. now rewrite Hfs, Hf8.
Qed.

(** On a reliable host, [save_images] returns for every [.glb] or [.fbx]
    path. *)
Lemma save_images_total (a : args F) (object_file : string) (w : world) :
  reliable bpy ->
  endswith object_file ".glb" = true \/ endswith object_file ".fbx" = true ->
  exists w', save_images math bpy a object_file w = (Ok tt, w').
Proof.
  intros R Hext. unfold save_images.
  destruct (reset_scene_run w) as [s1 Hreset].
  rewrite (bind_run _ _ _ _ _ Hreset).
  set (w1 := set_scene s1 w).
  assert (Hload : exists w2, load_object bpy object_file w1 = (Ok tt, w2)).
  { unfold load_object, host_try. destruct (endswith object_file ".glb") eqn:Eg.
    - destruct (gltf_done _ R object_file (scene w1)) as [s ->]. eauto.
    - destruct Hext as [Hx|Hx]; [congruence|]. rewrite Hx.
      destruct (fbx_done _ R object_file (scene w1)) as [s ->]. eauto. }
  destruct Hload as [w2 Hload]. rewrite (bind_run _ _ _ _ _ Hload).
  assert (Hnorm : exists w3, normalize_scene bpy w2 = (Ok tt, w3)).
  { unfold normalize_scene, host_try.
    destruct (Nat.eqb_spec (mesh_count bpy (scene w2)) 0) as [E|_].
    - now apply (has_mesh _ R) in E.
    - destruct (rescale_done _ R (scene w2)) as [s ->]. eauto. }
  destruct Hnorm as [w3 Hnorm]. rewrite (bind_run _ _ _ _ _ Hnorm).
  unfold add_lighting. rewrite host_try_bind.
  destruct (relight_done _ R (scene w3)) as [s4 ->].
  unfold setup_camera.
  unfold mbind at 1, M_bind at 1, seq_bind at 1. rewrite host_try_bind. cbn [scene set_scene].
  destruct (rig_done _ R 35 32 s4) as [s5 ->]. unfold ret at 1.
  rewrite host_try_bind. cbn [scene set_scene].
  destruct (track_done _ R s5) as [s6 ->].
  rewrite host_try_bind. cbn [scene set_scene].
  destruct (wire_done _ R (views_dir_of (output_dir a) (split_first "." (basename object_file))) s6)
    as [s7 ->].
  destruct (render_loop_total math bpy frame_one a (output_dir a)
              (split_first "." (basename object_file)) (Z.min (num_images a) 16)
              (range_n (Z.min (num_images a) 16))
              (set_scene s7 (set_scene s6 (set_scene s5 (set_scene s4 w3))))
              (render_done _ R) (range_n_lt _)) as [w8 Hloop].
  rewrite (bind_run _ _ _ _ _ Hloop).
  unfold save_camera_parameters_mvd.
  destruct (camera_records math bpy (camera_dist a) rig (range_n (Z.min (num_images a) 16)) w8)
    as [r w9] eqn:Hrec.
  destruct (camera_records_spec _ _ _ _ _ _ _ _ Hrec) as (_ & _ & _ & Htot).
  destruct (Htot (range_n_lt _)) as [rs ->].
  unfold rig in Hrec.
  unfold mbind at 1, M_bind at 1, seq_bind at 1.
  unfold mbind at 1, M_bind at 1, seq_bind at 1.
  rewrite Hrec. eexists. reflexivity.
Qed.

End OneFrame.
End SaveImages.

(** *** What a run leaves on disk *)
Section Outputs.
Import Blender.
Variables c o u : string.
Let key := view_key c o u.

Lemma image_files_spec (n : nat) (k : image_kind) (p : string) :
  p ∈ image_files key n k <-> exists i, (i < n)%nat /\ p = key (fmt_03d i +:+ final_suffix k).
Proof.
  unfold image_files. rewrite list_elem_of_fmap. split.
  - intros (i & -> & Hi). apply elem_of_seq in Hi. exists i. split; [lia | reflexivity].
  - intros (i & Hi & ->). exists i. split; [reflexivity | apply elem_of_seq; lia].
Qed.

Lemma image_files_NoDup (n : nat) (k : image_kind) :
  (n <= 16)%nat -> NoDup (image_files key n k).
Proof.
  intros Hn. unfold image_files. apply NoDup_fmap_2_strong; [|apply NoDup_seq].
  intros i j Hi Hj E. apply elem_of_seq in Hi, Hj.
  apply view_key_inj, view_name_inj in E; [tauto | lia | lia].
Qed.

Lemma outputs_NoDup (n : nat) : (n <= 16)%nat -> NoDup (outputs key n).
Proof.
  intros Hn. unfold outputs.
  assert (Hk : forall k1 k2 p, k1 <> k2 -> p ∈ image_files key n k1 -> p ∈ image_files key n k2 -> False).
  { intros k1 k2 p Hne H1 H2.
    apply image_files_spec in H1 as (i & Hi & ->).
    apply image_files_spec in H2 as (j & Hj & E).
    apply view_key_inj, view_name_inj in E as [_ E]; [|lia|lia].
    destruct k1, k2; try discriminate E; contradiction. }
  assert (Hc : forall k p, p ∈ image_files key n k -> p ∈ [key "cameras.json"] -> False).
  { intros k p H1 H2. apply image_files_spec in H1 as (i & Hi & ->).
    apply list_elem_of_singleton in H2. symmetry in H2.
    revert H2. apply cameras_key_ne. lia. }
  repeat (apply NoDup_app; split; [now apply image_files_NoDup|]; split;
          [intros p Hp; rewrite ?elem_of_app; intros Hq|]).
  - destruct Hq as [Hq|[Hq|Hq]]; [eapply (Hk Rgb Depth) | eapply (Hk Rgb Mask) | eapply Hc]; eauto.
  - destruct Hq as [Hq|Hq]; [eapply (Hk Depth Mask) | eapply Hc]; eauto.
  - eapply Hc; eauto.
  - apply NoDup_singleton.
Qed.

Lemma temp_files_spec (n : nat) (p : string) :
  p ∈ temp_files key n
  <-> exists i s, (i < n)%nat /\ s ∈ temp_suffixes /\ p = key (fmt_03d i +:+ s).
Proof.
  unfold temp_files, temp_suffixes. rewrite elem_of_app, !list_elem_of_fmap. split.
  - intros [(i & -> & Hi)|(i & -> & Hi)]; apply elem_of_seq in Hi;
      eexists i, _; (split; [lia|]); (split; [|reflexivity]); set_solver.
  - intros (i & s & Hi & Hs & ->). rewrite !elem_of_cons, elem_of_nil in Hs.
    destruct Hs as [->|[->|[]]]; [left | right]; exists i;
      (split; [reflexivity | apply elem_of_seq; lia]).
Qed.

Lemma not_output_other (n : nat) (p : string) :
  p ∉ outputs key n -> p ∉ temp_files key n ->
  (forall i s, (i < n)%nat -> s ∈ view_suffixes -> p <> key (fmt_03d i +:+ s))
  /\ p <> key "cameras.json".
Proof.
  intros Hout Htmp'. unfold outputs in Hout. rewrite !elem_of_app in Hout.
  assert (Htmp : forall i s, (i < n)%nat -> s ∈ temp_suffixes -> p <> key (fmt_03d i +:+ s)).
  { intros i s Hi Hs E. apply Htmp', temp_files_spec. eauto. }
  split.
  - intros i s Hi Hs. unfold view_suffixes in Hs. rewrite !elem_of_cons, elem_of_nil in Hs.
    destruct Hs as [->|[->|[->|[->|[->|[]]]]]].
    + intros E. apply Hout. left. apply image_files_spec. exists i. now split.
    + intros E. apply Hout. right. left. apply (image_files_spec n Depth). exists i. now split.
    + intros E. apply Hout. right. right. left. apply (image_files_spec n Mask). exists i. now split.
    + apply Htmp; [exact Hi | set_solver].
    + apply Htmp; [exact Hi | set_solver].
  - intros E. apply Hout. right. right. right. now apply list_elem_of_singleton.
Qed.

End Outputs.

Section Demo.
Import Blender.

Lemma null_host_reliable {F} (origin : vec F) : reliable (null_host F origin).
Proof. constructor; intros; try discriminate; eexists; reflexivity. Qed.

Lemma demo_frame {F} `{Num F} : forall s, frame_current (demo_host F) s = 1%nat.
Proof. reflexivity. Qed.

(** The stand-in host renders [cube.glb] whatever number of images is
    asked for. *)
Lemma demo_run {F} `{Num F} (math : Math F) (n : Z) :
  exists w', save_images math (demo_host F) (demo_args n) "cube.glb" (demo_world F) = (Ok tt, w').
Proof.
  apply save_images_total; [apply demo_frame | apply null_host_reliable | left; reflexivity].
Qed.

End Demo.

Section CameraPipelineOutputs.
Import Blender.
Context {F : Type} `{Num F} {Scene : Type}.
Variable math : Math F.
Variable bpy : Bpy F Scene.

(** C1, amended: a run of [save_images] that returns, on a scene at frame
    1, has rendered [n = min(num_images, 16)] views (none when that is
    negative; 16 when [num_images >= 16], as with the default 64).  In the
    views directory there are then the [n] RGB, [n] depth and [n] mask
    images of views [0..n-1] under their final names, all distinct, and
    [cameras.json], which holds exactly [n] records, record [i] with
    [view_id = i]; no temporary name of these views is left, every other
    path is as before, and in a directory that was empty these [3n + 1]
    files are all there is. *)
Theorem save_images_outputs (a : args F) (object_file : string) (w w' : world F Scene) :
  (forall s, frame_current bpy s = 1%nat) ->
  save_images math bpy a object_file w = (Ok tt, w') ->
  let n := Z.to_nat (Z.min (num_images a) 16) in
  let views_dir := views_dir_of (output_dir a) (split_first "." (basename object_file)) in
  let key := view_key (cwd w) (output_dir a) (split_first "." (basename object_file)) in
  (n <= 16)%nat
  /\ (16 <= num_images a -> n = 16%nat)
  /\ (forall name, startswith name "/" = false ->
        resolve w (path_join views_dir name) = key name)
  /\ (forall k, length (image_files key n k) = n)
  /\ NoDup (outputs key n)
  /\ (forall k p, p ∈ image_files key n k -> fs w' !! p = Some (Image k))
  /\ (exists camera_params,
        fs w' !! key "cameras.json" = Some (CamerasJson camera_params)
        /\ length camera_params = n
        /\ map view_id camera_params = seq 0 n
        /\ (forall i r, camera_params !! i = Some r -> view_id r = i))
  /\ (forall p, p ∈ temp_files key n -> fs w' !! p = None)
  /\ (forall p, p ∉ outputs key n -> p ∉ temp_files key n -> fs w' !! p = fs w !! p)
  /\ (fs w = ∅ -> dom (fs w') = list_to_set (outputs key n)).
Proof.
  intros Hframe Hrun n views_dir key.
  destruct (save_images_spec math bpy Hframe a object_file w w' Hrun) as (rs & Hfs & Hcwd & Hids & _).
  fold key in Hfs. change (views_of a) with n in Hfs, Hids.
  assert (Hn : (n <= 16)%nat) by (unfold n; lia).
  assert (Himg : forall k p, p ∈ image_files key n k -> fs w' !! p = Some (Image k)).
  { intros k p Hp. apply image_files_spec in Hp as (i & Hi & ->). rewrite Hfs.
    rewrite lookup_insert_ne by (apply cameras_key_ne; lia).
    now apply after_views_final. }
  assert (Htmp : forall p, p ∈ temp_files key n -> fs w' !! p = None).
  { intros p Hp. apply temp_files_spec in Hp as (i & s & Hi & Hs & ->). rewrite Hfs.
    rewrite lookup_insert_ne by (apply cameras_key_ne; lia).
    now apply after_views_temp. }
  assert (Hother : forall p, p ∉ outputs key n -> p ∉ temp_files key n ->
            fs w' !! p = fs w !! p).
  { intros p Hout Hnt. destruct (not_output_other _ _ _ n p Hout Hnt) as [Hv Hc].
    rewrite Hfs, lookup_insert_ne by (intros E; now apply Hc).
    now apply after_views_other. }
  split; [exact Hn|]. split; [unfold n; lia|].
  split; [intros name Hname; now apply resolve_view|].
  split; [intros k; unfold image_files; now rewrite length_map, length_seq|].
  split; [now apply outputs_NoDup|]. split; [exact Himg|].
  split.
  { exists rs. split; [rewrite Hfs; apply lookup_insert_eq|].
    assert (Hlen : length rs = n) by (rewrite <- (length_map view_id), Hids; apply length_seq).
    split; [exact Hlen|]. split; [exact Hids|].
    intros i r Hi.
    assert (Hm : map view_id rs !! i = Some (view_id r)) by (rewrite list_lookup_fmap, Hi; reflexivity).
    rewrite Hids in Hm. apply lookup_seq in Hm. lia. }
  split; [exact Htmp|]. split; [exact Hother|].
  intros Hempty. apply set_eq. intros p. rewrite elem_of_dom, elem_of_list_to_set.
  split.
  - intros Hsome. destruct (decide (p ∈ outputs key n)) as [|Hout]; [assumption|].
    exfalso.
    destruct (decide (p ∈ temp_files key n)) as [Ht|Hnt].
    + rewrite Htmp in Hsome by assumption. now destruct Hsome.
    + rewrite Hother, Hempty, lookup_empty in Hsome by assumption. now destruct Hsome.
  - unfold outputs. rewrite !elem_of_app. intros [Hp|[Hp|[Hp|Hp]]].
    + rewrite (Himg _ _ Hp). eauto.
    + rewrite (Himg _ _ Hp). eauto.
    + rewrite (Himg _ _ Hp). eauto.
    + apply list_elem_of_singleton in Hp as ->. rewrite Hfs, lookup_insert_eq. eauto.
Qed.

End CameraPipelineOutputs.

Section CameraPipelineRuns.
Import Blender.

(** C1 as stated fails: asked for 4 images, the run returns with 4 views:
    [cameras.json] holds 4 records, the RGB image of view 3 is there and
    that of view 4 is not. *)
Lemma save_images_four_views :
  exists w' camera_params,
    save_images real_math (demo_host R) (demo_args 4) "cube.glb" (demo_world R) = (Ok tt, w')
    /\ fs w' !! "/work/./views/cube/views/cameras.json" = Some (CamerasJson camera_params)
    /\ length camera_params = 4%nat
    /\ fs w' !! "/work/./views/cube/views/003_rgb.jpg" = Some (Image Rgb)
    /\ fs w' !! "/work/./views/cube/views/004_rgb.jpg" = None.
Proof.
  destruct (demo_run real_math 4) as [w' Hrun].
  destruct (save_images_spec real_math (demo_host R) demo_frame _ _ _ _ Hrun)
    as (rs & Hfs & _ & Hids & _).
  cbn [cwd demo_world output_dir demo_args] in Hfs.
  change (views_of (demo_args 4)) with 4%nat in Hfs, Hids.
  exists w', rs. split; [exact Hrun|]. rewrite Hfs.
  set (key := view_key "/work" "./views" (split_first "." (basename "cube.glb"))).
  split; [apply (lookup_insert_eq _ (key "cameras.json"))|].
  split; [rewrite <- (length_map view_id), Hids; reflexivity|].
  split.
  - change "/work/./views/cube/views/003_rgb.jpg"%string
      with (key (fmt_03d 3 +:+ final_suffix Rgb)).
    rewrite lookup_insert_ne by (apply cameras_key_ne; lia).
    apply after_views_final; lia.
  - change "/work/./views/cube/views/004_rgb.jpg"%string
      with (key (fmt_03d 4 +:+ "_rgb.jpg")).
    rewrite lookup_insert_ne by (apply cameras_key_ne; lia).
    unfold key. rewrite after_views_other; [reflexivity|].
    intros i s Hi _. apply other_view_ne; lia.
Qed.

(** Witness of C1, amended: the default 64 images give 16 views, and in the
    empty directory the 49 outputs are all there is. *)
Lemma save_images_outputs_witness :
  exists w' camera_params,
    save_images real_math (demo_host R) (demo_args 64) "cube.glb" (demo_world R) = (Ok tt, w')
    /\ fs w' !! "/work/./views/cube/views/cameras.json" = Some (CamerasJson camera_params)
    /\ map view_id camera_params = seq 0 16
    /\ dom (fs w')
       = list_to_set (outputs (fun name => "/work/./views/cube/views/" +:+ name) 16).
Proof.
  destruct (demo_run real_math 64) as [w' Hrun].
  destruct (save_images_outputs real_math (demo_host R) (demo_args 64) "cube.glb"
              (demo_world R) w' demo_frame Hrun)
    as (_ & _ & _ & _ & _ & _ & (rs & Hcam & _ & Hids & _) & _ & _ & Hdom).
  exists w', rs. split; [exact Hrun|]. split; [exact Hcam|]. split; [exact Hids|].
  exact (Hdom eq_refl).
Defined.

End CameraPipelineRuns.

Section Tables.
Import Blender.

(** The tables at binary64 are the literals of the source. *)
Example tables_binary64 :
  AZIMUTHS_16 (F:=float)
  = [0.0; 0.7853981852531433; 1.5707963705062866; 2.356194496154785;
     3.1415927410125732; 3.9269907474517822; 4.71238899230957; 5.497786998748779;
     0.39269909262657166; 1.1780972480773926; 1.9634954929351807; 2.7488934993743896;
     3.5342917442321777; 4.319689750671387; 5.105088233947754; 5.890486240386963]%float
  /\ ELEVATIONS_16 (F:=float) = replicate 16 0.5235987901687622%float
  /\ camera_dist (demo_args (F:=float) 64) = 1.5%float.
Proof. repeat split; reflexivity. Qed.

End Tables.

(** *** The camera position *)
Section Trig.
Local Open Scope R_scope.








End Trig.

Section CameraPosition.
Import Blender.
Local Open Scope R_scope.


End CameraPosition.


(** *** The intrinsics *)

Section Intrinsics.
Import Blender.

Lemma intrinsics_binary64 :
  intrinsics (rig (F:=float)) = (32, 280, 280, 128, 128)%float.
Proof. reflexivity. Qed.

Lemma intrinsics_reals :
  intrinsics (rig (F:=R)) = (32, 280, 280, 128, 128)%R.
Proof.
  unfold intrinsics, rig, resolution_x, resolution_y. cbn.
  repeat f_equal; field.
Qed.

(** C7: the intrinsics are [f_x = focal_length * resolution_x /
    sensor_width] and [f_y = focal_length * resolution_y / sensor_height]
    with [sensor_height = sensor_width * (resolution_y / resolution_x)], and
    the principal point is [(resolution_x / 2, resolution_y / 2)]; for the
    camera of the script (lens 35, sensor width 32, 256 x 256 pixels) this
    is [f_x = f_y = 280.0] and [(128.0, 128.0)], in binary64 exactly as over
    the reals; and after a run of [save_images] that returns, every record
    of [cameras.json] carries these values. *)
Theorem intrinsics_280 {Scene : Type} (math : Math float) (bpy : Bpy float Scene)
    (a : args float) (object_file : string) (w w' : world float Scene) :
  save_images math bpy a object_file w = (Ok tt, w') ->
  (forall (F : Type) (N : Num F) (cam : camera F),
     let sensor_height := (sensor_width cam * (of_int resolution_y / of_int resolution_x))%num in
     intrinsics cam
     = (sensor_height,
        (lens cam * of_int resolution_x / sensor_width cam)%num,
        (lens cam * of_int resolution_y / sensor_height)%num,
        (of_int resolution_x / of_int 2)%num,
        (of_int resolution_y / of_int 2)%num))
  /\ intrinsics (rig (F:=float)) = (32, 280, 280, 128, 128)%float
  /\ intrinsics (rig (F:=R)) = (32, 280, 280, 128, 128)%R
  /\ exists camera_params,
       fs w' !! view_key (cwd w) (output_dir a) (split_first "." (basename object_file))
                  "cameras.json"
       = Some (CamerasJson camera_params)
       /\ length camera_params = Z.to_nat (Z.min (num_images a) 16)
       /\ Forall (fun r => focal_length r = [280; 280]%float
                           /\ principal_point r = [128; 128]%float
                           /\ sensor_size r = [32; 32]%float
                           /\ image_size r = [256; 256]) camera_params.
Proof.
  intros Hrun.
  split; [reflexivity|]. split; [exact intrinsics_binary64|].
  split; [exact intrinsics_reals|].
  destruct (save_images_cameras math bpy a object_file w w' Hrun)
    as (rs & w7 & w8 & _ & _ & _ & Hfs & _ & Hids & Hok).
  exists rs. split; [rewrite Hfs; apply lookup_insert_eq|]. split.
  - rewrite <- (length_map view_id), Hids. apply length_seq.
  - eapply Forall_impl; [exact Hok|]. intros r Hr.
    unfold record_ok in Hr. rewrite intrinsics_binary64 in Hr.
    destruct Hr as (Hf & Hp & Hs & Hi & _). auto.
Qed.

(** Witness of C7: a run in binary64 with 16 views. *)
Lemma intrinsics_280_witness :
  exists w' camera_params,
    save_images series_math (demo_host float) (demo_args 64) "cube.glb" (demo_world float)
    = (Ok tt, w')
    /\ fs w' !! "/work/./views/cube/views/cameras.json" = Some (CamerasJson camera_params)
    /\ length camera_params = 16%nat
    /\ Forall (fun r => focal_length r = [280; 280]%float
                        /\ principal_point r = [128; 128]%float) camera_params.
Proof.
  destruct (demo_run series_math 64) as [w' Hrun].
  destruct (intrinsics_280 series_math (demo_host float) (demo_args 64) "cube.glb"
              (demo_world float) w' Hrun)
    as (_ & _ & _ & rs & Hcam & Hlen & Hall).
  exists w', rs. split; [exact Hrun|]. split; [exact Hcam|]. split; [exact Hlen|].
  eapply Forall_impl; [exact Hall|]. intros r (Hf & Hp & _). auto.
Defined.

End Intrinsics.

(** *** Loading and downloading an asset *)
Section Loader.
Import Blender.
Context {F : Type} `{Num F} {Scene : Type}.
Variable math : Math F.
Variable bpy : Bpy F Scene.
Variable net : string -> fetch.
#[local] Abbreviation M := (M F Scene).
#[local] Abbreviation world := (world F Scene).

(** C8: [load_object] raises its [ValueError] ("Unsupported file type")
    exactly when the path ends neither in [.glb] nor in [.fbx]; the error
    then leaves [save_images] before anything is rendered or written; and
    [__main__] lets no exception through: it returns, and for such a local
    path it has printed the failure, the exception and the traceback, the
    files being as they were. *)
Theorem unsupported_format (a : args F) (path : string) (w : world) :
  let unsupported :=
    ~ (exists stem, path = stem +:+ ".glb") /\ ~ (exists stem, path = stem +:+ ".fbx") in
  let err := ValueError ("Unsupported file type: " +:+ path) in
  ((exists msg w1, load_object bpy path w = (Raise (ValueError msg), w1)) <-> unsupported)
  /\ (unsupported -> load_object bpy path w = (Raise err, w))
  /\ (unsupported ->
        exists w1, save_images math bpy a path w = (Raise err, w1)
                   /\ fs w1 = fs w /\ cwd w1 = cwd w /\ log w1 = log w)
  /\ (exists w', main math bpy net a w = (Ok tt, w'))
  /\ (unsupported -> object_path a = path -> startswith path "http" = false ->
        exists w', main math bpy net a w = (Ok tt, w')
                   /\ fs w' = fs w
                   /\ log w' = log w ++ [FailedToRender path; PrintedException err; Traceback err]).
Proof.
  intros unsupported err.
  assert (Hun : unsupported <-> endswith path ".glb" = false /\ endswith path ".fbx" = false).
  { unfold unsupported. rewrite <- !endswith_spec, !not_true_iff_false. reflexivity. }
  assert (Hload : unsupported -> forall w0 : world, load_object bpy path w0 = (Raise err, w0)).
  { intros Hu w0. apply Hun in Hu as [Hg Hf]. unfold load_object. now rewrite Hg, Hf. }
  assert (Hsave : unsupported ->
            exists w1, save_images math bpy a path w = (Raise err, w1)
                       /\ fs w1 = fs w /\ cwd w1 = cwd w /\ log w1 = log w).
  { intros Hu. unfold save_images.
    destruct (reset_scene_run bpy w) as [s1 Hreset].
    rewrite (bind_run _ _ _ _ _ Hreset).
    rewrite (bind_run_raise _ _ _ _ _ (Hload Hu _)).
    eexists. split; [reflexivity|]. auto. }
  split; [|split; [|split; [|split]]].
  - rewrite Hun. split.
    + intros (msg & w1 & Hr). unfold load_object in Hr.
      destruct (endswith path ".glb"); [now apply host_try_not_value_error in Hr|].
      destruct (endswith path ".fbx"); [now apply host_try_not_value_error in Hr|].
      auto.
    + intros Hu. eexists _, w. apply Hload, Hun, Hu.
  - intros Hu. apply Hload, Hu.
  - exact Hsave.
  - destruct (try_except_total (main_body math bpy net a)
                (fun e => _ ← print (FailedToRender (object_path a));
                          _ ← print (PrintedException e); print (Traceback e)) w)
      as ([] & w' & Hm); [|eauto].
    intros e w1. eexists _, _. reflexivity.
  - intros Hu Hpath Hhttp. destruct (Hsave Hu) as (w1 & Hs & Hf & Hc & Hl).
    unfold main, try_except, main_body. rewrite Hpath, Hhttp.
    change (ret path ≫= ?k) with (k path). cbv beta.
    rewrite (bind_run_raise _ _ _ _ _ Hs).
    eexists. split; [reflexivity|]. cbn [fs log]. rewrite Hf, Hl.
    split; [reflexivity|]. now rewrite <- !app_assoc.
Qed.

(** C9: [download_object] fetches into the temporary path
    [tmp-objects/{uid}.glb.tmp], which differs from the canonical path
    [tmp-objects/{uid}.glb], and [urlretrieve] never touches the canonical
    path.  When the whole body arrives, the rename puts it at the canonical
    path and the temporary path is gone; when the download fails, at
    whatever point, [download_object] raises, the canonical path is as it
    was (absent when it was absent), and only the temporary path can hold
    what had arrived. *)
Theorem download_atomic (object_url : string) (w : world) :
  let uid := split_first "." (split_last "/" object_url) in
  let tmp_local_path := path_join "tmp-objects" (uid +:+ ".glb.tmp") in
  let local_path := path_join "tmp-objects" (uid +:+ ".glb") in
  let canonical := resolve w local_path in
  let temporary := resolve w tmp_local_path in
  temporary = canonical +:+ ".tmp"
  /\ temporary <> canonical
  /\ (forall r w1, urlretrieve net object_url tmp_local_path w = (r, w1) ->
        fs w1 !! canonical = fs w !! canonical)
  /\ (forall body, net object_url = Fetched body ->
        exists w', download_object net object_url w = (Ok canonical, w')
                   /\ fs w' !! canonical = Some (Asset body)
                   /\ fs w' !! temporary = None
                   /\ (forall p, p <> canonical -> p <> temporary -> fs w' !! p = fs w !! p))
  /\ (forall part, net object_url = Broken part ->
        exists w', download_object net object_url w = (Raise (HostError "urlretrieve"), w')
                   /\ fs w' !! canonical = fs w !! canonical
                   /\ (forall p, p <> temporary -> fs w' !! p = fs w !! p)
                   /\ fs w' !! temporary
                      = match part with
                        | Some bytes => Some (Asset bytes)
                        | None => fs w !! temporary
                        end).
Proof.
  intros uid tmp_local_path local_path canonical temporary.
  assert (Hglb : uid +:+ ".glb" <> ""%string).
  { intros E. apply (f_equal len) in E. rewrite len_append in E.
    unfold len in E. simpl in E. lia. }
  assert (Hlocal : local_path <> ""%string).
  { unfold local_path, path_join.
    destruct (startswith (uid +:+ ".glb") "/"); [exact Hglb|].
    cbn. discriminate. }
  assert (Htmp : temporary = canonical +:+ ".tmp").
  { unfold temporary, canonical, tmp_local_path, local_path, resolve.
    change (uid +:+ ".glb.tmp") with (uid +:+ ".glb" +:+ ".tmp").
    rewrite <- append_assoc, path_join_prefix by exact Hglb.
    apply path_join_prefix. exact Hlocal. }
  assert (Hdiff : temporary <> canonical).
  { rewrite Htmp. intros E. apply (f_equal len) in E. rewrite len_append in E.
    unfold len in E. simpl in E. lia. }
  split; [exact Htmp|]. split; [exact Hdiff|]. split; [|split].
  - intros r w1. unfold urlretrieve.
    destruct (net object_url) as [body|[part|]].
    + intros [= <- <-]. cbn [fs set_fs]. now apply lookup_insert_ne.
    + intros [= <- <-]. cbn [fs set_fs]. now apply lookup_insert_ne.
    + now intros [= <- <-].
  - intros body Hnet. unfold download_object, urlretrieve. rewrite Hnet. cbv iota.
    rewrite write_bind.
    unfold mbind, M_bind, seq_bind, rename, abspath. cbn [fs set_fs].
    change (resolve (set_fs ?f w) ?p) with (resolve w p).
    fold tmp_local_path local_path temporary canonical.
    rewrite lookup_insert_eq. eexists. split; [reflexivity|]. cbn [fs set_fs].
    split; [apply lookup_insert_eq|]. split.
    + rewrite lookup_insert_ne by auto. apply lookup_delete_eq.
    + intros p Hp1 Hp2. rewrite lookup_insert_ne, lookup_delete_ne, lookup_insert_ne by auto.
      reflexivity.
  - intros part Hnet. unfold download_object, urlretrieve. rewrite Hnet.
    destruct part as [bytes|]; cbv iota.
    + unfold mbind at 1, M_bind at 1, seq_bind at 1. rewrite !write_bind. eexists. split; [reflexivity|]. cbn [fs set_fs].
      fold tmp_local_path temporary.
      split; [now apply lookup_insert_ne|]. split; [|apply lookup_insert_eq].
      intros p Hp. now apply lookup_insert_ne.
    + eexists. split; [reflexivity|]. auto.
Qed.

End Loader.

(* ===================================================================== *)
(** * Part III: further properties                                        *)
(* ===================================================================== *)

(** ** More on strings and paths *)
Section PyMore.

Lemma endswith_prefix (a b suf : string) :
  endswith b suf = true -> endswith (a +:+ b) suf = true.
Proof.
  intros Hb. apply endswith_spec in Hb as [stem ->].
  apply endswith_spec. exists (a +:+ stem). now rewrite append_assoc.
Qed.

(** A string has one suffix of each length. *)
Lemma endswith_same_length (s a b : string) :
  endswith s a = true -> endswith s b = true -> len a = len b -> a = b.
Proof.
  unfold endswith. rewrite !andb_true_iff, !String.eqb_eq.
  intros [_ Ha] [_ Hb] L. rewrite L in Ha. congruence.
Qed.

Lemma endswith_path_join (c p suf : string) :
  endswith p suf = true -> endswith (path_join c p) suf = true.
Proof.
  intros Hp. unfold path_join. destruct (startswith p "/"); [exact Hp|].
  destruct (String.eqb c "" || endswith c "/"); repeat apply endswith_prefix; exact Hp.
Qed.

(** Whether a character occurs in a string. *)
Lemma occurs_append (d : ascii) (a b : string) :
  existsb (Ascii.eqb d) (list_ascii_of_string (a +:+ b))
  = existsb (Ascii.eqb d) (list_ascii_of_string a)
    || existsb (Ascii.eqb d) (list_ascii_of_string b).
Proof.
  induction a as [|x a IH]; [reflexivity|].
  rewrite append_cons. simpl. now rewrite IH, orb_assoc.
Qed.

Lemma split_last_free (sep : ascii) (s : string) :
  existsb (Ascii.eqb sep) (list_ascii_of_string (split_last sep s)) = false.
Proof.
  induction s as [|c s IH]; [reflexivity|].
  cbn [split_last].
  destruct (existsb (Ascii.eqb sep) (list_ascii_of_string s)) eqn:E; [exact IH|].
  destruct (Ascii.eqb c sep) eqn:Ec; [exact E|].
  simpl. rewrite E, Ascii.eqb_sym, Ec. reflexivity.
Qed.

Lemma split_first_free (sep : ascii) (s : string) :
  existsb (Ascii.eqb sep) (list_ascii_of_string (split_first sep s)) = false.
Proof.
  induction s as [|c s IH]; [reflexivity|].
  cbn [split_first]. destruct (Ascii.eqb c sep) eqn:Ec; [reflexivity|].
  simpl. now rewrite IH, Ascii.eqb_sym, Ec.
Qed.

Lemma split_first_keeps_free (d sep : ascii) (s : string) :
  existsb (Ascii.eqb d) (list_ascii_of_string s) = false ->
  existsb (Ascii.eqb d) (list_ascii_of_string (split_first sep s)) = false.
Proof.
  induction s as [|c s IH]; [reflexivity|].
  simpl. intros E. apply orb_false_iff in E as [E1 E2].
  destruct (Ascii.eqb c sep); [reflexivity|]. simpl. now rewrite E1, IH.
Qed.

(** [s.split(sep)[-1]] of a string whose last [sep] is known. *)
Lemma split_last_append (sep : ascii) (a b : string) :
  existsb (Ascii.eqb sep) (list_ascii_of_string b) = false ->
  split_last sep (a +:+ String sep b) = b.
Proof.
  intros Hb. induction a as [|c a IH].
  - rewrite append_nil_l. cbn [split_last]. now rewrite Hb, Ascii.eqb_refl.
  - rewrite append_cons. cbn [split_last]. rewrite occurs_append. simpl.
    now rewrite Ascii.eqb_refl, orb_true_r.
Qed.

(** [s.split(sep)[0]] of a string whose first [sep] is known. *)
Lemma split_first_append (sep : ascii) (a b : string) :
  existsb (Ascii.eqb sep) (list_ascii_of_string a) = false ->
  split_first sep (a +:+ String sep b) = a.
Proof.
  induction a as [|c a IH]; intros Ha.
  - rewrite append_nil_l. cbn [split_first]. now rewrite Ascii.eqb_refl.
  - rewrite append_cons. cbn [split_first]. simpl in Ha.
    apply orb_false_iff in Ha as [Hc Ha]. rewrite Ascii.eqb_sym, Hc. f_equal. now apply IH.
Qed.

Lemma startswith_free (d : ascii) (a b : string) :
  existsb (Ascii.eqb d) (list_ascii_of_string (a +:+ b)) = false ->
  startswith (a +:+ b) (String d "") = false.
Proof.
  destruct (a +:+ b) as [|c s]; [reflexivity|]. simpl.
  intros E. apply orb_false_iff in E as [-> _]. reflexivity.
Qed.

(** A path joined onto an absolute directory is absolute, and joining an
    absolute path onto anything gives it back. *)
Lemma path_join_absolute (c p : string) :
  startswith c "/" = true -> startswith (path_join c p) "/" = true.
Proof.
  intros Hc. unfold path_join. destruct (startswith p "/") eqn:Hp; [exact Hp|].
  apply startswith_spec in Hc as [post ->].
  destruct (String.eqb _ "" || endswith _ "/"); reflexivity.
Qed.

Lemma path_join_onto_absolute (c p : string) :
  startswith p "/" = true -> path_join c p = p.
Proof. intros Hp. unfold path_join. now rewrite Hp. Qed.

End PyMore.

(** ** More on the URL resolver / batcher *)
Section BatcherMore.
Import Batcher.

Lemma resolve_urls_omap (object_paths : gmap string string) (uids : list string) :
  (resolve_urls object_paths uids).1
  = omap (fun uid => (fun p => base_url +:+ p) <$> object_paths !! uid) uids.
Proof.
  induction uids as [|uid uids IH]; [reflexivity|].
  cbn [resolve_urls]. destruct (resolve_urls object_paths uids) as [urls missing].
  simpl in IH. subst urls. simpl. destruct (object_paths !! uid); reflexivity.
Qed.

Lemma resolve_urls_missing (object_paths : gmap string string) (uids : list string) :
  (resolve_urls object_paths uids).2
  = length (filter (fun uid => object_paths !! uid = None) uids).
Proof.
  induction uids as [|uid uids IH]; [reflexivity|].
  cbn [resolve_urls]. destruct (resolve_urls object_paths uids) as [urls missing].
  simpl in IH. destruct (object_paths !! uid) eqn:E; simpl.
  - rewrite filter_cons_False by congruence. exact IH.
  - rewrite filter_cons_True by exact E. simpl. congruence.
Qed.

Lemma resolve_urls_total (object_paths : gmap string string) (uids : list string) :
  (length (resolve_urls object_paths uids).1 + (resolve_urls object_paths uids).2
   = length uids)%nat.
Proof.
  induction uids as [|uid uids IH]; [reflexivity|].
  cbn [resolve_urls]. destruct (resolve_urls object_paths uids) as [urls missing].
  simpl in IH. destruct (object_paths !! uid); simpl; lia.
Qed.

Lemma batch_events_pos (urls : list string) (B : Z) :
  0 < B ->
  batch_events urls B
  = Ok (imap (fun k b => CreatedBatch (Z.of_nat k) (length b)) (batches_of urls B)).
Proof.
  intros HB. unfold batch_events. rewrite range_pos by exact HB.
  change (Ok ?x ≫= ?f) with (f x). cbv beta. f_equal.
  unfold batches_of. rewrite map_map, imap_fmap.
  generalize (batch_count (length urls) B). intros c.
  assert (G : forall s,
    map (fun k : nat => CreatedBatch (Z.of_nat k * B / B)
                          (length (slice urls (Z.of_nat k * B) (Z.of_nat k * B + B)))) (seq s c)
    = imap (fun n k => CreatedBatch (Z.of_nat (s + n))
                         (length (slice urls (Z.of_nat k * B) (Z.of_nat k * B + B)))) (seq s c)).
  { induction c as [|c IH]; intros s; [reflexivity|].
    simpl. f_equal.
    - rewrite Z.div_mul by lia. do 2 f_equal. lia.
    - rewrite IH. apply imap_ext. intros n k _. simpl. do 2 f_equal. lia. }
  rewrite G. apply imap_ext. intros n k Hk. reflexivity.
Qed.

Lemma batch_names_NoDup (o : string) (bs : list (list string)) :
  NoDup (map fst (imap (fun (k : nat) b => (batch_file o (Z.of_nat k), b)) bs)).
Proof.
  apply NoDup_alt. intros i j x Hi Hj.
  apply list_lookup_fmap_Some in Hi as ([n1 b1] & -> & Hi).
  apply list_lookup_fmap_Some in Hj as ([n2 b2] & Hx & Hj).
  apply list_lookup_imap_Some in Hi as (b1' & Hi & [= -> ->]).
  apply list_lookup_imap_Some in Hj as (b2' & Hj & [= -> ->]).
  simpl in Hx. apply batch_file_inj in Hx. lia.
Qed.

(** The run of [create_download_list] for a positive batch size, in one
    equation. *)
Lemma create_download_list_pos (object_paths : gmap string string) (fs : files)
    (file o : string) (B : Z) (uids : list string) :
  0 < B -> fs !! file = Some uids ->
  let urls := (resolve_urls object_paths uids).1 in
  create_download_list object_paths file o B fs
  = Ok (<[all_file o := urls]>
          (write_all (imap (fun (k : nat) b => (batch_file o (Z.of_nat k), b)) (batches_of urls B)) fs),
        [LoadedUids (length uids); MappedUrls (length urls);
         MissingObjects (resolve_urls object_paths uids).2]
        ++ imap (fun k b => CreatedBatch (Z.of_nat k) (length b)) (batches_of urls B)
        ++ [CreatedBatchFiles (Z.of_nat (length urls) / B + 1)],
        urls).
Proof.
  intros HB Hf urls. unfold create_download_list. rewrite Hf.
  destruct (resolve_urls object_paths uids) as [us missing] eqn:Hr. simpl in urls. subst urls.
  rewrite batch_writes_pos, batch_events_pos by exact HB.
  reflexivity.
Qed.

(** X1: for a positive batch size, [create_download_list] returns the
    URLs of the UIDs the catalogue knows, in the order of the input, each
    the base URL followed by the catalogue path; it prints the number of
    UIDs loaded, the number mapped and the number missing, which add up to
    the number loaded, then one line per batch and the summary line; and
    every batch line names a batch file that holds as many URLs as the line
    says. *)
Theorem create_download_list_report (object_paths : gmap string string) (fs : files)
    (filtered_uids_file output_file : string) (batch_size : Z) (filtered_uids : list string) :
  0 < batch_size ->
  fs !! filtered_uids_file = Some filtered_uids ->
  exists fs' printed download_urls,
    create_download_list object_paths filtered_uids_file output_file batch_size fs
    = Ok (fs', printed, download_urls)
    /\ download_urls
       = omap (fun uid => (fun p => base_url +:+ p) <$> object_paths !! uid) filtered_uids
    /\ printed
       = [LoadedUids (length filtered_uids);
          MappedUrls (length download_urls);
          MissingObjects (length (filter (fun uid => object_paths !! uid = None) filtered_uids))]
         ++ imap (fun k b => CreatedBatch (Z.of_nat k) (length b))
                 (batches_of download_urls batch_size)
         ++ [CreatedBatchFiles (Z.of_nat (length download_urls) / batch_size + 1)]
    /\ (length download_urls
        + length (filter (fun uid => object_paths !! uid = None) filtered_uids)
        = length filtered_uids)%nat
    /\ (forall (k : nat) (size : nat),
          CreatedBatch (Z.of_nat k) size ∈ printed ->
          exists batch, fs' !! batch_file output_file (Z.of_nat k) = Some batch
                        /\ length batch = size).
Proof.
  intros HB Hf. rewrite (create_download_list_pos _ _ _ _ _ _ HB Hf). cbv zeta.
  eexists _, _, _. split; [reflexivity|].
  split; [apply resolve_urls_omap|].
  split; [now rewrite resolve_urls_missing|].
  split; [rewrite <- resolve_urls_missing; apply resolve_urls_total|].
  intros k size Hin.
  rewrite !elem_of_app in Hin. destruct Hin as [Hin|[Hin|Hin]].
  - rewrite !elem_of_cons, elem_of_nil in Hin. destruct Hin as [?|[?|[?|[]]]]; discriminate.
  - apply list_elem_of_lookup in Hin as [i Hi].
    apply list_lookup_imap_Some in Hi as (b & Hb & E).
    injection E as E1 E2. apply Nat2Z.inj in E1. subst i size.
    exists b. split; [|reflexivity].
    rewrite lookup_insert_ne by apply all_file_not_batch.
    eapply write_all_lookup with (k := k); [apply batch_names_NoDup|].
    rewrite list_lookup_imap, Hb. reflexivity.
  - apply list_elem_of_singleton in Hin. discriminate.
Qed.

End BatcherMore.

Section BatcherEdges.
Import Batcher.

Lemma range_neg (n : nat) (B : Z) : B < 0 -> range 0 (Z.of_nat n) B = Ok [].
Proof.
  intros HB. unfold range, range_len.
  destruct (Z.eqb_spec B 0); [lia|].
  destruct (Z.ltb_spec 0 B); [lia|].
  destruct (Z.ltb_spec (Z.of_nat n) 0); [lia|]. reflexivity.
Qed.

(** X2: without the input file [create_download_list] raises
    [FileNotFoundError], whatever the batch size; with it, a batch size of 0
    raises the [ValueError] of [range], and a negative batch size writes no
    batch file: only the [_all] file is written, no batch line is printed,
    and the figure of the summary line, [n // batch_size + 1], is at most
    1. *)
Theorem create_download_list_edges (object_paths : gmap string string) (fs : files)
    (filtered_uids_file output_file : string) :
  (fs !! filtered_uids_file = None ->
     forall batch_size,
       create_download_list object_paths filtered_uids_file output_file batch_size fs
       = Raise (FileNotFoundError filtered_uids_file))
  /\ (forall filtered_uids, fs !! filtered_uids_file = Some filtered_uids ->
        let download_urls := (resolve_urls object_paths filtered_uids).1 in
        create_download_list object_paths filtered_uids_file output_file 0 fs
        = Raise (ValueError "range() arg 3 must not be zero")
        /\ forall batch_size, batch_size < 0 ->
             create_download_list object_paths filtered_uids_file output_file batch_size fs
             = Ok (<[all_file output_file := download_urls]> fs,
                   [LoadedUids (length filtered_uids);
                    MappedUrls (length download_urls);
                    MissingObjects (resolve_urls object_paths filtered_uids).2;
                    CreatedBatchFiles (Z.of_nat (length download_urls) / batch_size + 1)],
                   download_urls)
               /\ Z.of_nat (length download_urls) / batch_size + 1 <= 1).
Proof.
  split.
  - intros Hf B. unfold create_download_list. now rewrite Hf.
  - intros uids Hf urls. unfold create_download_list. rewrite Hf.
    destruct (resolve_urls object_paths uids) as [us missing]. simpl in urls. subst urls.
    split; [reflexivity|].
    intros B HB. unfold batch_writes, batch_events. rewrite range_neg by exact HB.
    split; [reflexivity|].
    assert (Z.of_nat (length us) / B <= 0); [|lia].
    pose proof (Z.div_mod (Z.of_nat (length us)) B ltac:(lia)).
    pose proof (Z.mod_neg_bound (Z.of_nat (length us)) B HB). nia.
Qed.

End BatcherEdges.

Section BatcherFiles.
Import Batcher.

(** X3: for a positive batch size, [create_download_list] changes no file
    but the [_all] file and the batch files [0 .. ceil(n/B) - 1]; a batch
    file of a higher (or negative) index, as an earlier run on a longer list
    leaves, is neither removed nor rewritten. *)
Theorem create_download_list_leaves_others (object_paths : gmap string string) (fs : files)
    (filtered_uids_file output_file : string) (batch_size : Z) (filtered_uids : list string) :
  0 < batch_size ->
  fs !! filtered_uids_file = Some filtered_uids ->
  exists fs' printed download_urls,
    create_download_list object_paths filtered_uids_file output_file batch_size fs
    = Ok (fs', printed, download_urls)
    /\ (forall p,
          p <> all_file output_file ->
          (forall k : nat, (k < batch_count (length download_urls) batch_size)%nat ->
                           p <> batch_file output_file (Z.of_nat k)) ->
          fs' !! p = fs !! p)
    /\ (forall k : Z,
          k < 0 \/ Z.of_nat (batch_count (length download_urls) batch_size) <= k ->
          fs' !! batch_file output_file k = fs !! batch_file output_file k).
Proof.
  intros HB Hf. rewrite (create_download_list_pos _ _ _ _ _ _ HB Hf). cbv zeta.
  set (urls := (resolve_urls object_paths filtered_uids).1).
  eexists _, _, _. split; [reflexivity|].
  assert (Hother : forall p,
          p <> all_file output_file ->
          (forall k : nat, (k < batch_count (length urls) batch_size)%nat ->
                           p <> batch_file output_file (Z.of_nat k)) ->
          (<[all_file output_file := urls]>
             (write_all (imap (fun (k : nat) b => (batch_file output_file (Z.of_nat k), b))
                              (batches_of urls batch_size)) fs) : files) !! p = fs !! p).
  { intros p Hall Hbatch. rewrite lookup_insert_ne by congruence.
    apply write_all_other. intros Hin.
    apply list_elem_of_fmap in Hin as ([name b] & -> & Hin).
    apply list_elem_of_lookup in Hin as [k Hk].
    apply list_lookup_imap_Some in Hk as (b' & Hb & [= -> ->]).
    apply (Hbatch k); [|reflexivity].
    apply lookup_lt_Some in Hb. unfold batches_of in Hb.
    now rewrite length_map, length_seq in Hb. }
  split; [exact Hother|].
  intros k Hk. apply Hother.
  - intros E. symmetry in E. now apply all_file_not_batch in E.
  - intros j Hj E. apply batch_file_inj in E. lia.
Qed.

(** Witness of X1: the three URLs of the demo catalogue, in batches of
    two. *)
Lemma create_download_list_report_witness :
  exists fs' printed download_urls,
    create_download_list demo_paths "uids.json" "mvd" 2 demo_files
    = Ok (fs', printed, download_urls)
    /\ printed
       = [LoadedUids 4; MappedUrls 3; MissingObjects 1;
          CreatedBatch 0 2; CreatedBatch 1 1; CreatedBatchFiles 2].
Proof.
  destruct (create_download_list_report demo_paths demo_files "uids.json" "mvd" 2
              ["a"; "b"; "zz"; "c"] ltac:(lia) demo_files_uids)
    as (fs' & printed & urls & Hrun & Hurls & Hprinted & _).
  exists fs', printed, urls. split; [exact Hrun|].
  rewrite Hprinted, Hurls. reflexivity.
Defined.

(** Witness of X3: the input list, and a batch file that was never there. *)
Lemma create_download_list_leaves_others_witness :
  exists fs' printed download_urls,
    create_download_list demo_paths "uids.json" "mvd" 2 demo_files
    = Ok (fs', printed, download_urls)
    /\ fs' !! "uids.json" = Some ["a"; "b"; "zz"; "c"]
    /\ fs' !! batch_file "mvd" 7 = None.
Proof.
  destruct (create_download_list_leaves_others demo_paths demo_files "uids.json" "mvd" 2
              ["a"; "b"; "zz"; "c"] ltac:(lia) demo_files_uids)
    as (fs' & printed & urls & Hrun & Hother & Hstale).
  exists fs', printed, urls. split; [exact Hrun|].
  assert (Hu : length urls = 3%nat).
  { rewrite (create_download_list_pos demo_paths demo_files "uids.json" "mvd" 2 _
               ltac:(lia) demo_files_uids) in Hrun.
    injection Hrun as _ _ <-. reflexivity. }
  split.
  - rewrite Hother; [exact demo_files_uids | discriminate |].
    intros k _. discriminate.
  - rewrite Hstale; [reflexivity|]. right. rewrite Hu. vm_compute. discriminate.
Defined.

End BatcherFiles.

Section BatcherMainFacts.
Import Batcher BatcherMain.

Lemma replace_absent (s old new : string) :
  contains s old = false -> replace s old new = s.
Proof.
  unfold replace. induction s as [|c s IH]; [reflexivity|].
  cbn [contains replace_from]. intros Hc.
  apply orb_false_iff in Hc as [Hs Hc].
  cbn [startswith] in Hs. rewrite Hs. now rewrite IH.
Qed.

(** X4: with [--skip_completed] and a positive batch size, [main] scans
    [./views], writes those UIDs of the input list that the scan did not
    return, in order, to the input name with every [.json] replaced by
    [_remaining.json], and runs [create_download_list] on the file it has
    just written: the [_all] file holds the URLs of the remaining UIDs, and
    every URL comes from a listed UID the scan did not return.  When the
    input name contains no [.json], the name written to is the input name
    itself. *)
Theorem main_skip_completed (object_paths : gmap string string) (views : option node)
    (a : args) (fs : files) (filtered_uids : list string) :
  skip_completed a = true ->
  0 < batch_size a ->
  fs !! filtered_file a = Some filtered_uids ->
  views <> Some File ->
  exists completed_uids printed0 fs' printed rest,
    check_existing_renders "./views" views = Ok (completed_uids, printed0)
    /\ main object_paths views a fs = Ok (fs', printed)
    /\ let remaining := filter (fun uid => uid ∉ completed_uids) filtered_uids in
       let updated_file := replace (filtered_file a) ".json" "_remaining.json" in
       let download_urls :=
         omap (fun uid => (fun p => base_url +:+ p) <$> object_paths !! uid) remaining in
       create_download_list object_paths updated_file (output_name a) (batch_size a)
         (<[updated_file := remaining]> fs)
       = Ok (fs', rest, download_urls)
       /\ printed = printed0 ++ [FilteredRemaining (length remaining) updated_file] ++ rest
       /\ fs' !! all_file (output_name a) = Some download_urls
       /\ (forall url, url ∈ download_urls ->
             exists uid p, uid ∈ filtered_uids /\ (uid ∉ completed_uids)
                           /\ object_paths !! uid = Some p /\ url = base_url +:+ p)
       /\ (contains (filtered_file a) ".json" = false -> updated_file = filtered_file a).
Proof.
  intros Hskip HB Hf Hviews.
  assert (Hscan : exists completed printed0,
            check_existing_renders "./views" views = Ok (completed, printed0)).
  { destruct views as [[|items]|]; [congruence | |]; eexists _, _; reflexivity. }
  destruct Hscan as (completed & printed0 & Hscan).
  set (remaining := filter (fun uid => uid ∉ completed) filtered_uids).
  set (updated_file := replace (filtered_file a) ".json" "_remaining.json").
  assert (Hup : (<[updated_file := remaining]> fs : files) !! updated_file = Some remaining)
    by apply lookup_insert_eq.
  pose proof (create_download_list_pos object_paths _ _ (output_name a) _ _ HB Hup) as Hrun.
  cbv zeta in Hrun. rewrite resolve_urls_omap in Hrun.
  eexists completed, printed0, _, _, _. split; [exact Hscan|].
  split.
  { unfold main. rewrite Hskip, Hscan.
    change (Ok (completed, printed0) ≫= ?f) with (f (completed, printed0)). cbv beta iota.
    rewrite Hf. fold remaining updated_file.
    match goal with |- (Ok ?x ≫= ?f) = _ => change (Ok x ≫= f) with (f x) end.
    cbv beta iota. rewrite Hrun.
    match goal with |- (Ok ?x ≫= ?f) = _ => change (Ok x ≫= f) with (f x) end.
    cbv beta iota. reflexivity. }
  cbv zeta. fold remaining updated_file.
  split; [exact Hrun|]. split; [now rewrite <- app_assoc|].
  split; [apply lookup_insert_eq|].
  split.
  - intros url Hin. apply list_elem_of_omap in Hin as (uid & Hin & Hurl).
    apply list_elem_of_filter in Hin as [Hnot Hin].
    destruct (object_paths !! uid) as [p|] eqn:Hp; [|discriminate].
    injection Hurl as <-. eauto 6.
  - apply replace_absent.
Qed.

Lemma demo_views_scan :
  check_existing_renders "./views" (Some (Dir demo_views)) = Ok ({["a"]}, [FoundRendered 1]).
Proof. vm_compute. reflexivity. Qed.

(** Witness of X4: of the four UIDs, ["a"] is rendered and ["zz"] unknown. *)
Lemma main_skip_completed_witness :
  exists fs' printed,
    main demo_paths (Some (Dir demo_views)) demo_args demo_files = Ok (fs', printed)
    /\ fs' !! "download_batches/mvd_all.json"
       = Some [base_url +:+ "glbs/000-001/b.glb"; base_url +:+ "glbs/000-002/c.glb"]
    /\ fs' !! "uids_remaining.json" = Some ["b"; "zz"; "c"].
Proof.
  destruct (main_skip_completed demo_paths (Some (Dir demo_views)) demo_args demo_files
              ["a"; "b"; "zz"; "c"] eq_refl ltac:(simpl; lia) demo_files_uids
              ltac:(discriminate))
    as (completed & printed0 & fs' & printed & rest & Hscan & Hrun & Hlist).
  rewrite demo_views_scan in Hscan. injection Hscan as <- <-.
  exists fs', printed. split; [exact Hrun|].
  split.
  - exact (proj1 (proj2 (proj2 Hlist))).
  - cbv zeta in Hlist.
    assert (Hup : (<[ "uids_remaining.json" := ["b"; "zz"; "c"] ]> demo_files : files)
                  !! "uids_remaining.json" = Some ["b"; "zz"; "c"]) by apply lookup_insert_eq.
    destruct Hlist as [Hlist _].
    assert (E : create_download_list demo_paths "uids_remaining.json" "mvd" 2
                  (<[ "uids_remaining.json" := ["b"; "zz"; "c"] ]> demo_files)
                = Ok (fs', rest,
                      omap (fun uid => (fun p => base_url +:+ p) <$> demo_paths !! uid)
                           ["b"; "zz"; "c"])) by exact Hlist.
    rewrite (create_download_list_pos demo_paths _ "uids_remaining.json" "mvd" 2 _
               ltac:(lia) Hup) in E.
    injection E as <- _.
    rewrite lookup_insert_ne by discriminate.
    rewrite write_all_other; [exact Hup|].
    vm_compute. intros Hin. 
    repeat (apply elem_of_cons in Hin as [Hin|Hin]; [discriminate|]).
    now apply elem_of_nil in Hin.
Defined.

End BatcherMainFacts.

(** ** More on the render-completion scanner *)
Section ScannerMore.
Import Batcher.

Lemma png_files_dom (e1 e2 : gmap string node) :
  dom e1 = dom e2 -> png_files e1 = png_files e2.
Proof. unfold png_files. now intros ->. Qed.

Lemma is_complete_dom (e1 e2 : gmap string node) :
  dom e1 = dom e2 -> is_complete (Dir e1) = is_complete (Dir e2).
Proof.
  intros E. unfold is_complete. rewrite (png_files_dom _ _ E). f_equal.
  apply bool_decide_ext. rewrite <- !elem_of_dom. now rewrite E.
Qed.

(** X5: [check_existing_renders] returns the empty set and prints 0 when
    the output directory does not exist; otherwise it prints the size of the
    set it returns, which holds names of entries of the directory, never
    that of a plain file; whether an entry is returned depends on the names
    its directory lists and not on what they name; so an entry that holds
    nothing but a [views] subdirectory is never returned, whatever is in
    that subdirectory, while one that lists [000_depth.png] ..
    [015_depth.png] and [cameras.json] itself is. *)
Theorem scanner_reads_names_only (output_dir : string) (items : gmap string node) :
  check_existing_renders output_dir None = Ok (∅, [FoundRendered 0])
  /\ exists completed_uids,
       check_existing_renders output_dir (Some (Dir items))
       = Ok (completed_uids, [FoundRendered (size completed_uids)])
       /\ completed_uids ⊆ dom items
       /\ (forall item, items !! item = Some File -> item ∉ completed_uids)
       /\ (forall item e1 e2,
             items !! item = Some (Dir e1) -> dom e1 = dom e2 ->
             (item ∈ completed_uids <-> is_complete (Dir e2) = true))
       /\ (forall item views,
             items !! item = Some (Dir {["views" := views]}) -> item ∉ completed_uids)
       /\ (forall item entries,
             items !! item = Some (Dir entries) ->
             (forall i : nat, (i < 16)%nat ->
                is_Some (entries !! (fmt_03d i +:+ "_depth.png"))) ->
             is_Some (entries !! "cameras.json") ->
             item ∈ completed_uids).
Proof.
  split; [reflexivity|].
  eexists. split; [reflexivity|].
  assert (Hin : forall item, item ∈ scan items (elements (dom items))
                  <-> exists n, items !! item = Some n /\ is_complete n = true).
  { intros item. rewrite scan_spec, elem_of_elements, elem_of_dom. split.
    - intros (_ & n & Hn & Hc). eauto.
    - intros (n & Hn & Hc). split; eauto. }
  split.
  { intros item Hi. apply Hin in Hi as (n & Hn & _). apply elem_of_dom. eauto. }
  split.
  { intros item Hf Hi. apply Hin in Hi as (n & Hn & Hc). rewrite Hf in Hn.
    injection Hn as <-. discriminate. }
  split.
  { intros item e1 e2 He1 Hdom. rewrite Hin, <- (is_complete_dom _ _ Hdom). split.
    - intros (n & Hn & Hc). rewrite He1 in Hn. now injection Hn as <-.
    - eauto. }
  split.
  { intros item views Hv Hi. apply Hin in Hi as (n & Hn & Hc). rewrite Hv in Hn.
    injection Hn as <-. revert Hc. unfold is_complete, png_files.
    rewrite dom_singleton_L, elements_singleton. discriminate. }
  intros item entries He Hpng Hcam. apply Hin. exists (Dir entries). split; [exact He|].
  apply is_complete_spec. exists entries. split; [reflexivity|]. split; [|exact Hcam].
  assert (Hsub : map (fun i => fmt_03d i +:+ "_depth.png") (seq 0 16) ⊆+ png_files entries).
  { apply NoDup_submseteq.
    - apply NoDup_fmap_2_strong; [|apply NoDup_seq].
      intros i j Hi Hj E. apply elem_of_seq in Hi, Hj.
      apply view_name_inj in E; [tauto | lia | lia].
    - intros f Hf. apply list_elem_of_fmap in Hf as (i & -> & Hi). apply elem_of_seq in Hi.
      apply png_files_spec. split; [apply Hpng; lia|].
      exists (fmt_03d i +:+ "_depth"). now rewrite append_assoc. }
  apply submseteq_length in Hsub. now rewrite length_map, length_seq in Hsub.
Qed.

End ScannerMore.

(** ** More on the train/test splitter *)
Section SplitterMore.
Import Splitter.
Context {G : Type}.
Variable seed : Z -> G.
Variable randbelow : G -> nat -> nat * G.
Hypothesis randbelow_lt : forall g k, (0 < k)%nat -> ((randbelow g k).1 < k)%nat.

(** The run of the script on a directory, in one equation. *)
Lemma split_script_run (entries : gmap string node) :
  Z.of_nat (size entries) < 2 ^ 49 ->
  exists universe shuffled g',
    all_uids (Some (Dir entries)) = Ok universe
    /\ shuffle randbelow (seed 42) universe = Ok (shuffled, g')
    /\ shuffled ≡ₚ universe
    /\ let idx := Z.to_nat (9 * Z.of_nat (length universe) / 10) in
       split_script seed randbelow (Some (Dir entries))
       = Ok {| train_uids := take idx shuffled;
               test_uids := drop idx shuffled;
               printed := [FoundObjects (length universe);
                           TrainTest (length (take idx shuffled)) (length (drop idx shuffled));
                           CreatedSubsetLists];
               written := <[OUTPUT_DIR +:+ "/15k_test.json" := drop idx shuffled]>
                          (<[OUTPUT_DIR +:+ "/15k_train.json" := take idx shuffled]> ∅) |}.
Proof.
  intros Hsize.
  set (universe := filter (fun d => isdir_in (Some (Dir entries)) d = true)
                          (elements (dom entries))).
  assert (Hall : all_uids (Some (Dir entries)) = Ok universe) by reflexivity.
  assert (Hlen : Z.of_nat (length universe) < 2 ^ 49).
  { assert (length universe <= size entries)%nat; [|lia].
    unfold universe. etrans; [apply length_filter|].
    rewrite <- size_dom. reflexivity. }
  destruct (shuffle_perm randbelow randbelow_lt (seed 42) universe)
    as (shuffled & g' & Hsh & Hperm).
  assert (Hls : length shuffled = length universe) by now apply Permutation_length.
  exists universe, shuffled, g'.
  split; [exact Hall|]. split; [exact Hsh|]. split; [exact Hperm|].
  cbv zeta. unfold split_script. rewrite Hall.
  change (Ok universe ≫= ?f) with (f universe). cbv beta. rewrite Hsh.
  change (Ok (shuffled, g') ≫= ?f) with (f (shuffled, g')). cbv beta iota.
  rewrite split_idx_exact by (rewrite Hls; exact Hlen). rewrite Hls.
  change (Ok ?x ≫= ?f) with (f x). cbv beta. unfold slice. rewrite drop_0.
  reflexivity.
Qed.

(** X6: for a directory of fewer than 2^49 entries and a generator whose
    [_randbelow(k)] answers below [k], the script returns; the test list has
    [ceil(count / 10)] UIDs and the two lists together [count]; the test
    list is empty only when no directory was found, the train list exactly
    when at most one was; the script prints the count and the two lengths,
    and writes two files and no other: the train list to [15k_train.json],
    the test list to [15k_test.json]. *)
Theorem split_sizes (entries : gmap string node) :
  Z.of_nat (size entries) < 2 ^ 49 ->
  exists universe r,
    all_uids (Some (Dir entries)) = Ok universe
    /\ split_script seed randbelow (Some (Dir entries)) = Ok r
    /\ Z.of_nat (length (test_uids r)) = (Z.of_nat (length universe) + 9) / 10
    /\ (length (train_uids r) + length (test_uids r) = length universe)%nat
    /\ (test_uids r = [] <-> universe = [])
    /\ (train_uids r = [] <-> (length universe <= 1)%nat)
    /\ printed r = [FoundObjects (length universe);
                    TrainTest (length (train_uids r)) (length (test_uids r));
                    CreatedSubsetLists]
    /\ written r !! (OUTPUT_DIR +:+ "/15k_train.json") = Some (train_uids r)
    /\ written r !! (OUTPUT_DIR +:+ "/15k_test.json") = Some (test_uids r)
    /\ dom (written r)
       = {[OUTPUT_DIR +:+ "/15k_train.json"; OUTPUT_DIR +:+ "/15k_test.json"]}.
Proof.
  intros Hsize.
  destruct (split_script_run entries Hsize)
    as (universe & shuffled & g' & Hall & Hsh & Hperm & Hrun).
  cbv zeta in Hrun.
  assert (Hls : length shuffled = length universe) by now apply Permutation_length.
  set (n := Z.of_nat (length universe)) in *.
  set (idx := 9 * n / 10) in *.
  assert (Hidx : 0 <= idx /\ n - idx = (n + 9) / 10).
  { unfold idx. split; [apply Z.div_pos; lia|].
    pose proof (Z.div_mod (9 * n) 10 ltac:(lia)).
    pose proof (Z.mod_pos_bound (9 * n) 10 ltac:(lia)).
    pose proof (Z.div_mod (n + 9) 10 ltac:(lia)).
    pose proof (Z.mod_pos_bound (n + 9) 10 ltac:(lia)). lia. }
  destruct Hidx as [Hidx0 Hidx].
  assert (Hq : 0 <= (n + 9) / 10) by (apply Z.div_pos; lia).
  assert (Hq1 : (n + 9) / 10 = 0 <-> n = 0).
  { pose proof (Z.div_mod (n + 9) 10 ltac:(lia)).
    pose proof (Z.mod_pos_bound (n + 9) 10 ltac:(lia)). lia. }
  assert (Hq2 : idx = 0 <-> n <= 1).
  { unfold idx. pose proof (Z.div_mod (9 * n) 10 ltac:(lia)).
    pose proof (Z.mod_pos_bound (9 * n) 10 ltac:(lia)). lia. }
  assert (Htake : length (take (Z.to_nat idx) shuffled) = Z.to_nat idx).
  { rewrite length_take. lia. }
  assert (Hdrop : Z.of_nat (length (drop (Z.to_nat idx) shuffled)) = (n + 9) / 10).
  { rewrite length_drop. lia. }
  eexists universe, _. split; [exact Hall|]. split; [exact Hrun|].
  cbn [train_uids test_uids printed written].
  split; [exact Hdrop|]. split; [rewrite length_take, length_drop; lia|].
  split.
  { rewrite <- !length_zero_iff_nil. lia. }
  split.
  { rewrite <- length_zero_iff_nil. lia. }
  split; [reflexivity|].
  split.
  { rewrite lookup_insert_ne by discriminate. apply lookup_insert_eq. }
  split; [apply lookup_insert_eq|].
  rewrite !dom_insert_L, dom_empty_L. set_solver.
Qed.

End SplitterMore.

Section SplitterMoreRuns.
Import Splitter.

(** Witness of X6: ten rendered objects and a stray file. *)
Lemma split_sizes_witness :
  exists universe r,
    all_uids (Some (Dir demo_renders)) = Ok universe
    /\ split_script lcg_seed lcg_randbelow (Some (Dir demo_renders)) = Ok r
    /\ length universe = 10%nat
    /\ length (test_uids r) = 1%nat
    /\ length (train_uids r) = 9%nat.
Proof.
  assert (Hsize : Z.of_nat (size demo_renders) < 2 ^ 49) by (vm_compute; reflexivity).
  destruct (split_sizes lcg_seed lcg_randbelow lcg_randbelow_lt demo_renders Hsize)
    as (universe & r & Hall & Hrun & Hte & Hsum & _).
  exists universe, r. split; [exact Hall|]. split; [exact Hrun|].
  assert (Hlen : length universe = 10%nat).
  { assert (E : all_uids (Some (Dir demo_renders)) = Ok universe) by exact Hall.
    vm_compute in E. injection E as <-. reflexivity. }
  rewrite Hlen in Hte, Hsum. change ((Z.of_nat 10 + 9) / 10) with 1 in Hte.
  split; [exact Hlen|]. split; lia.
Defined.

End SplitterMoreRuns.

(** ** More on the catalogue filter *)
Section FilterMore.
Import Filter FilterMain Batcher.
Variable sample : list string -> Z -> result (list string).

Lemma filter_paths_known (object_paths : gmap string string) (sampled : list string) :
  Forall (fun uid => exists p, object_paths !! uid = Some p /\ passes p = true)
         (filter_paths object_paths sampled).
Proof.
  rewrite filter_paths_spec. apply Forall_forall. intros u Hu.
  apply list_elem_of_filter in Hu as [Hp _].
  destruct (object_paths !! u) as [p|]; [eauto | discriminate].
Qed.

Lemma resolve_urls_known (object_paths : gmap string string) (uids : list string) :
  Forall (fun uid => is_Some (object_paths !! uid)) uids ->
  resolve_urls object_paths uids
  = (map (fun uid => base_url +:+ default ""%string (object_paths !! uid)) uids, 0%nat).
Proof.
  induction 1 as [|uid uids [p Hp] _ IH]; [reflexivity|].
  cbn [resolve_urls map]. rewrite IH, Hp. reflexivity.
Qed.

(** X7: when the sample is drawn and the batch size is positive, [main] of
    the filter writes the filtered UIDs to its output file, and
    [create_download_list], run on that file with the same catalogue, maps
    every one of them: it returns one URL per filtered UID, in order,
    reports 0 missing objects, and every URL starts with the base URL and
    ends in [.glb]. *)
Theorem filter_then_batch (uids : list string) (object_paths : gmap string string)
    (sample_size : Z) (filtered_file output_file : string) (batch_size : Z)
    (fs : gmap string (list string)) (sampled_uids : list string) :
  sample uids (Z.min sample_size (Z.of_nat (length uids))) = Ok sampled_uids ->
  0 < batch_size ->
  exists filtered_uids fs1 fs2 printed download_urls,
    simple_quality_filter sample uids object_paths sample_size = Ok filtered_uids
    /\ main sample uids object_paths sample_size filtered_file fs
       = Ok (fs1, [SavedFiltered (length filtered_uids) filtered_file])
    /\ fs1 = <[filtered_file := filtered_uids]> fs
    /\ create_download_list object_paths filtered_file output_file batch_size fs1
       = Ok (fs2, printed, download_urls)
    /\ download_urls
       = map (fun uid => base_url +:+ default ""%string (object_paths !! uid)) filtered_uids
    /\ length download_urls = length filtered_uids
    /\ MissingObjects 0 ∈ printed
    /\ (forall url, url ∈ download_urls ->
          startswith url base_url = true /\ endswith url ".glb" = true).
Proof.
  intros Hs HB.
  assert (Hrun : simple_quality_filter sample uids object_paths sample_size
                 = Ok (filter_paths object_paths sampled_uids)).
  { unfold simple_quality_filter. now rewrite Hs. }
  set (filtered := filter_paths object_paths sampled_uids) in *.
  pose proof (filter_paths_known object_paths sampled_uids) as Hknown. fold filtered in Hknown.
  assert (Hres : resolve_urls object_paths filtered
                 = (map (fun uid => base_url +:+ default ""%string (object_paths !! uid)) filtered,
                    0%nat)).
  { apply resolve_urls_known. eapply Forall_impl; [exact Hknown|].
    intros uid (p & -> & _). eauto. }
  assert (Hup : (<[filtered_file := filtered]> fs : gmap string (list string)) !! filtered_file
                = Some filtered) by apply lookup_insert_eq.
  pose proof (create_download_list_pos object_paths _ _ output_file _ _ HB Hup) as Hb.
  cbv zeta in Hb. rewrite Hres in Hb. cbn [fst snd] in Hb.
  eexists filtered, _, _, _, _. split; [exact Hrun|].
  split; [unfold main; rewrite Hrun; reflexivity|].
  split; [reflexivity|]. split; [exact Hb|]. split; [reflexivity|].
  split; [apply length_map|]. split; [set_solver|].
  intros url Hin. apply list_elem_of_fmap in Hin as (uid & -> & Hin).
  split; [apply startswith_append|].
  rewrite Forall_forall in Hknown. destruct (Hknown uid Hin) as (p & -> & Hp).
  apply endswith_prefix. simpl.
  apply passes_spec in Hp as (_ & Hglb & _). now apply endswith_spec.
Qed.

(** X8: when [random.sample] returns as many UIDs as it was asked for, all
    of them from [uids], the filter returns at most [sample_size] UIDs and at
    most [len(uids)], all of them UIDs of [uids] for which the catalogue has
    a path, without repetition if the sample has none; and filtering the
    result again changes nothing. *)
Theorem filter_bounded (uids : list string) (object_paths : gmap string string)
    (sample_size : Z) (sampled_uids : list string) :
  sample uids (Z.min sample_size (Z.of_nat (length uids))) = Ok sampled_uids ->
  Z.of_nat (length sampled_uids) = Z.min sample_size (Z.of_nat (length uids)) ->
  sampled_uids ⊆ uids ->
  exists filtered_uids,
    simple_quality_filter sample uids object_paths sample_size = Ok filtered_uids
    /\ Z.of_nat (length filtered_uids) <= sample_size
    /\ (length filtered_uids <= length uids)%nat
    /\ filtered_uids ⊆ uids
    /\ (forall uid, uid ∈ filtered_uids -> is_Some (object_paths !! uid))
    /\ (NoDup sampled_uids -> NoDup filtered_uids)
    /\ filter_paths object_paths filtered_uids = filtered_uids.
Proof.
  intros Hs Hlen Hsub. unfold simple_quality_filter. rewrite Hs.
  eexists. split; [reflexivity|]. rewrite filter_paths_spec.
  assert (Hle : (length (filter (fun uid => passes (default ""%string (object_paths !! uid)) = true)
                                sampled_uids) <= length sampled_uids)%nat)
    by apply length_filter.
  split; [lia|]. split; [lia|].
  split; [intros uid Hin; apply list_elem_of_filter in Hin as [_ Hin]; auto|].
  split.
  { intros uid Hin. apply list_elem_of_filter in Hin as [Hp _].
    destruct (object_paths !! uid); [eauto | discriminate]. }
  split; [apply NoDup_filter|].
  rewrite filter_paths_spec. apply list_filter_filter_l. intros uid Hp. exact Hp.
Qed.

End FilterMore.

Section FilterMoreRuns.
Import Filter FilterMain Batcher.

Lemma first_k_demo :
  first_k ["a"; "b"; "c"; "d"; "e"] (Z.min 1000 (Z.of_nat (length ["a"; "b"; "c"; "d"; "e"])))
  = Ok ["a"; "b"; "c"; "d"; "e"].
Proof. reflexivity. Qed.

(** Witness of X7: the one UID the filter keeps gives one URL. *)
Lemma filter_then_batch_witness :
  exists fs1 fs2 printed,
    main first_k ["a"; "b"; "c"; "d"; "e"] demo_catalogue 1000 "simple_filtered.json" ∅
    = Ok (fs1, [SavedFiltered 1 "simple_filtered.json"])
    /\ create_download_list demo_catalogue "simple_filtered.json" "mvd" 1000 fs1
       = Ok (fs2, printed, [base_url +:+ "glbs/000-001/a.glb"]).
Proof.
  destruct (filter_then_batch first_k ["a"; "b"; "c"; "d"; "e"] demo_catalogue 1000
              "simple_filtered.json" "mvd" 1000 ∅ _ first_k_demo ltac:(lia))
    as (filtered & fs1 & fs2 & printed & urls & Hf & Hmain & _ & Hbatch & Hurls & _).
  assert (E : filtered = ["a"]).
  { vm_compute in Hf. now injection Hf as <-. }
  subst filtered. exists fs1, fs2, printed. split; [exact Hmain|].
  rewrite Hbatch, Hurls. reflexivity.
Defined.

(** Witness of X8 *)
Lemma filter_bounded_witness :
  exists filtered_uids,
    simple_quality_filter first_k ["a"; "b"; "c"; "d"; "e"] demo_catalogue 1000
    = Ok filtered_uids
    /\ Z.of_nat (length filtered_uids) <= 1000
    /\ filtered_uids ⊆ ["a"; "b"; "c"; "d"; "e"].
Proof.
  destruct (filter_bounded first_k ["a"; "b"; "c"; "d"; "e"] demo_catalogue 1000 _
              first_k_demo eq_refl ltac:(set_solver))
    as (filtered & Hf & Hle & _ & Hsub & _).
  eauto.
Defined.

End FilterMoreRuns.

(** ** The order of binary64 *)
Section FloatOrder.

Lemma SFltb_irrefl (x : spec_float) : SFltb x x = false.
Proof.
  unfold SFltb, SFcompare. destruct x as [s|s| |s m e]; try reflexivity.
  - now destruct s.
  - destruct s; rewrite Z.compare_refl, Pos.compare_cont_refl; reflexivity.
Qed.

Lemma SFltb_trans (x y z : spec_float) :
  SFltb x y = true -> SFltb y z = true -> SFltb x z = true.
Proof.
  unfold SFltb, SFcompare.
  destruct x as [sx|sx| |sx mx ex], y as [sy|sy| |sy my ey], z as [sz|sz| |sz mz ez];
    try destruct sx; try destruct sy; try destruct sz; try discriminate; try reflexivity.
  all: rewrite ?Pos.compare_cont_spec.
  all: destruct (Z.compare_spec ex ey), (Z.compare_spec ey ez), (Z.compare_spec ex ez);
    try discriminate; try reflexivity; try lia; subst.
  all: unfold Pos.switch_Eq.
  all: destruct (Pos.compare_spec mx my), (Pos.compare_spec my mz), (Pos.compare_spec mx mz);
    simpl; try discriminate; try reflexivity; try lia.
Qed.

Lemma ltb_irrefl (x : float) : (x <? x)%float = false.
Proof. rewrite FloatAxioms.ltb_spec. apply SFltb_irrefl. Qed.

Lemma ltb_trans (x y z : float) :
  (x <? y)%float = true -> (y <? z)%float = true -> (x <? z)%float = true.
Proof. rewrite !FloatAxioms.ltb_spec. apply SFltb_trans. Qed.

End FloatOrder.

(** ** The bounding box of the scene *)
Section SceneBoxFacts.
Import Blender SceneBox.

Lemma py_min_self (m y : float) : (y <? py_min m y)%float = false.
Proof.
  unfold py_min. destruct (y <? m)%float eqn:E; [apply ltb_irrefl | exact E].
Qed.

Lemma py_min_keeps (m y c : float) :
  (c <? m)%float = false -> (c <? py_min m y)%float = false.
Proof.
  intros Hc. unfold py_min. destruct (y <? m)%float eqn:E; [|exact Hc].
  destruct (c <? y)%float eqn:E'; [|reflexivity].
  now rewrite (ltb_trans _ _ _ E' E) in Hc.
Qed.

Lemma py_max_self (m y : float) : (py_max m y <? y)%float = false.
Proof.
  unfold py_max. destruct (m <? y)%float eqn:E; [apply ltb_irrefl | exact E].
Qed.

Lemma py_max_keeps (m y c : float) :
  (m <? c)%float = false -> (py_max m y <? c)%float = false.
Proof.
  intros Hc. unfold py_max. destruct (m <? y)%float eqn:E; [|exact Hc].
  destruct (y <? c)%float eqn:E'; [|reflexivity].
  now rewrite (ltb_trans _ _ _ E E') in Hc.
Qed.

Lemma py_min_choice (m y : float) : py_min m y = m \/ py_min m y = y.
Proof. unfold py_min. destruct (y <? m)%float; auto. Qed.

Lemma py_max_choice (m y : float) : py_max m y = m \/ py_max m y = y.
Proof. unfold py_max. destruct (m <? y)%float; auto. Qed.

Lemma grow_snoc (box : vec float * vec float) (coords : list (vec float)) (coord : vec float) :
  grow box (coords ++ [coord])
  = (vmin (grow box coords).1 coord, vmax (grow box coords).2 coord).
Proof.
  unfold grow. rewrite foldl_snoc. now destruct (foldl _ box coords).
Qed.

(** The box encloses every coordinate it was grown over ... *)
Lemma grow_inside (box : vec float * vec float) (coords : list (vec float)) :
  forall coord, coord ∈ coords -> inside coord (grow box coords).1 (grow box coords).2.
Proof.
  induction coords as [|y coords IH] using rev_ind; intros coord Hin.
  - now apply elem_of_nil in Hin.
  - rewrite grow_snoc. cbn [fst snd].
    destruct (grow box coords) as [[[l1 l2] l3] [[h1 h2] h3]]. cbn [fst snd] in *.
    destruct y as [[y1 y2] y3]. cbn [vmin vmax].
    apply elem_of_app in Hin as [Hin|Hin].
    + specialize (IH coord Hin). destruct coord as [[c1 c2] c3]. cbn [inside] in *.
      destruct IH as (? & ? & ? & ? & ? & ?).
      repeat split; (now apply py_min_keeps) || (now apply py_max_keeps).
    + apply list_elem_of_singleton in Hin as ->. cbn [inside].
      repeat split; apply py_min_self || apply py_max_self.
Qed.

(** ... and each of its coordinates is one it started with or one of a
    coordinate it was grown over. *)
Lemma grow_min_attained (box : vec float * vec float) (coords : list (vec float))
    (j : nat) (v : float) :
  vec_list (grow box coords).1 !! j = Some v ->
  vec_list box.1 !! j = Some v
  \/ exists coord, coord ∈ coords /\ vec_list coord !! j = Some v.
Proof.
  revert v. induction coords as [|y coords IH] using rev_ind; intros v; [auto|].
  rewrite grow_snoc. cbn [fst snd].
  destruct (grow box coords) as [[[l1 l2] l3] bbox_max]. cbn [fst snd] in *.
  destruct y as [[y1 y2] y3]. cbn [vmin vec_list].
  assert (Hold : forall v, [l1; l2; l3] !! j = Some v ->
            vec_list box.1 !! j = Some v
            \/ exists coord, coord ∈ coords ++ [(y1, y2, y3)] /\ vec_list coord !! j = Some v).
  { intros v' Hv. destruct (IH v' Hv) as [?|(coord & Hc & Hj)]; [auto|].
    right. exists coord. split; [apply elem_of_app; auto | exact Hj]. }
  assert (Hnew : forall v, [y1; y2; y3] !! j = Some v ->
            vec_list box.1 !! j = Some v
            \/ exists coord, coord ∈ coords ++ [(y1, y2, y3)] /\ vec_list coord !! j = Some v).
  { intros v' Hv. right. exists (y1, y2, y3). split; [set_solver | exact Hv]. }
  destruct j as [|[|[|j]]]; cbn [lookup list_lookup]; intros [= <-].
  - destruct (py_min_choice l1 y1) as [->| ->]; [apply Hold | apply Hnew]; reflexivity.
  - destruct (py_min_choice l2 y2) as [->| ->]; [apply Hold | apply Hnew]; reflexivity.
  - destruct (py_min_choice l3 y3) as [->| ->]; [apply Hold | apply Hnew]; reflexivity.
Qed.

Lemma grow_max_attained (box : vec float * vec float) (coords : list (vec float))
    (j : nat) (v : float) :
  vec_list (grow box coords).2 !! j = Some v ->
  vec_list box.2 !! j = Some v
  \/ exists coord, coord ∈ coords /\ vec_list coord !! j = Some v.
Proof.
  revert v. induction coords as [|y coords IH] using rev_ind; intros v; [auto|].
  rewrite grow_snoc. cbn [fst snd].
  destruct (grow box coords) as [bbox_min [[h1 h2] h3]]. cbn [fst snd] in *.
  destruct y as [[y1 y2] y3]. cbn [vmax vec_list].
  assert (Hold : forall v, [h1; h2; h3] !! j = Some v ->
            vec_list box.2 !! j = Some v
            \/ exists coord, coord ∈ coords ++ [(y1, y2, y3)] /\ vec_list coord !! j = Some v).
  { intros v' Hv. destruct (IH v' Hv) as [?|(coord & Hc & Hj)]; [auto|].
    right. exists coord. split; [apply elem_of_app; auto | exact Hj]. }
  assert (Hnew : forall v, [y1; y2; y3] !! j = Some v ->
            vec_list box.2 !! j = Some v
            \/ exists coord, coord ∈ coords ++ [(y1, y2, y3)] /\ vec_list coord !! j = Some v).
  { intros v' Hv. right. exists (y1, y2, y3). split; [set_solver | exact Hv]. }
  destruct j as [|[|[|j]]]; cbn [lookup list_lookup]; intros [= <-].
  - destruct (py_max_choice h1 y1) as [->| ->]; [apply Hold | apply Hnew]; reflexivity.
  - destruct (py_max_choice h2 y2) as [->| ->]; [apply Hold | apply Hnew]; reflexivity.
  - destruct (py_max_choice h3 y3) as [->| ->]; [apply Hold | apply Hnew]; reflexivity.
Qed.

(** The loop over the objects grows one box over all their corners. *)
Lemma scene_bbox_loop (ignore_matrix : bool) (objs : list object)
    (box : vec float * vec float) (found : bool) :
  foldl (fun '(box, _) obj => (grow box (corners ignore_matrix obj), true)) (box, found) objs
  = (grow box (concat (map (corners ignore_matrix) objs)),
     match objs with [] => found | _ => true end).
Proof.
  revert box found. induction objs as [|obj objs IH]; intros box found; [reflexivity|].
  cbn [foldl map concat]. rewrite IH. unfold grow at 2 3. rewrite foldl_app.
  f_equal. now destruct objs.
Qed.

(** X9: [scene_bbox] raises its [RuntimeError] when it has no object to
    loop over, which is exactly when it is called without [single_obj] on a
    scene none of whose objects is a mesh; otherwise it returns a box such
    that no coordinate of a corner of its objects (moved by [matrix_world]
    unless [ignore_matrix]) is below that of [bbox_min] or above that of
    [bbox_max], and each coordinate of [bbox_min] ([bbox_max]) is that
    coordinate of one of these corners, or is [inf] ([-inf]) as at the
    start. *)
Theorem scene_bbox_bounds (objects : list object) (single_obj : option object)
    (ignore_matrix : bool) :
  let objs := match single_obj with
              | None => scene_meshes objects
              | Some obj => [obj]
              end in
  let coords := concat (map (corners ignore_matrix) objs) in
  (objs = [] ->
     scene_bbox objects single_obj ignore_matrix
     = Raise (RuntimeError "no objects in scene to compute bounding box for"))
  /\ (objs <> [] ->
        exists bbox_min bbox_max,
          scene_bbox objects single_obj ignore_matrix = Ok (bbox_min, bbox_max)
          /\ (forall coord, coord ∈ coords -> inside coord bbox_min bbox_max)
          /\ (forall j lo, vec_list bbox_min !! j = Some lo ->
                lo = infinity
                \/ exists coord, coord ∈ coords /\ vec_list coord !! j = Some lo)
          /\ (forall j hi, vec_list bbox_max !! j = Some hi ->
                hi = neg_infinity
                \/ exists coord, coord ∈ coords /\ vec_list coord !! j = Some hi))
  /\ (objs = [] <-> single_obj = None /\ forall obj, obj ∈ objects -> is_mesh obj = false).
Proof.
  intros objs coords. unfold scene_bbox. fold objs. rewrite scene_bbox_loop. fold coords.
  split; [intros ->; reflexivity|]. split.
  - intros Hne. destruct objs as [|obj objs'] eqn:E; [congruence|]. rewrite <- E in *.
    set (box0 := ((infinity, infinity, infinity),
                  (neg_infinity, neg_infinity, neg_infinity))) in *.
    destruct (grow box0 coords) as [bbox_min bbox_max] eqn:Hg.
    exists bbox_min, bbox_max. split; [reflexivity|].
    split.
    { intros coord Hin. pose proof (grow_inside box0 coords coord Hin) as G.
      now rewrite Hg in G. }
    split.
    + intros j lo Hlo.
      pose proof (grow_min_attained box0 coords j lo) as G. rewrite Hg in G.
      destruct (G Hlo) as [H0|?]; [left | now right].
      revert H0. unfold box0. cbn [fst vec_list].
      destruct j as [|[|[|j]]]; cbn [lookup list_lookup]; intros [= <-]; reflexivity.
    + intros j hi Hhi.
      pose proof (grow_max_attained box0 coords j hi) as G. rewrite Hg in G.
      destruct (G Hhi) as [H0|?]; [left | now right].
      revert H0. unfold box0. cbn [snd vec_list].
      destruct j as [|[|[|j]]]; cbn [lookup list_lookup]; intros [= <-]; reflexivity.
  - unfold objs. destruct single_obj as [obj|].
    + split; [discriminate | intros [[=] _]].
    + unfold scene_meshes. split.
      * intros E. split; [reflexivity|]. intros obj Hin.
        destruct (is_mesh obj) eqn:Em; [|reflexivity].
        assert (obj ∈ filter (fun obj => is_mesh obj = true) objects)
          by (apply list_elem_of_filter; auto).
        rewrite E in H. now apply elem_of_nil in H.
      * intros [_ Hall]. induction objects as [|o os IH]; [reflexivity|].
        rewrite filter_cons_False; [apply IH; intros; apply Hall; set_solver|].
        rewrite Hall by set_solver. discriminate.
Qed.

(** The demo scene: the camera is passed over, and the box of the moved
    cube runs from (1, 0, 0) to (2, 1, 1). *)
Example scene_bbox_examples :
  scene_bbox [demo_camera; demo_cube] None false = Ok ((1, 0, 0), (2, 1, 1))%float
  /\ scene_bbox [demo_camera; demo_cube] None true = Ok ((0, 0, 0), (1, 1, 1))%float
  /\ scene_bbox [demo_camera] None false
     = Raise (RuntimeError "no objects in scene to compute bounding box for")
  /\ scene_bbox [demo_cube] (Some demo_camera) false
     = Ok ((infinity, infinity, infinity), (neg_infinity, neg_infinity, neg_infinity)).
Proof. repeat split; vm_compute; reflexivity. Qed.

End SceneBoxFacts.

(** ** More on the camera pipeline *)

(** *** Statements that leave files, directory and log alone *)
Section Still.
Import Blender BlenderMore.
Context {F : Type} `{Num F} {Scene : Type}.
#[local] Abbreviation M := (M F Scene).
#[local] Abbreviation world := (world F Scene).

Lemma still_quiet {A} (m : M A) : still m -> quiet m.
Proof. intros Hs w r w1 E. destruct (Hs _ _ _ E) as (? & ? & ?). auto. Qed.

Lemma still_bind {A B} (m : M A) (k : A -> M B) :
  still m -> (forall a, still (k a)) -> still (m ≫= k).
Proof.
  intros Hm Hk w r w1. unfold mbind, M_bind, seq_bind.
  destruct (m w) as [[a|e] w2] eqn:E.
  - intros Hr. destruct (Hm _ _ _ E) as (E1 & E2 & E3).
    destruct (Hk a _ _ _ Hr) as (E4 & E5 & E6). repeat split; congruence.
  - intros [= <- <-]. exact (Hm _ _ _ E).
Qed.

Lemma still_ret {A} (a : A) : still (ret (F:=F) (Scene:=Scene) a).
Proof. intros w r w1 [= <- <-]. auto. Qed.

Lemma still_raise {A} (e : exn) : still (raise (F:=F) (Scene:=Scene) (A:=A) e).
Proof. intros w r w1 [= <- <-]. auto. Qed.

Lemma still_host (f : Scene -> Scene) : still (host (F:=F) f).
Proof. intros w r w1 [= <- <-]. auto. Qed.

Lemma still_host_try (f : Scene -> outcome Scene) : still (host_try (F:=F) f).
Proof.
  intros w r w1. unfold host_try. destruct (f (scene w)); intros [= <- <-]; auto.
Qed.

Lemma still_get_scene : still (get_scene (F:=F) (Scene:=Scene)).
Proof. intros w r w1 [= <- <-]. auto. Qed.

Lemma still_index {A} (table : list A) (i : nat) : still (index (F:=F) (Scene:=Scene) table i).
Proof. unfold index. destruct (table !! i); [apply still_ret | apply still_raise]. Qed.

Lemma still_exists (p : string) : still (exists_ (F:=F) (Scene:=Scene) p).
Proof. intros w r w1 [= <- <-]. auto. Qed.

End Still.

(** *** Statements that keep to a set of paths *)
Section Confined.
Import Blender BlenderMore.
Context {F : Type} `{Num F} {Scene : Type}.
#[local] Abbreviation M := (M F Scene).
#[local] Abbreviation world := (world F Scene).
Variable c : string.
Variable P : string -> Prop.

Lemma confined_quiet {A} (m : M A) : quiet m -> confined c P m.
Proof.
  intros Hq w r w1 Hc E. destruct (Hq _ _ _ E) as [Hf Hcw].
  split; [congruence|]. intros p _. now rewrite Hf.
Qed.

Lemma confined_weaken {A} (Q : string -> Prop) (m : M A) :
  (forall p, Q p -> P p) -> confined c Q m -> confined c P m.
Proof.
  intros HQ Hm w r w1 Hc E. destruct (Hm _ _ _ Hc E) as [Hc1 Hf].
  split; [exact Hc1|]. intros p Hp. apply Hf. auto.
Qed.

Lemma confined_bind {A B} (m : M A) (k : A -> M B) :
  confined c P m -> (forall a, confined c P (k a)) -> confined c P (m ≫= k).
Proof.
  intros Hm Hk w r w1 Hc. unfold mbind, M_bind, seq_bind.
  destruct (m w) as [[a|e] w2] eqn:E.
  - intros Hr. destruct (Hm _ _ _ Hc E) as [Hc2 Hf2].
    destruct (Hk a _ _ _ Hc2 Hr) as [Hc3 Hf3].
    split; [exact Hc3|]. intros p Hp. now rewrite Hf3, Hf2.
  - intros [= <- <-]. exact (Hm _ _ _ Hc E).
Qed.

Lemma confined_write (p : string) (x : content F) :
  P (path_join c p) -> confined c P (write (Scene:=Scene) p x).
Proof.
  intros HP w r w1 Hc [= <- <-]. cbn [cwd fs set_fs]. split; [exact Hc|].
  intros q Hq. apply lookup_insert_ne. unfold resolve. rewrite Hc. intros <-. auto.
Qed.

Lemma confined_rename (src dst : string) :
  P (path_join c src) -> P (path_join c dst) ->
  confined c P (rename (F:=F) (Scene:=Scene) src dst).
Proof.
  intros Hs Hd w r w1 Hc. unfold rename, resolve. rewrite Hc.
  destruct (fs w !! path_join c src); intros [= <- <-]; cbn [cwd fs set_fs].
  - split; [exact Hc|]. intros q Hq.
    rewrite lookup_insert_ne, lookup_delete_ne; [reflexivity | |]; intros <-; auto.
  - auto.
Qed.

Lemma confined_for_each (idxs : list nat) (body : nat -> M unit) :
  Forall (fun i => confined c P (body i)) idxs -> confined c P (for_each idxs body).
Proof.
  induction 1 as [|i idxs Hi _ IH]; cbn [for_each].
  - apply confined_quiet, quiet_ret.
  - apply confined_bind; [exact Hi | intros _; exact IH].
Qed.

End Confined.

(** *** [save_images] keeps to the views directory *)
Section SaveImagesConfined.
Import Blender BlenderMore.
Context {F : Type} `{Num F} {Scene : Type}.
Variable math : Math F.
Variable bpy : Bpy F Scene.
#[local] Abbreviation M := (M F Scene).
#[local] Abbreviation world := (world F Scene).
Variables c o u : string.

(** The paths of the images of the views, and of all the view outputs. *)
Let I : string -> Prop := fun p => exists name, view_image name /\ p = view_key c o u name.
Let P : string -> Prop := fun p => exists name, view_output name /\ p = view_key c o u name.

Lemma view_path (name : string) :
  startswith name "/" = false ->
  path_join c (path_join (views_dir_of o u) name) = view_key c o u name.
Proof.
  intros Hn. unfold view_key. rewrite path_join_views by exact Hn.
  apply path_join_prefix, views_dir_nonempty.
Qed.

Lemma view_image_path (i : nat) (rest : string) :
  (i < 16)%nat -> endswith rest ".jpg" = true \/ endswith rest ".png" = true ->
  I (path_join c (path_join (views_dir_of o u) (fmt_03d i +:+ rest))).
Proof.
  intros Hi Hr. rewrite view_path by (apply view_name_relative; exact Hi).
  eexists. split; [|reflexivity]. exists i, rest. auto.
Qed.


Lemma confined_render_still (i : nat) :
  (i < 16)%nat ->
  confined c I (render_still bpy (views_dir_of o u)
                  (path_join (views_dir_of o u) (fmt_03d i +:+ "_rgb.jpg"))
                  (fmt_03d i +:+ "_depth") (fmt_03d i +:+ "_mask")).
Proof.
  intros Hi. unfold render_still.
  apply confined_bind; [apply confined_quiet, quiet_host_try | intros _].
  apply confined_bind; [apply confined_quiet, quiet_get_scene | intros s].
  apply confined_bind; [|intros _; apply confined_bind; [|intros _]].
  - apply confined_write, view_image_path; [exact Hi | left; reflexivity].
  - apply confined_write. rewrite !append_assoc. apply view_image_path; [exact Hi|].
    right. do 2 apply endswith_prefix. reflexivity.
  - apply confined_write. rewrite !append_assoc. apply view_image_path; [exact Hi|].
    left. do 2 apply endswith_prefix. reflexivity.
Qed.

Lemma confined_render_view (a : args F) (nv : Z) (i : nat) :
  (i < 16)%nat -> confined c I (render_view math bpy a (views_dir_of o u) nv i).
Proof.
  intros Hi. unfold render_view.
  apply confined_bind; [apply confined_quiet, quiet_index | intros az].
  apply confined_bind; [apply confined_quiet, quiet_index | intros el].
  apply confined_bind; [apply confined_quiet, quiet_host | intros _].
  apply confined_bind; [apply confined_render_still, Hi | intros _].
  assert (Hren : forall s t : string,
            endswith s ".jpg" = true \/ endswith s ".png" = true ->
            endswith t ".jpg" = true \/ endswith t ".png" = true ->
            forall there : bool,
              confined c I (if there
                            then rename (F:=F) (Scene:=Scene)
                                   (path_join (views_dir_of o u) (fmt_03d i +:+ s))
                                   (path_join (views_dir_of o u) (fmt_03d i +:+ t))
                            else ret tt)).
  { intros s t Hs Ht [|].
    - apply confined_rename; now apply view_image_path.
    - apply confined_quiet, quiet_ret. }
  apply confined_bind; [apply confined_quiet, still_quiet, still_exists | intros d].
  apply confined_bind; [apply Hren; right; reflexivity | intros _].
  apply confined_bind; [apply confined_quiet, still_quiet, still_exists | intros m].
  apply confined_bind; [apply Hren; left; reflexivity | intros _].
  apply confined_quiet, quiet_print.
Qed.

Lemma confined_render_loop (a : args F) (nv : Z) (idxs : list nat) :
  Forall (fun i => (i < 16)%nat) idxs ->
  confined c I (for_each idxs (render_view math bpy a (views_dir_of o u) nv)).
Proof.
  intros Hidx. apply confined_for_each. eapply Forall_impl; [exact Hidx|].
  intros i Hi. now apply confined_render_view.
Qed.

Lemma quiet_camera_records (d : F) (cam : camera F) (idxs : list nat) :
  quiet (camera_records math bpy d cam idxs).
Proof.
  intros w r w1 E. destruct (camera_records_spec math bpy _ _ _ _ _ _ E) as (? & ? & _). auto.
Qed.

Lemma confined_save_camera_parameters (nv : Z) (d : F) (cam : camera F) :
  confined c P (save_camera_parameters_mvd math bpy (views_dir_of o u) nv d cam).
Proof.
  unfold save_camera_parameters_mvd.
  apply confined_bind; [apply confined_quiet, quiet_camera_records | intros rs].
  apply confined_bind; [|intros _; apply confined_quiet, quiet_print].
  apply confined_write. rewrite view_path by reflexivity.
  eexists. split; [left; reflexivity | reflexivity].
Qed.

Lemma image_is_output (p : string) : I p -> P p.
Proof. intros (name & Hn & ->). exists name. split; [now right | reflexivity]. Qed.

End SaveImagesConfined.

Section SaveImagesConfinedClaim.
Import Blender BlenderMore.
Context {F : Type} `{Num F} {Scene : Type}.
Variable math : Math F.
Variable bpy : Bpy F Scene.

Lemma confined_save_images (c : string) (a : args F) (object_file : string) :
  confined c
    (fun p => exists name,
       view_output name
       /\ p = view_key c (output_dir a) (split_first "." (basename object_file)) name)
    (save_images math bpy a object_file).
Proof.
  unfold save_images.
  apply confined_bind; [apply confined_quiet, quiet_reset_scene | intros _].
  apply confined_bind; [apply confined_quiet, quiet_load_object | intros _].
  apply confined_bind; [apply confined_quiet, quiet_normalize_scene | intros _].
  apply confined_bind; [apply confined_quiet, quiet_host_try | intros _].
  apply confined_bind; [apply confined_quiet, quiet_setup_camera | intros cam].
  apply confined_bind; [apply confined_quiet, quiet_host_try | intros _].
  apply confined_bind; [apply confined_quiet, quiet_host_try | intros _].
  apply confined_bind.
  { eapply confined_weaken; [apply image_is_output|].
    apply confined_render_loop, range_n_lt. }
  intros _.
  apply confined_bind; [apply confined_save_camera_parameters | intros _].
  apply confined_quiet, quiet_print.
Qed.

(** X10: whether it returns or raises, [save_images] leaves the working
    directory as it is and changes no file other than, in the views
    directory of the object, [cameras.json] and names made of the three
    digits of a view below 16 followed by something that ends in [.jpg] or
    [.png]. *)
Theorem save_images_keeps_to_views (a : args F) (object_file : string)
    (w : world F Scene) :
  let key := view_key (cwd w) (output_dir a) (split_first "." (basename object_file)) in
  let w' := (save_images math bpy a object_file w).2 in
  cwd w' = cwd w
  /\ (forall p, (forall name, view_output name -> p <> key name) ->
        fs w' !! p = fs w !! p).
Proof.
  intros key w'.
  destruct (save_images math bpy a object_file w) as [r w1] eqn:E. subst w'. cbn [snd].
  destruct (confined_save_images (cwd w) a object_file w r w1 eq_refl E) as [Hc Hf].
  split; [exact Hc|].
  intros p Hp. apply Hf. intros (name & Hname & ->). exact (Hp name Hname eq_refl).
Qed.

End SaveImagesConfinedClaim.

(** *** What a run prints, and what a failed run leaves *)
Section SaveImagesTrace.
Import Blender BlenderMore.
Context {F : Type} `{Num F} {Scene : Type}.
Variable math : Math F.
Variable bpy : Bpy F Scene.
#[local] Abbreviation M := (M F Scene).
#[local] Abbreviation world := (world F Scene).

Lemma host_try_raises (f : Scene -> outcome Scene) (w w1 : world) (e : exn) :
  host_try f w = (Raise e, w1) -> exists msg, e = HostError msg.
Proof. unfold host_try. destruct (f (scene w)); intros [= <- <-]. eauto. Qed.

Lemma still_reset_scene : still (reset_scene bpy).
Proof.
  unfold reset_scene. repeat (apply still_bind; [apply still_host | intros _]).
  apply still_host.
Qed.

Lemma still_load_object (p : string) : still (load_object bpy p).
Proof.
  unfold load_object. destruct (endswith p ".glb"); [apply still_host_try|].
  destruct (endswith p ".fbx"); [apply still_host_try | apply still_raise].
Qed.

Lemma still_normalize_scene : still (normalize_scene bpy).
Proof.
  intros w r w1. unfold normalize_scene.
  destruct (Nat.eqb _ 0); [intros [= <- <-]; auto | apply still_host_try].
Qed.

Lemma still_setup_camera : still (setup_camera bpy).
Proof.
  unfold setup_camera. apply still_bind; [apply still_host_try | intros _; apply still_ret].
Qed.

Lemma load_object_raises (p : string) (w w1 : world) (e : exn) :
  load_object bpy p w = (Raise e, w1) -> save_images_error p e.
Proof.
  unfold load_object, save_images_error.
  destruct (endswith p ".glb"); [intros E; apply host_try_raises in E; auto|].
  destruct (endswith p ".fbx"); [intros E; apply host_try_raises in E; auto|].
  intros [= <- <-]. auto.
Qed.

Lemma normalize_scene_raises (p : string) (w w1 : world) (e : exn) :
  normalize_scene bpy w = (Raise e, w1) -> save_images_error p e.
Proof.
  unfold normalize_scene, save_images_error.
  destruct (Nat.eqb _ 0); [intros [= <- <-]; auto|].
  intros E. apply host_try_raises in E. auto.
Qed.

Lemma setup_camera_run (w : world) (r : result (camera F)) (w1 : world) :
  setup_camera bpy w = (r, w1) ->
  r = Ok rig \/ exists msg, r = Raise (HostError msg).
Proof.
  unfold setup_camera. rewrite host_try_bind.
  destruct (rig_camera bpy 35 32 (scene w)); intros [= <- <-]; eauto.
Qed.

(** The guarded rename of the rendering loop, whether or not the file is
    there. *)
Lemma guarded_rename_step {B} (src dst : string) (k : unit -> M B) (w : world) :
  (exists_ src ≫= fun there => (if there : bool then rename src dst else ret tt) ≫= k) w
  = k tt (guarded_rename src dst w).
Proof.
  unfold mbind, M_bind, seq_bind, exists_, rename, guarded_rename.
  destruct (fs w !! resolve w src) as [x|] eqn:E.
  - rewrite bool_decide_eq_true_2 by eauto. now rewrite E.
  - rewrite bool_decide_eq_false_2 by (intros [? ?]; discriminate). reflexivity.
Qed.

Lemma guarded_rename_log (src dst : string) (w : world) :
  log (guarded_rename src dst w) = log w.
Proof. unfold guarded_rename. now destruct (fs w !! resolve w src). Qed.

Lemma render_still_step {B} (vd fp ds ms : string) (k : unit -> M B) (w : world) :
  (render_still bpy vd fp ds ms ≫= k) w
  = match render bpy (scene w) with
    | Done s =>
        let frame := fmt_04d (frame_current bpy s) in
        k tt (set_fs (<[resolve w (path_join vd (ms +:+ frame +:+ ".jpg")) := Image Mask]>
                     (<[resolve w (path_join vd (ds +:+ frame +:+ ".png")) := Image Depth]>
                      (<[resolve w fp := Image Rgb]> (fs w))))
                (set_scene s w))
    | Failed msg => (Raise (HostError msg), w)
    end.
Proof.
  unfold render_still. unfold mbind at 1. unfold M_bind at 1. unfold seq_bind at 1.
  rewrite host_try_bind.
  destruct (render bpy (scene w)) as [s|msg]; reflexivity.
Qed.

(** One turn of the rendering loop, at any frame: the render fails and
    nothing is written or printed, or the turn returns and has printed its
    line. *)
Lemma render_view_outcome (a : args F) (vd : string) (nv : Z) (i : nat) (w : world) :
  (i < 16)%nat ->
  (exists msg w1, render_view math bpy a vd nv i w = (Raise (HostError msg), w1)
                  /\ fs w1 = fs w /\ log w1 = log w)
  \/ (exists w1, render_view math bpy a vd nv i w = (Ok tt, w1)
                 /\ log w1 = log w ++ [RenderedView i nv]).
Proof.
  intros Hi.
  destruct (azimuth_some (F:=F) i Hi) as [az Haz].
  destruct (elevation_some (F:=F) i Hi) as [el Hel].
  unfold render_view.
  rewrite (bind_run _ _ _ _ _ (index_run _ _ _ w Haz)).
  rewrite (bind_run _ _ _ _ _ (index_run _ _ _ w Hel)).
  rewrite host_bind, render_still_step. cbn [scene set_scene].
  destruct (render bpy _) as [s|msg].
  2:{ left. eexists _, _. split; [reflexivity|]. auto. }
  right. cbv zeta. rewrite !guarded_rename_step.
  eexists. split; [reflexivity|]. cbn [log]. now rewrite !guarded_rename_log.
Qed.

(** The rendering loop: the lines of the turns that returned, in order;
    the loop stops at the first render the host fails. *)
Lemma render_loop_log (a : args F) (vd : string) (nv : Z) (idxs : list nat)
    (w : world) (r : result unit) (w' : world) :
  Forall (fun i => (i < 16)%nat) idxs ->
  for_each idxs (render_view math bpy a vd nv) w = (r, w') ->
  exists k,
    log w' = log w ++ map (fun i => RenderedView i nv) (take k idxs)
    /\ ((r = Ok tt /\ k = length idxs)
        \/ (exists msg, r = Raise (HostError msg)) /\ (k < length idxs)%nat).
Proof.
  intros Hidx. revert w. induction Hidx as [|i idxs Hi _ IH]; intros w.
  - intros [= <- <-]. exists 0%nat. split; [now rewrite app_nil_r | left; auto].
  - cbn [for_each].
    destruct (render_view_outcome a vd nv i w Hi) as [(msg & w1 & E & _ & Hl)|(w1 & E & Hl)].
    + rewrite (bind_run_raise _ _ _ _ _ E). intros [= <- <-].
      exists 0%nat. split; [now rewrite Hl, app_nil_r|]. right. split; [eauto | simpl; lia].
    + rewrite (bind_run _ _ _ _ _ E). intros Hr.
      destruct (IH _ Hr) as (k & Hlog & Hk).
      exists (S k). split.
      * rewrite Hlog, Hl, <- app_assoc. reflexivity.
      * destruct Hk as [[-> ->]|[Hm Hk]]; [left; auto | right; split; [exact Hm | simpl; lia]].
Qed.


Lemma still_camera_record (d : F) (cam : camera F) (i : nat) :
  still (camera_record math bpy d cam i).
Proof.
  unfold camera_record.
  apply still_bind; [apply still_index | intros az].
  apply still_bind; [apply still_index | intros el].
  apply still_bind; [apply still_host | intros _].
  apply still_bind; [apply still_host | intros _].
  apply still_bind; [apply still_get_scene | intros s].
  destruct (intrinsics cam) as [[[[sh fx] fy] cx] cy]. apply still_ret.
Qed.

Lemma still_camera_records (d : F) (cam : camera F) (idxs : list nat) :
  still (camera_records math bpy d cam idxs).
Proof.
  induction idxs as [|i idxs IH]; cbn [camera_records]; [apply still_ret|].
  apply still_bind; [apply still_camera_record | intros r].
  apply still_bind; [exact IH | intros rs; apply still_ret].
Qed.

(** The stages of [save_images]: it raises before the rendering loop,
    nothing being written or printed; or in the loop; or it goes through the
    loop and the metadata step and returns. *)
Lemma save_images_stages (a : args F) (object_file : string)
    (w : world) (r : result unit) (w' : world) :
  save_images math bpy a object_file w = (r, w') ->
  let u := split_first "." (basename object_file) in
  let nv := Z.min (num_images a) 16 in
  (exists e, r = Raise e /\ save_images_error object_file e
             /\ fs w' = fs w /\ cwd w' = cwd w /\ log w' = log w)
  \/ exists w7 r8 w8,
       fs w7 = fs w /\ cwd w7 = cwd w /\ log w7 = log w
       /\ for_each (range_n nv) (render_view math bpy a (views_dir_of (output_dir a) u) nv) w7
          = (r8, w8)
       /\ ((exists msg, r8 = Raise (HostError msg) /\ r = Raise (HostError msg) /\ w' = w8)
           \/ (r8 = Ok tt /\ r = Ok tt
               /\ exists rs,
                    map view_id rs = range_n nv
                    /\ Forall (record_ok math (camera_dist a) rig) rs
                    /\ fs w' = <[view_key (cwd w) (output_dir a) u "cameras.json"
                                 := CamerasJson rs]> (fs w8)
                    /\ cwd w' = cwd w
                    /\ log w' = log w8 ++ [SavedCameraParameters nv; Completed u nv])).
Proof.
  intros Hrun u nv. unfold save_images in Hrun. fold u nv in Hrun.
  assert (Hpre : forall {A} (m : M A) (k : A -> M unit) (w0 : world),
            still m ->
            (forall e w1, m w0 = (Raise e, w1) -> save_images_error object_file e) ->
            fs w0 = fs w /\ cwd w0 = cwd w /\ log w0 = log w ->
            (m ≫= k) w0 = (r, w') ->
            (exists e, r = Raise e /\ save_images_error object_file e
                       /\ fs w' = fs w /\ cwd w' = cwd w /\ log w' = log w)
            \/ exists x w1, (fs w1 = fs w /\ cwd w1 = cwd w /\ log w1 = log w)
                            /\ m w0 = (Ok x, w1) /\ k x w1 = (r, w')).
  { intros A m k w0 Hs He (Hf0 & Hc0 & Hl0). unfold mbind, M_bind, seq_bind.
    destruct (m w0) as [[x|e] w1] eqn:E; destruct (Hs _ _ _ E) as (Hf1 & Hc1 & Hl1).
    - intros Hk. right. exists x, w1. repeat split; congruence.
    - intros [= <- <-]. left. exists e. split; [reflexivity|].
      split; [eapply He; reflexivity|]. repeat split; congruence. }
  assert (Hhost : forall f (e : exn) (w0 w1 : world),
            host_try f w0 = (Raise e, w1) -> save_images_error object_file e).
  { intros f e w0 w1 E. apply host_try_raises in E. right. right. exact E. }
  apply Hpre in Hrun as [?|([] & w1 & H1 & _ & Hrun)]; [auto | | apply still_reset_scene | | auto].
  2:{ intros e w1 E. destruct (reset_scene_run bpy w) as [s Es]. congruence. }
  apply Hpre in Hrun as [?|([] & w2 & H2 & _ & Hrun)];
    [auto | | apply still_load_object | intros ? ?; apply load_object_raises | exact H1].
  apply Hpre in Hrun as [?|([] & w3 & H3 & _ & Hrun)];
    [auto | | apply still_normalize_scene | intros ? ?; apply normalize_scene_raises | exact H2].
  apply Hpre in Hrun as [?|([] & w4 & H4 & _ & Hrun)];
    [auto | | apply still_host_try | intros ? ?; apply Hhost | exact H3].
  apply Hpre in Hrun as [?|(cam & w5 & H5 & Hcam & Hrun)];
    [auto | | apply still_setup_camera | | exact H4].
  2:{ intros e w5 E. apply setup_camera_run in E as [E|[msg E]]; [discriminate|].
      injection E as ->. right. right. eauto. }
  apply setup_camera_run in Hcam as [[= ->]|[msg ?]]; [|discriminate].
  apply Hpre in Hrun as [?|([] & w6 & H6 & _ & Hrun)];
    [auto | | apply still_host_try | intros ? ?; apply Hhost | exact H5].
  apply Hpre in Hrun as [?|([] & w7 & H7 & _ & Hrun)];
    [auto | | apply still_host_try | intros ? ?; apply Hhost | exact H6].
  destruct H7 as (Hf7 & Hc7 & Hl7).
  right. unfold mbind at 1, M_bind at 1, seq_bind at 1 in Hrun.
  destruct (for_each _ _ w7) as [r8 w8] eqn:Hloop.
  exists w7, r8, w8. split; [exact Hf7|]. split; [exact Hc7|]. split; [exact Hl7|].
  split; [exact Hloop|].
  pose proof (steady_for_each _ _ (steady_render_view math bpy a _ _) _ _ _ Hloop) as Hc8.
  destruct (render_loop_log a _ nv _ w7 r8 w8 (range_n_lt _) Hloop) as (k & _ & Hk).
  destruct Hk as [[-> _]|[[msg ->] _]].
  2:{ left. injection Hrun as <- <-. eauto. }
  right. split; [reflexivity|].
  unfold save_camera_parameters_mvd in Hrun.
  unfold mbind at 1, M_bind at 1, seq_bind at 1 in Hrun.
  unfold mbind at 1, M_bind at 1, seq_bind at 1 in Hrun.
  destruct (camera_records _ _ _ _ _ w8) as [rr w10] eqn:Hrec.
  destruct (still_camera_records _ _ _ _ _ _ Hrec) as (Hf10 & Hc10 & Hl10).
  destruct (camera_records_spec _ _ _ _ _ _ _ _ Hrec) as (_ & _ & Hrs & Htot).
  destruct (Htot (range_n_lt _)) as [rs ->].
  destruct (Hrs rs eq_refl) as [Hids Hoks].
  rewrite write_bind in Hrun. injection Hrun as <- <-.
  split; [reflexivity|]. exists rs. split; [exact Hids|]. split; [exact Hoks|].
  cbn [fs cwd log set_fs]. rewrite resolve_view by reflexivity.
  rewrite Hf10, Hc10, Hl10, Hc8, Hc7, <- app_assoc. auto.
Qed.

End SaveImagesTrace.

Section SaveImagesRuns.
Import Blender BlenderMore.
Context {F : Type} `{Num F} {Scene : Type}.
Variable math : Math F.
Variable bpy : Bpy F Scene.
#[local] Abbreviation world := (world F Scene).





(** X12: a run of [save_images] that returns has printed one line per
    view, for the views [0 .. n-1] in order, then the line of the camera
    parameters and the completion line, each with [min(num_images, 16)] as
    the number of views; when [num_images <= 0] that number is [num_images]
    itself, and the only file written is [cameras.json], with an empty
    list. *)
Theorem save_images_log (a : args F) (object_file : string) (w w' : world) :
  save_images math bpy a object_file w = (Ok tt, w') ->
  let nv := Z.min (num_images a) 16 in
  let object_uid := split_first "." (basename object_file) in
  log w' = log w ++ map (fun i => RenderedView i nv) (seq 0 (Z.to_nat nv))
           ++ [SavedCameraParameters nv; Completed object_uid nv]
  /\ (num_images a <= 0 ->
        nv = num_images a
        /\ fs w' = <[view_key (cwd w) (output_dir a) object_uid "cameras.json"
                     := CamerasJson []]> (fs w)).
Proof.
  intros Hrun nv u.
  destruct (save_images_stages math bpy a object_file w _ _ Hrun)
    as [(e' & [=] & _)|(w7 & r8 & w8 & Hf7 & Hc7 & Hl7 & Hloop & Hcase)].
  destruct Hcase as [(msg & _ & [=] & _)|(-> & _ & rs & Hids & _ & Hfs & _ & Hlog)].
  fold nv u in Hloop, Hids, Hfs, Hlog.
  split.
  - destruct (render_loop_log math bpy a _ nv _ w7 _ w8 (range_n_lt _) Hloop)
      as (k & Hl8 & [[_ ->]|[[msg [=]] _]]).
    rewrite take_ge in Hl8 by lia.
    rewrite Hlog, Hl8, Hl7, <- app_assoc. reflexivity.
  - intros Hn. split; [unfold nv; lia|].
    assert (Hnil : range_n nv = []) by (unfold range_n, nv; now replace (Z.to_nat _) with 0%nat by lia).
    rewrite Hnil in Hloop, Hids. injection Hloop as <-.
    apply map_eq_nil in Hids as ->. now rewrite Hfs, Hf7.
Qed.

End SaveImagesRuns.

Section SaveImagesRunsDemo.
Import Blender BlenderMore.



(** Witness of X12 *)
Lemma save_images_log_witness :
  exists w',
    save_images series_math (demo_host float) (demo_args 2) "cube.glb" (demo_world float)
    = (Ok tt, w')
    /\ log w' = [RenderedView 0 2; RenderedView 1 2;
                 SavedCameraParameters 2; Completed "cube" 2].
Proof.
  destruct (demo_run series_math 2) as [w' Hrun].
  exists w'. split; [exact Hrun|].
  exact (proj1 (save_images_log series_math (demo_host float) (demo_args 2) "cube.glb"
                  (demo_world float) w' Hrun)).
Defined.

End SaveImagesRunsDemo.

(** *** The asset a run renders *)
Section Assets.
Import Blender BlenderMore.
Context {F : Type} `{Num F} {Scene : Type}.
Variable math : Math F.
Variable bpy : Bpy F Scene.
Variable net : string -> fetch.
#[local] Abbreviation M := (M F Scene).
#[local] Abbreviation world := (world F Scene).

(** No view output has the name of an asset or of a download in progress. *)
Lemma view_output_not_asset (c o u name p : string) :
  view_output name ->
  endswith p ".glb" = true \/ endswith p ".fbx" = true \/ endswith p ".tmp" = true ->
  p <> view_key c o u name.
Proof.
  intros Hname Hp ->.
  assert (Hkey : endswith (view_key c o u name) ".jpg" = true
                 \/ endswith (view_key c o u name) ".png" = true
                 \/ endswith (view_key c o u name) "json" = true).
  { unfold view_key. destruct Hname as [->|(i & rest & _ & -> & [Hr|Hr])].
    - right. right. do 2 apply endswith_prefix. reflexivity.
    - left. now do 3 apply endswith_prefix.
    - right. left. now do 3 apply endswith_prefix. }
  destruct Hp as [Hp|[Hp|Hp]], Hkey as [Hk|[Hk|Hk]];
    pose proof (endswith_same_length _ _ _ Hp Hk eq_refl); discriminate.
Qed.

(** The name [download_object] gives to the asset of a URL. *)
Lemma canonical_shape (object_url c : string) :
  let uid := split_first "." (split_last "/" object_url) in
  exists x, path_join c (path_join "tmp-objects" (uid +:+ ".glb"))
            = x +:+ String "/" (uid +:+ ".glb")
            /\ existsb (Ascii.eqb "/") (list_ascii_of_string (uid +:+ ".glb")) = false
            /\ existsb (Ascii.eqb ".") (list_ascii_of_string uid) = false.
Proof.
  intros uid.
  assert (Hslash : existsb (Ascii.eqb "/") (list_ascii_of_string uid) = false)
    by apply split_first_keeps_free, split_last_free.
  assert (Hglb : existsb (Ascii.eqb "/") (list_ascii_of_string (uid +:+ ".glb")) = false)
    by (rewrite occurs_append, Hslash; reflexivity).
  assert (Hlocal : path_join "tmp-objects" (uid +:+ ".glb")
                   = "tmp-objects/" +:+ (uid +:+ ".glb")).
  { unfold path_join. now rewrite (startswith_free _ _ _ Hglb). }
  rewrite Hlocal, path_join_prefix by discriminate.
  exists (path_join c "tmp-objects").
  split; [|split; [exact Hglb | apply split_first_free]].
  change "tmp-objects/"%string with ("tmp-objects" +:+ "/").
  rewrite path_join_prefix by discriminate. rewrite append_assoc. reflexivity.
Qed.

Lemma asset_path_facts (object_url c : string) :
  let uid := split_first "." (split_last "/" object_url) in
  let local_path := path_join c (path_join "tmp-objects" (uid +:+ ".glb")) in
  basename local_path = uid +:+ ".glb"
  /\ split_first "." (basename local_path) = uid
  /\ endswith local_path ".glb" = true.
Proof.
  intros uid local_path.
  destruct (canonical_shape object_url c) as (x & Hx & Hslash & Hdot).
  fold uid in Hx, Hslash, Hdot. fold local_path in Hx.
  assert (Hbase : basename local_path = uid +:+ ".glb").
  { unfold basename. rewrite Hx. now apply split_last_append. }
  split; [exact Hbase|]. split.
  - rewrite Hbase. change ".glb"%string with (String "." "glb").
    now apply split_first_append.
  - rewrite Hx. change (String "/" (uid +:+ ".glb")) with ("/" +:+ (uid +:+ ".glb")).
    now do 3 apply endswith_prefix.
Qed.

(** A download that arrives, in one equation. *)
Lemma download_object_fetched (object_url body : string) (w : world) :
  net object_url = Fetched body ->
  let uid := split_first "." (split_last "/" object_url) in
  let local_path := resolve w (path_join "tmp-objects" (uid +:+ ".glb")) in
  exists w1,
    download_object net object_url w = (Ok local_path, w1)
    /\ fs w1 !! local_path = Some (Asset body)
    /\ cwd w1 = cwd w /\ log w1 = log w.
Proof.
  intros Hnet uid local_path. unfold download_object, urlretrieve. rewrite Hnet.
  rewrite write_bind.
  unfold mbind, M_bind, seq_bind, rename, abspath. cbn [fs set_fs].
  change (resolve (set_fs ?f w) ?p) with (resolve w p).
  rewrite lookup_insert_eq. eexists. split; [reflexivity|]. cbn [fs set_fs cwd log].
  split; [apply lookup_insert_eq | auto].
Qed.

(** X13: the path [download_object] returns for a URL is
    [tmp-objects/{uid}.glb] under the working directory, [uid] being the last
    segment of the URL up to its first dot; its base name is [{uid}.glb], so
    that [save_images] recovers the same [uid] from it and renders into
    [{output_dir}/{uid}/views]; it ends in [.glb] whatever the URL ends in, so
    that [load_object] hands a downloaded asset to the glTF importer and
    does not raise its [ValueError]. *)
Theorem download_names_asset (a : args F) (object_url : string) (w : world) :
  let uid := split_first "." (split_last "/" object_url) in
  let local_path := resolve w (path_join "tmp-objects" (uid +:+ ".glb")) in
  (forall body, net object_url = Fetched body ->
     exists w1, download_object net object_url w = (Ok local_path, w1))
  /\ basename local_path = uid +:+ ".glb"
  /\ split_first "." (basename local_path) = uid
  /\ views_dir_of (output_dir a) (split_first "." (basename local_path))
     = views_dir_of (output_dir a) uid
  /\ endswith local_path ".glb" = true
  /\ load_object bpy local_path = host_try (import_gltf bpy local_path).
Proof.
  intros uid local_path.
  destruct (asset_path_facts object_url (cwd w)) as (Hbase & Huid & Hend).
  fold uid in Hbase, Huid, Hend.
  change (path_join (cwd w) ?p) with (resolve w p) in Hbase, Huid, Hend.
  fold local_path in Hbase, Huid, Hend.
  split.
  { intros body Hnet.
    destruct (download_object_fetched object_url body w Hnet) as (w1 & Hd & _). eauto. }
  split; [exact Hbase|]. split; [exact Huid|]. split; [now rewrite Huid|].
  split; [exact Hend|].
  unfold load_object. now rewrite Hend.
Qed.

(** X14: for a URL that is fetched, in an absolute working directory,
    [__main__] returns, and rendering leaves the downloaded asset in place;
    when [save_images] returns, the asset is then removed and the last line
    printed is that of the finished run; when [save_images] raises, the
    asset is not removed: the files are as [save_images] left them, and the
    failure, the exception and the traceback are printed. *)
Theorem main_http_asset (a : args F) (w : world) (body : string) :
  startswith (cwd w) "/" = true ->
  startswith (object_path a) "http" = true ->
  net (object_path a) = Fetched body ->
  let uid := split_first "." (split_last "/" (object_path a)) in
  let local_path := resolve w (path_join "tmp-objects" (uid +:+ ".glb")) in
  exists w1 r w2 w',
    download_object net (object_path a) w = (Ok local_path, w1)
    /\ save_images math bpy a local_path w1 = (r, w2)
    /\ main math bpy net a w = (Ok tt, w')
    /\ fs w2 !! local_path = Some (Asset body)
    /\ match r with
       | Ok _ =>
           fs w' = delete local_path (fs w2)
           /\ log w' = log w2 ++ [Finished local_path]
       | Raise e =>
           fs w' = fs w2
           /\ log w' = log w2 ++ [FailedToRender (object_path a); PrintedException e;
                                  Traceback e]
       end.
Proof.
  intros Hcwd Hhttp Hnet uid local_path.
  destruct (download_object_fetched _ body w Hnet) as (w1 & Hd & Hasset & Hc1 & _).
  fold uid local_path in Hd, Hasset.
  destruct (save_images math bpy a local_path w1) as [r w2] eqn:Hs.
  assert (Hkeep : fs w2 !! local_path = Some (Asset body) /\ cwd w2 = cwd w).
  { destruct (confined_save_images math bpy (cwd w1) a local_path w1 r w2 eq_refl Hs)
      as [Hc2 Hf2].
    split; [|congruence]. rewrite Hf2; [exact Hasset|].
    intros (name & Hname & E). revert E. apply view_output_not_asset; [exact Hname|].
    left. exact (proj2 (proj2 (asset_path_facts (object_path a) (cwd w)))). }
  destruct Hkeep as [Hkeep Hc2].
  assert (Hres : path_join (cwd w2) local_path = local_path).
  { apply path_join_onto_absolute. unfold local_path, resolve.
    now apply path_join_absolute. }
  exists w1, r, w2.
  unfold main, try_except, main_body. rewrite Hhttp.
  rewrite (bind_run _ _ _ _ _ Hd).
  destruct r as [[]|e].
  - rewrite (bind_run _ _ _ _ _ Hs).
    unfold mbind, M_bind, seq_bind, print, remove, resolve. cbn [fs cwd log].
    rewrite Hres, Hkeep. eexists. split; [exact Hd|]. split; [exact Hs|].
    split; [reflexivity|]. split; [reflexivity|]. cbn [fs log set_fs]. auto.
  - rewrite (bind_run_raise _ _ _ _ _ Hs).
    eexists. split; [exact Hd|]. split; [exact Hs|]. split; [reflexivity|].
    split; [exact Hkeep|].
    cbn [fs log]. split; [reflexivity|]. now rewrite <- !app_assoc.
Qed.


Lemma save_images_unsupported (a : args F) (path : string) (w : world) :
  endswith path ".glb" = false -> endswith path ".fbx" = false ->
  exists w1, save_images math bpy a path w
             = (Raise (ValueError ("Unsupported file type: " +:+ path)), w1)
             /\ fs w1 = fs w.
Proof.
  intros Hg Hf. unfold save_images.
  destruct (reset_scene_run bpy w) as [s1 Hreset].
  rewrite (bind_run _ _ _ _ _ Hreset).
  assert (Hload : load_object bpy path (set_scene s1 w)
                  = (Raise (ValueError ("Unsupported file type: " +:+ path)), set_scene s1 w)).
  { unfold load_object. now rewrite Hg, Hf. }
  rewrite (bind_run_raise _ _ _ _ _ Hload). eexists. split; reflexivity.
Qed.

(** X15: for a local object path, [__main__] leaves the working directory
    as it is and changes no file other than the view outputs of the object;
    the object file itself is neither removed nor rewritten. *)
Theorem main_keeps_local_asset (a : args F) (w : world) :
  startswith (object_path a) "http" = false ->
  let w' := (main math bpy net a w).2 in
  let key := view_key (cwd w) (output_dir a)
               (split_first "." (basename (object_path a))) in
  cwd w' = cwd w
  /\ (forall p, (forall name, view_output name -> p <> key name) ->
        fs w' !! p = fs w !! p)
  /\ fs w' !! resolve w (object_path a) = fs w !! resolve w (object_path a).
Proof.
  intros Hhttp w' key.
  destruct (save_images math bpy a (object_path a) w) as [r w2] eqn:Hs.
  assert (Hmain : fs w' = fs w2 /\ cwd w' = cwd w2).
  { unfold w', main, try_except, main_body. rewrite Hhttp.
    change (ret (object_path a) ≫= ?k) with (k (object_path a)). cbv beta.
    destruct r as [[]|e].
    - rewrite (bind_run _ _ _ _ _ Hs). split; reflexivity.
    - rewrite (bind_run_raise _ _ _ _ _ Hs). split; reflexivity. }
  destruct Hmain as [Hf Hc].
  destruct (confined_save_images math bpy (cwd w) a (object_path a) w r w2 eq_refl Hs)
    as [Hc2 Hf2].
  assert (Hother : forall p, (forall name, view_output name -> p <> key name) ->
            fs w' !! p = fs w !! p).
  { intros p Hp. rewrite Hf. apply Hf2. intros (name & Hname & ->).
    exact (Hp name Hname eq_refl). }
  split; [congruence|]. split; [exact Hother|].
  destruct (endswith (object_path a) ".glb") eqn:Hg.
  { apply Hother. intros name Hname. apply view_output_not_asset; [exact Hname|].
    left. now apply endswith_path_join. }
  destruct (endswith (object_path a) ".fbx") eqn:Hx.
  { apply Hother. intros name Hname. apply view_output_not_asset; [exact Hname|].
    right. left. now apply endswith_path_join. }
  destruct (save_images_unsupported a (object_path a) w Hg Hx) as (w1 & E & Hfs).
  rewrite Hs in E. injection E as _ <-. now rewrite Hf, Hfs.
Qed.

(** X16: after a run of [save_images] that returns, record [i] of
    [cameras.json] has [view_id = i], the azimuth [AZIMUTHS_16[i]], the
    elevation 0.5235987901687622 (4392265 / 2^23), the camera distance of the
    command line, and as position what [get_camera_position] gives for
    them. *)
Theorem cameras_json_records (a : args F) (object_file : string) (w w' : world) :
  save_images math bpy a object_file w = (Ok tt, w') ->
  exists camera_params,
    fs w' !! view_key (cwd w) (output_dir a) (split_first "." (basename object_file))
               "cameras.json"
    = Some (CamerasJson camera_params)
    /\ forall (i : nat) r, camera_params !! i = Some r ->
         exists az,
           AZIMUTHS_16 !! i = Some az
           /\ view_id r = i
           /\ azimuth r = az
           /\ elevation r = dyadic 4392265 23
           /\ camera_distance r = camera_dist a
           /\ position r
              = vec_list (get_camera_position math az (dyadic 4392265 23) (camera_dist a)).
Proof.
  intros Hrun.
  destruct (save_images_cameras math bpy a object_file w w' Hrun)
    as (rs & w7 & w8 & _ & _ & _ & Hfs & _ & Hids & Hok).
  exists rs. split; [rewrite Hfs; apply lookup_insert_eq|].
  intros i r Hi.
  assert (Hid : view_id r = i).
  { assert (Hm : map view_id rs !! i = Some (view_id r))
      by (rewrite list_lookup_fmap, Hi; reflexivity).
    rewrite Hids in Hm. apply lookup_seq in Hm. lia. }
  rewrite Forall_forall in Hok.
  pose proof (Hok r (list_elem_of_lookup_2 _ _ _ Hi)) as Hr.
  unfold record_ok in Hr. destruct (intrinsics rig) as [[[[sh fx] fy] cx] cy].
  destruct Hr as (_ & _ & _ & _ & Hd & az & el & Haz & Hel & Ha & He & Hp).
  rewrite Hid in Haz, Hel.
  assert (el = dyadic 4392265 23) as ->.
  { unfold ELEVATIONS_16 in Hel. apply lookup_replicate in Hel as [-> _]. reflexivity. }
  exists az. auto 10.
Qed.


(** X17: when the import succeeds but leaves no mesh in the scene,
    [save_images] raises the [RuntimeError] of [scene_bbox] before any file
    is written, and [__main__], for such a local path, returns having
    printed the failure, the exception and the traceback, the files being as
    they were. *)
Theorem empty_scene_fails (a : args F) (w w2 : world) :
  startswith (object_path a) "http" = false ->
  load_object bpy (object_path a) (reset_scene bpy w).2 = (Ok tt, w2) ->
  mesh_count bpy (scene w2) = 0%nat ->
  let err := RuntimeError "no objects in scene to compute bounding box for" in
  save_images math bpy a (object_path a) w = (Raise err, w2)
  /\ fs w2 = fs w
  /\ exists w',
       main math bpy net a w = (Ok tt, w')
       /\ fs w' = fs w
       /\ log w' = log w ++ [FailedToRender (object_path a); PrintedException err;
                             Traceback err].
Proof.
  intros Hhttp Hload Hmesh err.
  destruct (reset_scene bpy w) as [r1 w1] eqn:Hreset.
  destruct (reset_scene_run bpy w) as [s1 Hreset']. rewrite Hreset in Hreset'.
  injection Hreset' as -> ->. cbn [snd] in Hload.
  destruct (still_load_object bpy _ _ _ _ Hload) as (Hf2 & _ & Hl2).
  cbn [fs log set_scene] in Hf2, Hl2.
  assert (Hs : save_images math bpy a (object_path a) w = (Raise err, w2)).
  { unfold save_images.
    rewrite (bind_run _ _ _ _ _ Hreset), (bind_run _ _ _ _ _ Hload).
    unfold mbind at 1, M_bind at 1, seq_bind at 1, normalize_scene.
    now rewrite Hmesh. }
  split; [exact Hs|]. split; [exact Hf2|].
  unfold main, try_except, main_body. rewrite Hhttp.
  change (ret (object_path a) ≫= ?k) with (k (object_path a)). cbv beta.
  rewrite (bind_run_raise _ _ _ _ _ Hs).
  eexists. split; [reflexivity|]. cbn [fs log].
  split; [exact Hf2|]. now rewrite Hl2, <- !app_assoc.
Qed.

End Assets.

Section AssetsDemo.
Import Blender BlenderMore.

(** Witness of X14: the asset of [demo_url] is fetched, rendered and
    removed. *)
Lemma main_http_asset_witness :
  exists w',
    main series_math (demo_host float) demo_net http_args (demo_world float) = (Ok tt, w')
    /\ fs w' !! "/work/tmp-objects/cube.glb" = None
    /\ last (log w') = Some (Finished "/work/tmp-objects/cube.glb").
Proof.
  destruct (main_http_asset series_math (demo_host float) demo_net http_args
              (demo_world float) "glTF" eq_refl eq_refl eq_refl)
    as (w1 & r & w2 & w' & _ & Hs & Hmain & _ & Hcase).
  cbv zeta in Hs, Hcase.
  change (resolve (demo_world float) _) with "/work/tmp-objects/cube.glb"%string in Hs, Hcase.
  destruct (save_images_total series_math (demo_host float) demo_frame http_args
              "/work/tmp-objects/cube.glb" w1 (null_host_reliable _) (or_introl eq_refl))
    as [w2' Hok].
  rewrite Hok in Hs. injection Hs as <- <-.
  destruct Hcase as [Hfs Hlog].
  exists w'. split; [exact Hmain|]. split.
  - rewrite Hfs. apply lookup_delete_eq.
  - rewrite Hlog. apply last_snoc.
Defined.

(** Witness of X15 *)
Lemma main_keeps_local_asset_witness :
  fs (main series_math (demo_host float) demo_net (demo_args 64) (local_world float)).2
    !! "/work/cube.glb"
  = Some (Asset "glTF").
Proof.
  destruct (main_keeps_local_asset series_math (demo_host float) demo_net (demo_args 64)
              (local_world float) eq_refl) as (_ & _ & Hkeep).
  etrans; [exact Hkeep|]. apply lookup_singleton_eq.
Defined.

(** Witness of X16 *)
Lemma cameras_json_records_witness :
  exists w' camera_params,
    save_images series_math (demo_host float) (demo_args 64) "cube.glb" (demo_world float)
    = (Ok tt, w')
    /\ fs w' !! "/work/./views/cube/views/cameras.json" = Some (CamerasJson camera_params)
    /\ (forall r, camera_params !! 2%nat = Some r ->
          azimuth r = 1.5707963705062866%float /\ elevation r = 0.5235987901687622%float
          /\ camera_distance r = 1.5%float).
Proof.
  destruct (demo_run series_math 64) as [w' Hrun].
  destruct (cameras_json_records series_math (demo_host float) (demo_args 64) "cube.glb"
              (demo_world float) w' Hrun) as (rs & Hcam & Hrec).
  exists w', rs. split; [exact Hrun|]. split; [exact Hcam|].
  intros r Hr. destruct (Hrec 2%nat r Hr) as (az & Haz & _ & Ha & He & Hd & _).
  injection Haz as <-. auto.
Defined.

(** Witness of X17 *)
Lemma empty_scene_fails_witness :
  exists w',
    main series_math (hollow_host float (0, 0, 0)%float) demo_net (demo_args 64)
      (demo_world float) = (Ok tt, w')
    /\ fs w' = ∅
    /\ log w' = [FailedToRender "cube.glb";
                 PrintedException
                   (RuntimeError "no objects in scene to compute bounding box for");
                 Traceback (RuntimeError "no objects in scene to compute bounding box for")].
Proof.
  destruct (empty_scene_fails series_math (hollow_host float (0, 0, 0)%float) demo_net
              (demo_args 64) (demo_world float) _ eq_refl eq_refl eq_refl)
    as (_ & _ & w' & Hmain & Hfs & Hlog).
  exists w'. split; [exact Hmain|]. split; [exact Hfs | exact Hlog].
Defined.

End AssetsDemo.

(** *** The cameras lie on a sphere *)
Section CameraSphere.
Import Blender.
Local Open Scope R_scope.


End CameraSphere.
